(** * Elements (pyECSS): components, scenegraph and animation blending

  A shallow embedding of the parts of
  [Elements/pyECSS/Component.py], [Elements/extensions/bezier/bezier_base.py]
  and [Elements/features/plotting/plotting_base.py] that the properties
  below talk about.

  Conventions of the embedding:
  - a Python object is a record; an object reference is a natural number
    (an address of the object heap), so that [self._parent = self] can be
    written down;
  - a Python exception is the [Raise] branch of [result];
  - [**kwargs] is a finite map from strings;
  - Python [int] is [Z]; a quotient of two ints (true division) is the
    exact rational in [Q];
  - 4x4 numpy arrays used as opaque matrices (TRS, local-to-world, ...) are
    an abstract type with a product; a pose matrix, whose slices the code
    reads and writes, is four rows of four rationals; a vertex-attribute
    array is a list of rows. Rounding of floats is not modelled. *)

From Stdlib Require Import ZArith QArith Lia.
From stdpp Require Import base option list gmap strings.
From Equations Require Import Equations.

Local Open Scope Z_scope.
Set Warnings "-register-all".

(** ** Python results *)

Inductive exn :=
| AttributeError (attr : string)
| IndexError
| ZeroDivisionError
| InvalidOperation.

Inductive result (A : Type) :=
| Ok (a : A)
| Raise (e : exn).
Arguments Ok {A} a.
Arguments Raise {A} e.

Definition rbind {A B} (r : result A) (k : A → result B) : result B :=
match r with
| Ok a => k a
| Raise e => Raise e
end.

Notation "x ←← r ; k" := (rbind r (fun x => k))
(at level 100, r at next level, right associativity, only parsing).

(** [a and b] on Python expressions that may raise: [b] is evaluated only
  when [a] is true. *)
Definition py_and (a b : result bool) : result bool :=
x ←← a; if x then b else Ok false.

(** [l[i]] for a non-negative constant index. *)
Definition py_index {A} (l : list A) (i : nat) : result A :=
match l !! i with
| Some a => Ok a
| None => Raise IndexError
end.

(** Object references. *)
Abbreviation ref := nat (only parsing).

(** Values that are used as component ids: [uuid.uuid1().int] or whatever
  the caller passes (the examples pass strings such as ["500"]). *)
Inductive pyid :=
| IdInt (z : Z)
| IdStr (s : string).

(** ** class Component *)

Module Component.

Record t := mk {
  _name : string;
  _type : string;
  _id : pyid;
  _parent : ref;
  _children : option (list ref);
  _worldManager : option ref;
  _eventManager : option ref
}.

(** [Component.__init__(self, name=None, type=None, id=None)]; [cls] is
    [self.getClassName()], [uuid1] the value [uuid.uuid1().int] would
    return. *)
Definition __init__ (cls : string) (self : ref) (uuid1 : Z)
    (name type : option string) (id : option pyid) : t :=
  {| _name := match name with None => cls | Some n => n end;
     _type := match type with None => cls | Some ty => ty end;
     _id := match id with None => IdInt uuid1 | Some i => i end;
     _parent := self;
     _children := None;
     _worldManager := None;
     _eventManager := None |}.

Definition set_parent (c : t) (p : ref) : t :=
  {| _name := _name c; _type := _type c; _id := _id c; _parent := p;
     _children := _children c; _worldManager := _worldManager c;
     _eventManager := _eventManager c |}.

Definition set_children (c : t) (ch : option (list ref)) : t :=
  {| _name := _name c; _type := _type c; _id := _id c;
     _parent := _parent c; _children := ch;
     _worldManager := _worldManager c;
     _eventManager := _eventManager c |}.

End Component.

(** ** Transform and Camera components

  The matrices these two classes store are never inspected by them: they
  are built by [util.identity()], [util.ortho(...)] and the caller, and
  multiplied by the systems. The matrix type and these operations are
  parameters. *)

Section Matrices.

Variable M : Type.
Variable identity : M.
Variable ortho : Q → Q → Q → Q → Q → Q → M.

Record BasicTransform := mkBasicTransform {
  bt_base : Component.t;
  _trs : M;
  _l2world : M;
  _l2cam : M
}.

(** [BasicTransform.__init__(self, name=None, type=None, id=None, trs=None)] *)
Definition BasicTransform__init__ (self : ref) (uuid1 : Z)
    (name type : option string) (id : option pyid) (trs : option M)
    : BasicTransform :=
  let base := Component.__init__ "BasicTransform" self uuid1 name type id in
  let trs' := match trs with None => identity | Some m => m end in
  {| bt_base := Component.set_children (Component.set_parent base self) (Some []);
     _trs := trs';
     _l2world := identity;
     _l2cam := identity |}.

(** [BasicTransform.update(self, **kwargs)] *)
Definition BasicTransform_update (self : BasicTransform) (kwargs : gmap string M)
    : BasicTransform :=
  let arg1 := "l2world" in
  let arg2 := "trs" in
  let arg3 := "l2cam" in
  let s1 :=
    match kwargs !! arg1 with
    | Some v => {| bt_base := bt_base self; _trs := _trs self;
                   _l2world := v; _l2cam := _l2cam self |}
    | None => self
    end in
  let s2 :=
    match kwargs !! arg2 with
    | Some v => {| bt_base := bt_base s1; _trs := v;
                   _l2world := _l2world s1; _l2cam := _l2cam s1 |}
    | None => s1
    end in
  match kwargs !! arg3 with
  | Some v => {| bt_base := bt_base s2; _trs := _trs s2;
                 _l2world := _l2world s2; _l2cam := v |}
  | None => s2
  end.

Record Camera := mkCamera {
  cam_base : Component.t;
  _projMat : M;
  _root2cam : M
}.

(** [Camera.__init__(self, projMatrix=None, name=None, type=None, id=None,
    left=-100.0, right=100.0, bottom=-100.0, top=100.0, near=1.0, far=100.0)] *)
Definition Camera__init__ (self : ref) (uuid1 : Z) (projMatrix : option M)
    (name type : option string) (id : option pyid)
    (left right bottom top near far : Q) : Camera :=
  let base := Component.__init__ "Camera" self uuid1 name type id in
  {| cam_base := Component.set_parent base self;
     _projMat := match projMatrix with
                 | Some p => p
                 | None => ortho left right bottom top near far
                 end;
     _root2cam := identity |}.

(** [Camera.update(self, **kwargs)] *)
Definition Camera_update (self : Camera) (kwargs : gmap string M) : Camera :=
  let arg1 := "root2cam" in
  match kwargs !! arg1 with
  | Some v => {| cam_base := cam_base self; _projMat := _projMat self;
                 _root2cam := v |}
  | None => self
  end.

End Matrices.

Arguments mkBasicTransform {M} _ _ _ _.
Arguments bt_base {M} _.
Arguments _trs {M} _.
Arguments _l2world {M} _.
Arguments _l2cam {M} _.
Arguments BasicTransform__init__ {M} identity self uuid1 name type id trs.
Arguments BasicTransform_update {M} self kwargs.
Arguments mkCamera {M} _ _ _.
Arguments cam_base {M} _.
Arguments _projMat {M} _.
Arguments _root2cam {M} _.
Arguments Camera__init__ {M} identity ortho self uuid1 projMatrix name type id
  left right bottom top near far.
Arguments Camera_update {M} self kwargs.

(** ** Pose matrices

    A keyframe pose and the blended pose [MM] are arrays of 4x4 matrices,
    and the code reads and writes the slices [m[:3,:3]] and [m[:3,3]] of
    them; the shape is fixed, so a matrix is four rows of four entries. *)

Record vec3 := V3 { vx : Q; vy : Q; vz : Q }.
Record mat3 := M3 { m3r0 : vec3; m3r1 : vec3; m3r2 : vec3 }.
Record row4 := R4 { c0 : Q; c1 : Q; c2 : Q; c3 : Q }.
Record mat4 := M4 { w0 : row4; w1 : row4; w2 : row4; w3 : row4 }.

(** [np.eye(4)] *)
Definition eye4 : mat4 :=
M4 (R4 1 0 0 0) (R4 0 1 0 0) (R4 0 0 1 0) (R4 0 0 0 1).

(** [m[:3,3]] *)
Definition get_col3 (m : mat4) : vec3 :=
V3 (c3 (w0 m)) (c3 (w1 m)) (c3 (w2 m)).

(** [m[:3,:3]] *)
Definition get_rot (m : mat4) : mat3 :=
M3 (V3 (c0 (w0 m)) (c1 (w0 m)) (c2 (w0 m)))
   (V3 (c0 (w1 m)) (c1 (w1 m)) (c2 (w1 m)))
   (V3 (c0 (w2 m)) (c1 (w2 m)) (c2 (w2 m))).

Definition set_row_rot (r : row4) (v : vec3) : row4 :=
R4 (vx v) (vy v) (vz v) (c3 r).

(** [m[:3,:3] = r] *)
Definition set_rot (m : mat4) (r : mat3) : mat4 :=
M4 (set_row_rot (w0 m) (m3r0 r)) (set_row_rot (w1 m) (m3r1 r))
   (set_row_rot (w2 m) (m3r2 r)) (w3 m).

Definition set_row_c3 (r : row4) (x : Q) : row4 :=
R4 (c0 r) (c1 r) (c2 r) x.

(** [m[:3,3] = v] *)
Definition set_col3 (m : mat4) (v : vec3) : mat4 :=
M4 (set_row_c3 (w0 m) (vx v)) (set_row_c3 (w1 m) (vy v))
   (set_row_c3 (w2 m) (vz v)) (w3 m).

Definition flatten_row (r : row4) : list Q := [c0 r; c1 r; c2 r; c3 r].

(** one row of [np.array(MM).reshape((len(MM), 16))] *)
Definition flatten16 (m : mat4) : list Q :=
flatten_row (w0 m) ++ flatten_row (w1 m) ++ flatten_row (w2 m)
  ++ flatten_row (w3 m).

(** ** class RenderMesh

    A vertex-attribute array is a two dimensional numpy array: a list of
    rows. An index array is a list of integers. *)

Definition array := list (list Q).

Record RenderMesh := mkRenderMesh {
  rm_base : Component.t;
  _vertex_attributes : list array;
  _vertex_index : list (list Z)
}.

(** the property setter [vertex_attributes] *)
Definition vertex_attributes_setter (self : RenderMesh) (value : list array)
  : RenderMesh :=
{| rm_base := rm_base self; _vertex_attributes := value;
   _vertex_index := _vertex_index self |}.

(** the property setter [vertex_index] *)
Definition vertex_index_setter (self : RenderMesh) (value : list (list Z))
  : RenderMesh :=
{| rm_base := rm_base self; _vertex_attributes := _vertex_attributes self;
   _vertex_index := value |}.

(** Python truth value of an optional list argument: [None] and [[]] are
    false. *)
Definition py_truthy {A} (o : option (list A)) : bool :=
match o with
| None | Some [] => false
| Some (_ :: _) => true
end.

(** [RenderMesh.__init__(self, name=None, type=None, id=None,
    vertex_attributes=None, vertex_index=None)] *)
Definition RenderMesh__init__ (self : ref) (uuid1 : Z)
  (name type : option string) (id : option pyid)
  (vertex_attributes : option (list array))
  (vertex_index : option (list (list Z))) : RenderMesh :=
let base := Component.__init__ "RenderMesh" self uuid1 name type id in
{| rm_base := Component.set_parent base self;
   _vertex_attributes :=
     if negb (py_truthy vertex_attributes) then []
     else default [] vertex_attributes;
   _vertex_index :=
     if negb (py_truthy vertex_index) then []
     else default [] vertex_index |}.

(** [mesh.vertex_attributes.append(a)]: the way every caller attaches a
    vertex-attribute array (bezier_base.py 88-89, plotting_base.py 99-100,
    129-131); the list returned by the getter is extended in place, which
    leaves the mesh with the longer list. *)
Definition vertex_attributes_append (mesh : RenderMesh) (a : array)
  : RenderMesh :=
vertex_attributes_setter mesh (_vertex_attributes mesh ++ [a]).

(** [mesh.vertex_index.append(ix)] *)
Definition vertex_index_append (mesh : RenderMesh) (ix : list Z)
  : RenderMesh :=
vertex_index_setter mesh (_vertex_index mesh ++ [ix]).

(** The mesh invariant of the data model: all vertex-attribute arrays of a
    mesh have the same number of rows. *)
Definition same_row_count (attrs : list array) : bool :=
match attrs with
| [] => true
| a :: rest => forallb (λ b, Nat.eqb (length b) (length a)) rest
end.

(** ** class Keyframe *)

Record Keyframe := mkKeyframe {
  kf_base : Component.t;
  _array_MM : list (list mat4)
}.

(** the [array_MM] stored by [Keyframe.__init__]: [[]] when the argument
    is [None] or empty *)
Definition Keyframe_array_MM_arg (array_MM : option (list (list mat4)))
  : list (list mat4) :=
if negb (py_truthy array_MM) then [] else default [] array_MM.

(** [Keyframe.__init__(self, name=None, type=None, id=None, array_MM=None)] *)
Definition Keyframe__init__ (self : ref) (uuid1 : Z)
  (name type : option string) (id : option pyid)
  (array_MM : option (list (list mat4))) : Keyframe :=
let base := Component.__init__ "Keyframe" self uuid1 name type id in
{| kf_base := Component.set_parent base self;
   _array_MM := Keyframe_array_MM_arg array_MM |}.

(** the property [Keyframe.translate], as a function of [self.array_MM] *)
Definition Keyframe_translate (array_MM : list (list mat4)) : list vec3 :=
concat (map (λ poses, map get_col3 poses) array_MM).

(** ** class AnimationComponents *)

Record AnimationComponents := mkAnimationComponents {
  an_base : Component.t;
  alpha : Q;
  tempo : Z;
  time_add : Z;
  anition_start : bool;
  animKeys : Z;
  inter : string;
  time : list Z;
  flag : bool;
  MM : list mat4;
  _bones : list ref
}.

(** [AnimationComponents.__init__(self, name=None, type=None, id=None,
    bones=None, MM=None, alpha=0, tempo=2, time_add=0,
    animation_start=True, anim_keys=2, time=[0, 100, 200], flag=True,
    inter='SLERP')]; the argument [MM] is not used by the constructor. *)
Definition AnimationComponents__init__ (self : ref) (uuid1 : Z)
  (name type : option string) (id : option pyid)
  (bones : option (list ref)) (alpha0 : Q) (tempo0 time_add0 : Z)
  (animation_start : bool) (anim_keys : Z) (time0 : list Z) (flag0 : bool)
  (inter0 : string) : AnimationComponents :=
let base := Component.__init__ "AnimationComponents" self uuid1 name type id in
{| an_base := Component.set_parent base self;
   alpha := alpha0;
   tempo := tempo0;
   time_add := time_add0;
   anition_start := animation_start;
   animKeys := anim_keys;
   inter := inter0;
   time := time0;
   flag := flag0;
   MM := [];
   _bones := if negb (py_truthy bones) then [] else default [] bones |}.

(** the constructor with every argument at its default *)
Definition AnimationComponents_default (self : ref) (uuid1 : Z)
  : AnimationComponents :=
AnimationComponents__init__ self uuid1 None None None None 0%Q 2 0 true 2
  [0; 100; 200] true "SLERP".

Definition set_MM (s : AnimationComponents) (mm : list mat4)
  : AnimationComponents :=
{| an_base := an_base s; alpha := alpha s; tempo := tempo s;
   time_add := time_add s; anition_start := anition_start s;
   animKeys := animKeys s; inter := inter s; time := time s;
   flag := flag s; MM := mm; _bones := _bones s |}.

Definition set_flag (s : AnimationComponents) (b : bool)
  : AnimationComponents :=
{| an_base := an_base s; alpha := alpha s; tempo := tempo s;
   time_add := time_add s; anition_start := anition_start s;
   animKeys := animKeys s; inter := inter s; time := time s;
   flag := b; MM := MM s; _bones := _bones s |}.

Definition set_alpha (s : AnimationComponents) (a : Q)
  : AnimationComponents :=
{| an_base := an_base s; alpha := a; tempo := tempo s;
   time_add := time_add s; anition_start := anition_start s;
   animKeys := animKeys s; inter := inter s; time := time s;
   flag := flag s; MM := MM s; _bones := _bones s |}.

Definition set_time_add (s : AnimationComponents) (t : Z)
  : AnimationComponents :=
{| an_base := an_base s; alpha := alpha s; tempo := tempo s;
   time_add := t; anition_start := anition_start s;
   animKeys := animKeys s; inter := inter s; time := time s;
   flag := flag s; MM := MM s; _bones := _bones s |}.

(** [(self.time_add - t0) / abs(t1 - t0)] on Python ints: true division,
    which raises [ZeroDivisionError] when the divisor is zero. *)
Definition blend_factor (time_add0 t0 t1 : Z) : result Q :=
if Z.eqb (Z.abs (t1 - t0)) 0 then Raise ZeroDivisionError
else Ok (inject_Z (time_add0 - t0) / inject_Z (Z.abs (t1 - t0)))%Q.

(** [AnimationComponents.lerp(self, a, b, t)] on a numpy vector of three
    entries: [(1 - t) * a + t * b], entry by entry. *)
Definition lerp (a b : vec3) (t : Q) : vec3 :=
V3 ((1 - t) * vx a + t * vx b)%Q
   ((1 - t) * vy a + t * vy b)%Q
   ((1 - t) * vz a + t * vz b)%Q.

(** The first test of [animation_loop] (line 691-694): the new direction
    flag. *)
Definition update_flag (self : AnimationComponents) (key3_is_None : bool)
  : result AnimationComponents :=
c1 ←← py_and (t1 ←← py_index (time self) 1; Ok (Z.leb t1 (time_add self)))
            (Ok key3_is_None);
c ←← (if c1 then Ok true
      else t2 ←← py_index (time self) 2; Ok (Z.leb t2 (time_add self)));
if c then Ok (set_flag self false)
else
  t0 ←← py_index (time self) 0;
  if Z.leb (time_add self) t0 then Ok (set_flag self true) else Ok self.

(** The segment test of [animation_loop] (lines 697-700): which pair of
    keyframes and which time boundaries [animation_for_loop] is called
    with, if it is called. *)
Definition select_segment {K} (self : AnimationComponents)
  (key1 key2 : K) (key3 : option K) : result (option (K * K * Z * Z)) :=
c1 ←← py_and (t0 ←← py_index (time self) 0; Ok (Z.leb t0 (time_add self)))
            (t1 ←← py_index (time self) 1; Ok (Z.leb (time_add self) t1));
if c1 then
  t0 ←← py_index (time self) 0;
  t1 ←← py_index (time self) 1;
  Ok (Some (key1, key2, t0, t1))
else
  c2 ←← py_and (t1 ←← py_index (time self) 1; Ok (Z.ltb t1 (time_add self)))
         (py_and (t2 ←← py_index (time self) 2;
                  Ok (Z.leb (time_add self) t2))
                 (Ok (bool_decide (is_Some key3))));
  if c2 then
    t1 ←← py_index (time self) 1;
    t2 ←← py_index (time self) 2;
    Ok (match key3 with
        | Some k3 => Some (key2, k3, t1, t2)
        | None => None
        end)
  else Ok None.

(** The last test of [animation_loop] (lines 704-713): advance the
    accumulator. *)
Definition advance (self : AnimationComponents) : AnimationComponents :=
if flag self then
  if anition_start self then set_time_add self (time_add self + tempo self)
  else set_time_add self (time_add self)
else
  if anition_start self then set_time_add self (time_add self - tempo self)
  else set_time_add self (time_add self).

(** The quaternion module [Elements.pyECSS.GA.quaternion] is not part of
    the sources embedded here; its four functions used by the animation
    code are the interface [QuaternionModule]. *)

Class QuaternionModule := {
  quaternion : Type;
  from_rotation_matrix : mat4 → quaternion;
  to_rotation_matrix : quaternion → mat3;
  quaternion_lerp : quaternion → quaternion → Q → quaternion;
  quaternion_slerp : quaternion → quaternion → Q → quaternion
}.

Section Animation.

Context `{QuaternionModule}.

(** the property [Keyframe.rotate], as a function of [self.array_MM] *)
Definition Keyframe_rotate (array_MM : list (list mat4)) : list quaternion :=
concat (map (λ poses, map from_rotation_matrix poses) array_MM).

(** One iteration of the loop of [animation_for_loop]: bone [i]. *)
Definition animation_for_loop_body (self : AnimationComponents)
  (keyframe1 keyframe2 : list (list mat4)) (i : nat)
  : result AnimationComponents :=
q1 ←← py_index (Keyframe_rotate keyframe1) i;
q2 ←← py_index (Keyframe_rotate keyframe2) i;
let r :=
  if String.eqb (inter self) "LERP"
  then to_rotation_matrix (quaternion_lerp q1 q2 (alpha self))
  else to_rotation_matrix (quaternion_slerp q1 q2 (alpha self)) in
m ←← py_index (MM self) i;
let self1 := set_MM self (<[i := set_rot m r]> (MM self)) in
a ←← py_index (Keyframe_translate keyframe1) i;
b ←← py_index (Keyframe_translate keyframe2) i;
m' ←← py_index (MM self1) i;
Ok (set_MM self1 (<[i := set_col3 m' (lerp a b (alpha self1))]> (MM self1))).

(** [for i in range(n): body] *)
Fixpoint for_range (body : AnimationComponents → nat → result AnimationComponents)
  (idx : list nat) (self : AnimationComponents) : result AnimationComponents :=
match idx with
| [] => Ok self
| i :: rest => self' ←← body self i; for_range body rest self'
end.

(** [AnimationComponents.animation_for_loop(self, k_1, k_2, t0, t1)] *)
Definition animation_for_loop (self : AnimationComponents)
  (k_1 k_2 : list mat4) (t0 t1 : Z) : result AnimationComponents :=
a ←← blend_factor (time_add self) t0 t1;
let self1 := set_alpha self a in
let keyframe1 := Keyframe_array_MM_arg (Some [k_1]) in
let keyframe2 := Keyframe_array_MM_arg (Some [k_2]) in
for_range (λ s i, animation_for_loop_body s keyframe1 keyframe2 i)
  (seq 0 (length k_1)) self1.

(** [AnimationComponents.animation_loop(self, key1, key2, key3=None)]; the
    result is the new state of [self] and the returned array [MM1Data]. *)
Definition animation_loop (self : AnimationComponents)
  (key1 key2 : list mat4) (key3 : option (list mat4))
  : result (AnimationComponents * list (list Q)) :=
let self1 := set_MM self (map (λ _, eye4) key1) in
self2 ←← update_flag self1 (bool_decide (key3 = None));
seg ←← select_segment self2 key1 key2 key3;
self3 ←← match seg with
         | Some (ka, kb, t0, t1) => animation_for_loop self2 ka kb t0 t1
         | None => Ok self2
         end;
let self4 := advance self3 in
Ok (self4, map flatten16 (MM self4)).

(** [n] calls of [animation_loop], one per frame. *)
Fixpoint ticks (n : nat) (self : AnimationComponents)
  (key1 key2 : list mat4) (key3 : option (list mat4))
  : result AnimationComponents :=
match n with
| O => Ok self
| S n' =>
    r ←← animation_loop self key1 key2 key3;
    ticks n' (fst r) key1 key2 key3
end.

End Animation.

(** ** class ComponentDecorator / BasicTransformDecorator *)

Record ComponentDecorator := mkComponentDecorator {
  cd_base : Component.t;
  _component : ref
}.

(** [ComponentDecorator.__init__(self, comp, name=None, type=None, id=None)],
    inherited by [BasicTransformDecorator] *)
Definition BasicTransformDecorator__init__ (self : ref) (uuid1 : Z)
  (comp : ref) (name type : option string) (id : option pyid)
  : ComponentDecorator :=
{| cd_base := Component.__init__ "BasicTransformDecorator" self uuid1
                name type id;
   _component := comp |}.

(** ** The object heap

    Components are objects with identity; the heap maps a reference to the
    object it points to. *)

Inductive object (M : Type) :=
| OBasicTransform (bt : BasicTransform M)
| OCamera (c : Camera M)
| ORenderMesh (m : RenderMesh)
| OKeyframe (k : Keyframe)
| OAnimationComponents (a : AnimationComponents)
| OBasicTransformDecorator (d : ComponentDecorator).
Arguments OBasicTransform {M} bt.
Arguments OCamera {M} c.
Arguments ORenderMesh {M} m.
Arguments OKeyframe {M} k.
Arguments OAnimationComponents {M} a.
Arguments OBasicTransformDecorator {M} d.

Definition base_of {M} (o : object M) : Component.t :=
match o with
| OBasicTransform bt => bt_base bt
| OCamera c => cam_base c
| ORenderMesh m => rm_base m
| OKeyframe k => kf_base k
| OAnimationComponents a => an_base a
| OBasicTransformDecorator d => cd_base d
end.

(** the property [parent] *)
Definition parent {M} (o : object M) : ref := Component._parent (base_of o).

(** A constructor call: the class and the arguments. *)
Inductive constructor_call (M : Type) :=
| NewBasicTransform (name type : option string) (id : option pyid)
    (trs : option M)
| NewCamera (projMatrix : option M) (name type : option string)
    (id : option pyid) (left right bottom top near far : Q)
| NewRenderMesh (name type : option string) (id : option pyid)
    (vertex_attributes : option (list array))
    (vertex_index : option (list (list Z)))
| NewKeyframe (name type : option string) (id : option pyid)
    (array_MM : option (list (list mat4)))
| NewAnimationComponents (name type : option string) (id : option pyid)
    (bones : option (list ref)) (alpha0 : Q) (tempo0 time_add0 : Z)
    (animation_start : bool) (anim_keys : Z) (time0 : list Z) (flag0 : bool)
    (inter0 : string)
| NewBasicTransformDecorator (comp : ref) (name type : option string)
    (id : option pyid).
Arguments NewBasicTransform {M} name type id trs.
Arguments NewCamera {M} projMatrix name type id left right bottom top near far.
Arguments NewRenderMesh {M} name type id vertex_attributes vertex_index.
Arguments NewKeyframe {M} name type id array_MM.
Arguments NewAnimationComponents {M} name type id bones alpha0 tempo0
  time_add0 animation_start anim_keys time0 flag0 inter0.
Arguments NewBasicTransformDecorator {M} comp name type id.

(** Running [__init__] of the class on the fresh object [self]. *)
Definition construct {M} (identity : M) (ortho : Q → Q → Q → Q → Q → Q → M)
  (self : ref) (uuid1 : Z) (call : constructor_call M) : object M :=
match call with
| NewBasicTransform name type id trs =>
    OBasicTransform (BasicTransform__init__ identity self uuid1 name type id trs)
| NewCamera projMatrix name type id l r b t n f =>
    OCamera (Camera__init__ identity ortho self uuid1 projMatrix name type id
               l r b t n f)
| NewRenderMesh name type id va vi =>
    ORenderMesh (RenderMesh__init__ self uuid1 name type id va vi)
| NewKeyframe name type id mm =>
    OKeyframe (Keyframe__init__ self uuid1 name type id mm)
| NewAnimationComponents name type id bones a0 tp ta st ak tm fl it =>
    OAnimationComponents
      (AnimationComponents__init__ self uuid1 name type id bones a0 tp ta st
         ak tm fl it)
| NewBasicTransformDecorator comp name type id =>
    OBasicTransformDecorator
      (BasicTransformDecorator__init__ self uuid1 comp name type id)
end.

(** [Class(args)]: allocate an object at an unused reference, run
    [__init__] on it. *)
Definition new {M} (identity : M) (ortho : Q → Q → Q → Q → Q → Q → M)
  (h : gmap nat (object M)) (uuid1 : Z) (call : constructor_call M)
  : nat * gmap nat (object M) :=
let self := fresh (dom h) in
(self, <[self := construct identity ortho self uuid1 call]> h).

(** ** accept: the visitor dispatch

    A system is any Python object; [system.m(self)] looks the attribute [m]
    up on it and calls it. A system is modelled by its method table and a
    state of its own; a method receives the visited component and the
    system state and may change both or raise. *)

Abbreviation handler M S := (object M → S → result (object M * S)).

(** [system.name(self)] *)
Definition call_method {M S} (system : gmap string (handler M S))
  (name : string) (self : object M) (st : S) : result (object M * S) :=
match system !! name with
| Some h => h self st
| None => Raise (AttributeError name)
end.

(** a method whose body is [pass] *)
Definition pass_handler {M S} : handler M S := λ self st, Ok (self, st).

(** The methods [accept] of a component of each class calls on the system,
    in order ([BasicTransform.accept], [Camera.accept], [RenderMesh.accept];
    the body of the other three is [pass]). *)
Definition handlers_called {M} (self : object M) : list string :=
match self with
| OBasicTransform _ =>
    ["apply2GATransform"; "apply2BasicTransform"; "applyCamera2BasicTransform"]
| OCamera _ => ["apply2Camera"]
| ORenderMesh _ => ["apply2RenderMesh"]
| OKeyframe _ | OAnimationComponents _ | OBasicTransformDecorator _ => []
end.

(** [self.accept(system)] *)
Definition accept {M S} (self : object M) (system : gmap string (handler M S))
  (st : S) : result (object M * S) :=
match self with
| OBasicTransform _ =>
    r1 ←← call_method system "apply2GATransform" self st;
    r2 ←← call_method system "apply2BasicTransform" (fst r1) (snd r1);
    call_method system "applyCamera2BasicTransform" (fst r2) (snd r2)
| OCamera _ => call_method system "apply2Camera" self st
| ORenderMesh _ => call_method system "apply2RenderMesh" self st
| OKeyframe _ => Ok (self, st)
| OAnimationComponents _ => Ok (self, st)
| OBasicTransformDecorator _ => Ok (self, st)
end.

(** ** Entities and the scenegraph *)

(** Modelled from the spec: the class [Entity] ([Elements/pyECSS/Entity.py]
    is not part of the sources embedded here). By the data model (3) an
    entity has an identity and owns an ordered list of child entities, a
    child has exactly one parent and the tree is acyclic: an entity is a
    node of a tree, and the parent back-reference is the tree structure
    itself. *)
Inductive Entity := mkEntity { eid : nat; children : list Entity }.

(** Modelled from the spec: [createEntity]: a fresh entity, no parent and
    no children yet. *)
Definition createEntity (id : nat) : Entity := mkEntity id [].

(** the identities of an entity and of all its descendants, in pre-order *)
Fixpoint entity_ids (e : Entity) : list nat :=
match e with
| mkEntity i cs => i :: flat_map entity_ids cs
end.

(** Modelled from the spec: [getChild(parent, index)], 1-based, [None]
    out of range. *)
Definition getChild (parent0 : Entity) (index : nat) : option Entity :=
match index with
| O => None
| S i => children parent0 !! i
end.

(** Modelled from the spec: detaching one child from the ordered child
    list: the first element that is the entity [child] (entities are
    compared by identity) is removed, the others stay in order. *)
Fixpoint remove_first (child : nat) (l : list Entity) : list Entity :=
match l with
| [] => []
| c :: rest => if Nat.eqb (eid c) child then rest
               else c :: remove_first child rest
end.

(** Modelled from the spec: [remove(parent, child)] detaches the child and
    keeps its subtree intact. *)
Definition remove (parent0 child : Entity) : Entity :=
mkEntity (eid parent0) (remove_first (eid child) (children parent0)).

(** Modelled from the spec: [addChild(parent, child)]. *)
Definition addChild (parent0 child : Entity) : result Entity :=
if bool_decide (eid parent0 ∈ entity_ids child) then Raise InvalidOperation
else Ok (mkEntity (eid parent0) (children parent0 ++ [child])).

(** Modelled from the spec: [addChild] for the entities of a list, one
    after the other. *)
Fixpoint addChildren (parent0 : Entity) (cs : list Entity) : result Entity :=
match cs with
| [] => Ok parent0
| c :: rest => p ←← addChild parent0 c; addChildren p rest
end.

Definition inspect {A} (a : A) : {b : A | a = b} := exist _ a eq_refl.

(** [remove_entity_children(entity)] (bezier_base.py 205-212, and the same
    function in plotting_base.py and planefitting_base.py):
    [while entity.getChild(1) is not None: entity.remove(entity.getChild(1))].
    Nothing changes the entity between the test and the second call of
    [getChild(1)], which therefore returns the same child. *)
Equations? remove_entity_children (entity : Entity) : Entity
  by wf (length (children entity)) lt :=
remove_entity_children entity with inspect (getChild entity 1) := {
  | exist _ (Some child) _ => remove_entity_children (remove entity child)
  | exist _ None _ => entity }.
Proof.
  destruct entity as [i [|c cs]]; simpl in *; [discriminate|].
  match goal with H : Some _ = Some _ |- _ => inversion H; subst end.
  rewrite Nat.eqb_refl. lia.
Qed.

(** The same loop with a bound on the number of iterations: [None] when the
    bound is reached before [getChild(1)] returns [None]. *)
Fixpoint remove_entity_children_fuel (fuel : nat) (entity : Entity)
  : option Entity :=
match fuel with
| O => None
| S fuel' =>
    match getChild entity 1 with
    | Some child => remove_entity_children_fuel fuel' (remove entity child)
    | None => Some entity
    end
end.

(** ** Transform propagation

    The traversal and the transform system ([Elements/pyECSS/System.py],
    the world manager) are not part of the sources embedded here. By 4.3 of
    the spec the traversal is pre-order with the children in attachment
    order, and at each visited entity the Transform component gets as
    local-to-world the product of the parent's already computed
    local-to-world and its own TRS, the root (no parent transform) its own
    TRS. The Transform component of entity [i] is [store !! i]: the store
    is shared by the whole traversal, and the system reads the parent's
    entry from it and writes the result with
    [BasicTransform.update(l2world=...)]. *)

Section TransformSystem.

Variable M : Type.
Variable matmul : M → M → M.

(** Modelled from the spec: the transform system ([System.py]) visiting
    the Transform component of the entity [i] whose parent is [parent0]; an
    entity without a Transform is left alone, and one whose parent has no
    Transform is treated as the root is. *)
Definition apply2BasicTransform (parent0 : option nat) (i : nat)
  (store : gmap nat (BasicTransform M)) : gmap nat (BasicTransform M) :=
match store !! i with
| None => store
| Some bt =>
    let l2world :=
      match parent0 ≫= (λ p, store !! p) with
      | Some pbt => matmul (_l2world pbt) (_trs bt)
      | None => _trs bt
      end in
    <[i := BasicTransform_update bt {["l2world" := l2world]}]> store
end.

(** Modelled from the spec: [traverse_visit(system, root)] of the world
    manager, for the transform system: the entity first, then its children
    in attachment order. *)
Fixpoint traverse_visit (parent0 : option nat) (e : Entity)
  (store : gmap nat (BasicTransform M)) : gmap nat (BasicTransform M) :=
match e with
| mkEntity i cs =>
    fold_left (λ acc c, traverse_visit (Some i) c acc) cs
      (apply2BasicTransform parent0 i store)
end.

End TransformSystem.

Arguments apply2BasicTransform {M} matmul parent0 i store.
Arguments traverse_visit {M} matmul parent0 e store.

(** the parent-child pairs of a tree *)
Fixpoint edges (e : Entity) : list (nat * nat) :=
match e with
| mkEntity i cs => map (λ c, (i, eid c)) cs ++ flat_map edges cs
end.

(** The pair parent [p], child [c] is composed in a store: if both carry a
    Transform, the local-to-world of the child is the product of the
    local-to-world of the parent and the TRS of the child. *)
Definition composed {M} (matmul : M → M → M)
  (store : gmap nat (BasicTransform M)) (p c : nat) : Prop :=
∀ btp btc, store !! p = Some btp → store !! c = Some btc →
           _l2world btc = matmul (_l2world btp) (_trs btc).

(** ** 2D function plotting (plotting_base.py)

    [np.linspace(start, stop, num)]: [num] evenly spaced samples from
    [start] to [stop], both included, computed here on exact rationals. *)
Definition linspace (start stop : Q) (num : nat) : list Q :=
map (λ i, start + inject_Z (Z.of_nat i)
                  * ((stop - start) / inject_Z (Z.of_nat num - 1)))%Q
    (seq 0 num).

(** [eval_f_x(function, x)] on the array [x]: the expression typed by the
    user is evaluated on the whole array, entry by entry; [f_x] is the
    function the expression denotes. (An expression that does not mention
    [x] evaluates to a scalar instead of an array; the model does not cover
    such expressions.) *)
Definition eval_f_x (f_x : Q → Q) (x : list Q) : list Q := map f_x x.

(** the body of the loop of [generate_plot2d_data] *)
Definition plot2d_segment (x y : list Q) (i : nat) : result array :=
xi ←← py_index x i;
yi ←← py_index y i;
let point1 := [xi; yi; 0%Q; 1%Q] in
xj ←← py_index x (i + 1);
yj ←← py_index y (i + 1);
let point2 := [xj; yj; 0%Q; 1%Q] in
Ok [point1; point2].

(** [for i in range(0, len(x)-2): plotting_vertices = np.append(...)] *)
Fixpoint plot2d_loop (x y : list Q) (idx : list nat) (plotting_vertices : array)
  : result array :=
match idx with
| [] => Ok plotting_vertices
| i :: rest =>
    seg ←← plot2d_segment x y i;
    plot2d_loop x y rest (plotting_vertices ++ seg)
end.

(** [generate_plot2d_data(plot_boundaries, func_detail, f_x)]; the result
    is [(plotting_vertices, plotting_colors, plotting_indices)]. *)
Definition generate_plot2d_data (plot_boundaries : Q * Q * Q * Q)
  (func_detail : nat) (f_x : Q → Q) : result (array * array * list Z) :=
let '(b0, b1, _, _) := plot_boundaries in
let x := linspace b0 b1 func_detail in
let y := eval_f_x f_x x in
plotting_vertices ←← plot2d_loop x y (seq 0 (length x - 2)) [];
let plotting_colors :=
  repeat [(5 # 10)%Q; 0%Q; 1%Q; 1%Q] (length plotting_vertices) in
let plotting_indices :=
  map Z.of_nat (seq 0 (length plotting_vertices)) in
Ok (plotting_vertices, plotting_colors, plotting_indices).

(** the vertex of sample [i] *)
Definition plot2d_point (plot_boundaries : Q * Q * Q * Q) (func_detail : nat)
  (f_x : Q → Q) (i : nat) : list Q :=
let '(b0, b1, _, _) := plot_boundaries in
let xi := (b0 + inject_Z (Z.of_nat i)
                * ((b1 - b0) / inject_Z (Z.of_nat func_detail - 1)))%Q in
[xi; f_x xi; 0%Q; 1%Q].

(** ** Concrete data for the examples *)

(** 4x4 integer matrices as lists of rows, [util.identity()],
    [util.translate(x, y, z)] and the matrix product [@]. *)
Definition zmat := list (list Z).

Definition zidentity : zmat :=
[[1; 0; 0; 0]; [0; 1; 0; 0]; [0; 0; 1; 0]; [0; 0; 0; 1]].

Definition ztranslate (x y z : Z) : zmat :=
[[1; 0; 0; x]; [0; 1; 0; y]; [0; 0; 1; z]; [0; 0; 0; 1]].

Definition zdot (r c : list Z) : Z :=
fold_right Z.add 0 (zip_with Z.mul r c).

Definition zcolumn (b : zmat) (j : nat) : list Z :=
map (λ r, nth j r 0) b.

Definition zmatmul (a b : zmat) : zmat :=
map (λ r, map (λ j, zdot r (zcolumn b j)) (seq 0 4)) a.

Definition zortho (l r b t n f : Q) : zmat := zidentity.

(** The scene of the spec's end-to-end example (8): root R (entity 0)
    without a Transform; child A (entity 1) with TRS translate(0,0,-8);
    child B of A (entity 2) with the identity TRS. *)
Definition example_tree : Entity :=
mkEntity 0 [mkEntity 1 [mkEntity 2 []]].

Definition example_store : gmap nat (BasicTransform zmat) :=
<[1%nat := BasicTransform__init__ zidentity 11 101 (Some "Entity1_TRS") None
             None (Some (ztranslate 0 0 (-8)))]>
(<[2%nat := BasicTransform__init__ zidentity 12 102 (Some "Camera_TRS") None
             None (Some zidentity)]> ∅).

(** a system object without any method *)
Definition empty_system : gmap string (handler zmat unit) := ∅.

(** the base [System]: every handler is present and does nothing *)
Definition base_system : gmap string (handler zmat unit) :=
list_to_map
  (map (λ n, (n, pass_handler))
     ["apply2GATransform"; "apply2BasicTransform";
      "applyCamera2BasicTransform"; "apply2Camera"; "apply2RenderMesh"]).

Definition example_camera : Camera zmat :=
Camera__init__ zidentity zortho 7 107 None (Some "orthoCam") (Some "Camera")
  (Some (IdStr "500")) (-100) 100 (-100) 100 1 100.

Definition example_mesh : RenderMesh :=
RenderMesh__init__ 5 105 (Some "bezier_mesh") None None None None.

(** two vertex rows, but a single color row *)
Definition two_vertices : array := [[0; 0; 0; 1]; [1; 1; 0; 1]]%Q.
Definition one_color : array := [[(5 # 10); 0; 1; 1]]%Q.

(** an animation state whose first two time boundaries coincide *)
Definition degenerate_animation : AnimationComponents :=
AnimationComponents__init__ 9 109 None None None None 0%Q 2 5 true 2
  [5; 5; 9] true "SLERP".

(** a stand-in for the quaternion module, for running the animation loop
    on concrete data: the "quaternion" of a pose is the pose itself and the
    interpolations return their first argument *)
Definition stub_quaternion : QuaternionModule :=
{| quaternion := mat4;
   from_rotation_matrix := λ m, m;
   to_rotation_matrix := get_rot;
   quaternion_lerp := λ a b t, a;
   quaternion_slerp := λ a b t, a |}.

(** The accumulator and the direction flag after one call of
    [animation_loop] without a third keyframe and with the animation
    started, as a function of their values before the call; [b0] and [b1]
    are the first two time boundaries. *)
Definition ping_pong_step (b0 b1 tempo0 : Z) (c : Z * bool) : Z * bool :=
let flag' :=
  if Z.leb b1 (fst c) then false
  else if Z.leb (fst c) b0 then true else snd c in
(if flag' then fst c + tempo0 else fst c - tempo0, flag').

Fixpoint ping_pong (b0 b1 tempo0 : Z) (n : nat) (c : Z * bool) : Z * bool :=
match n with
| O => c
| S n' => ping_pong b0 b1 tempo0 n' (ping_pong_step b0 b1 tempo0 c)
end.

(** ** More of Component.py *)

(** [Component.getNumberOfChildren(self)]: [len(self._children)]; [None]
    stands for the [TypeError] that [len(None)] raises. *)
Definition getNumberOfChildren {M} (self : object M) : option nat :=
length <$> Component._children (base_of self).

(** ** Line strips and coordinate formats (bezier_base.py) *)

(** [l[-1]] *)
Definition py_last {A} (l : list A) : result A :=
match last l with
| Some a => Ok a
| None => Raise IndexError
end.

(** [vertices_to_line_vertices(coordinates)]; [coordinates[1:-1]] is the
    list without its first and its last element. *)
Definition vertices_to_line_vertices {A} (coordinates : list A)
  : result (list A) :=
c0 ←← py_index coordinates 0;
let vertices :=
  fold_left (λ vs coord, vs ++ [coord; coord])
    (take (length coordinates - 2) (drop 1 coordinates)) [c0] in
cl ←← py_last coordinates;
Ok (vertices ++ [cl]).

(** [[coord[k] for coord in coordinates]] *)
Fixpoint coordinate_column (k : nat) (coordinates : list (list Q))
  : result (list Q) :=
match coordinates with
| [] => Ok []
| coord :: rest =>
    v ←← py_index coord k;
    vs ←← coordinate_column k rest;
    Ok (v :: vs)
end.

(** [separate_coordinates(coordinates)] *)
Definition separate_coordinates (coordinates : list (list Q))
  : result (list (list Q)) :=
x_coordinates ←← coordinate_column 0 coordinates;
y_coordinates ←← coordinate_column 1 coordinates;
z_coordinates ←← coordinate_column 2 coordinates;
Ok [x_coordinates; y_coordinates; z_coordinates].

(** [zip(a, b, c)]: as long as the shortest of the three *)
Fixpoint zip3 {A} (a b c : list A) : list (A * A * A) :=
match a, b, c with
| x :: a', y :: b', z :: c' => (x, y, z) :: zip3 a' b' c'
| _, _, _ => []
end.

(** [combine_coordinates(coordinates)] *)
Definition combine_coordinates (coordinates : list (list Q))
  : result (list (list Q)) :=
r0 ←← py_index coordinates 0;
r1 ←← py_index coordinates 1;
r2 ←← py_index coordinates 2;
Ok (map (λ coord, [coord.1.1; coord.1.2; coord.2]) (zip3 r0 r1 r2)).

(** [xyz_to_vertices(coords)] (bezier_base.py and planefitting_base.py) *)
Definition xyz_to_vertices (coords : list (list Q)) : list (list Q) :=
map (λ coord, coord ++ [1%Q]) coords.

(** [[row] * n] as a float array and [range(n)] as an index array *)
Definition constant_colors (row : list Q) (n : nat) : array := repeat row n.
Definition index_range (n : nat) : list Z := map Z.of_nat (seq 0 n).

(** The four lines every feature repeats to fill a mesh:
    [mesh = RenderMesh(name=...)],
    [mesh.vertex_attributes.append(vertices)],
    [mesh.vertex_attributes.append(colors)],
    [mesh.vertex_index.append(indices)]; ([addComponent] returns the
    component it is given). *)
Definition fill_mesh (self : ref) (uuid1 : Z) (name : string)
  (vertices colors : array) (indices : list Z) : RenderMesh :=
let mesh := RenderMesh__init__ self uuid1 (Some name) None None None None in
let mesh := vertex_attributes_append mesh vertices in
let mesh := vertex_attributes_append mesh colors in
vertex_index_append mesh indices.

(** The second half of the mesh invariant of the data model: every index
    refers to a row of the first vertex-attribute array. *)
Definition indices_in_range (mesh : RenderMesh) : bool :=
let rows := match _vertex_attributes mesh with
            | a :: _ => length a
            | [] => O
            end in
forallb (λ ix, forallb (λ i, Z.leb 0 i && Z.ltb i (Z.of_nat rows)) ix)
  (_vertex_index mesh).

Section Bezier.

(** [bezier.Curve.from_nodes(nodes).evaluate_multi(s_vals)] of the
    [bezier] package: the points of the curve at the parameters [s_vals],
    one row per coordinate. *)
Variable evaluate_multi : list (list Q) → list Q → list (list Q).

(** [generate_bezier_data(bezier_control_nodes, num_points)] *)
Definition generate_bezier_data (bezier_control_nodes : list (list Q))
  (num_points : nat) : result (array * array * list Z) :=
nodes ←← separate_coordinates bezier_control_nodes;
let x_values := linspace 0 1 num_points in
let bezier_points := evaluate_multi nodes x_values in
bezier_points_xyz ←← combine_coordinates bezier_points;
bezier_vertices ←← vertices_to_line_vertices (xyz_to_vertices bezier_points_xyz);
let bezier_colors :=
  constant_colors [(5 # 10)%Q; 0%Q; 1%Q; 1%Q] (length bezier_vertices) in
let bezier_indices := index_range (length bezier_vertices) in
Ok (bezier_vertices, bezier_colors, bezier_indices).

(** The two meshes [BezierCurve.render_curve] builds (lines 79-112): the
    curve and the control nodes. *)
Definition render_curve_meshes (self1 self2 : ref) (uuid1 uuid2 : Z)
  (bezier_control_nodes : list (list Q)) (render_detail : nat)
  : result (RenderMesh * RenderMesh) :=
data ←← generate_bezier_data bezier_control_nodes render_detail;
let bezier_mesh :=
  fill_mesh self1 uuid1 "bezier_mesh" data.1.1 data.1.2 data.2 in
let control_nodes_vertices := xyz_to_vertices bezier_control_nodes in
let control_nodes_colors :=
  constant_colors [(5 # 10)%Q; (5 # 10)%Q; 1%Q; 1%Q]
    (length control_nodes_vertices) in
let control_nodes_indices := index_range (length control_nodes_vertices) in
let control_nodes_mesh :=
  fill_mesh self2 uuid2 "control_nodes_mesh" control_nodes_vertices
    control_nodes_colors control_nodes_indices in
Ok (bezier_mesh, control_nodes_mesh).

End Bezier.

(** ** Exceptions of numpy, of [eval] and of skspatial

    The feature code calls [np.linspace] and [Plane.best_fit], which raise
    [ValueError], and it indexes the value of the expression typed by the
    user, which raises [TypeError] when that value is a Python number.
    [outcome] is [result] with these exceptions beside those of [exn]. *)

Inductive raised := Exn (e : exn) | ValueError | TypeError.

Inductive outcome (A : Type) := Returns (a : A) | Raises (r : raised).
Arguments Returns {A} a.
Arguments Raises {A} r.

Definition obind {A B} (o : outcome A) (k : A → outcome B) : outcome B :=
match o with
| Returns a => k a
| Raises r => Raises r
end.

Notation "x ⇐ o ; k" := (obind o (fun x => k))
(at level 100, o at next level, right associativity, only parsing).

(** a computation that raises nothing but the exceptions of [exn] *)
Definition lift {A} (r : result A) : outcome A :=
match r with
| Ok a => Returns a
| Raise e => Raises (Exn e)
end.

(** [np.linspace(start, stop, num)] for an integer [num]: numpy raises
    [ValueError] (number of samples must be non-negative) when [num] is
    negative. *)
Definition np_linspace (start stop : Q) (num : Z) : outcome (list Q) :=
if Z.ltb num 0 then Raises ValueError
else Returns (linspace start stop (Z.to_nat num)).

(** ** 2D function plotting with its exceptions (plotting_base.py)

    What [eval(function, d)] returns in [eval_f_x]: an array when the
    expression is computed from the array [x]; a number when it does not
    mention [x]: a Python number (a literal, [pi], [e]) or a numpy number
    ([sin(1)]). *)
Inductive pyvalue :=
| NdArray (a : list Q)
| PyNumber (c : Q)
| NpNumber (c : Q).

(** [y[i]]: a Python number is not subscriptable ([TypeError]), a numpy
    number has no index ([IndexError]). *)
Definition subscript (y : pyvalue) (i : nat) : outcome Q :=
match y with
| NdArray a => lift (py_index a i)
| PyNumber _ => Raises TypeError
| NpNumber _ => Raises (Exn IndexError)
end.

(** the body of the loop of [generate_plot2d_data], [y] being the value of
    the expression *)
Definition plot2d_segment_exn (x : list Q) (y : pyvalue) (i : nat)
  : outcome array :=
xi ⇐ lift (py_index x i);
yi ⇐ subscript y i;
let point1 := [xi; yi; 0%Q; 1%Q] in
xj ⇐ lift (py_index x (i + 1));
yj ⇐ subscript y (i + 1);
let point2 := [xj; yj; 0%Q; 1%Q] in
Returns [point1; point2].

(** [for i in range(0, len(x)-2): plotting_vertices = np.append(...)] *)
Fixpoint plot2d_loop_exn (x : list Q) (y : pyvalue) (idx : list nat)
  (plotting_vertices : array) : outcome array :=
match idx with
| [] => Returns plotting_vertices
| i :: rest =>
    seg ⇐ plot2d_segment_exn x y i;
    plot2d_loop_exn x y rest (plotting_vertices ++ seg)
end.

(** [generate_plot2d_data(plot_boundaries, func_detail, f_x)] for an
    integer [func_detail] of either sign and an expression of either kind;
    [f_x] gives the value of the expression as a function of the array
    [x]. (An expression that [eval] itself rejects, a syntax error or an
    unknown name, is not covered.) *)
Definition generate_plot2d_data_exn (plot_boundaries : Q * Q * Q * Q)
  (func_detail : Z) (f_x : list Q → pyvalue)
  : outcome (array * array * list Z) :=
let '(b0, b1, _, _) := plot_boundaries in
x ⇐ np_linspace b0 b1 func_detail;
let y := f_x x in
plotting_vertices ⇐ plot2d_loop_exn x y (seq 0 (length x - 2)) [];
let plotting_colors :=
  constant_colors [(5 # 10)%Q; 0%Q; 1%Q; 1%Q] (length plotting_vertices) in
let plotting_indices := index_range (length plotting_vertices) in
Returns (plotting_vertices, plotting_colors, plotting_indices).

(** The mesh [FunctionPlotting.render_2d_plot] builds (lines 90-101). *)
Definition render_2d_plot_mesh (self : ref) (uuid1 : Z)
  (plot_boundaries : Q * Q * Q * Q) (func_detail : Z)
  (f_x : list Q → pyvalue) : outcome RenderMesh :=
data ⇐ generate_plot2d_data_exn plot_boundaries func_detail f_x;
Returns (fill_mesh self uuid1 "plotting2d_mesh" data.1.1 data.1.2 data.2).

(** a stand-in for the [bezier] package, for running the bezier code on
    concrete data: the constant curve that stays at the first control
    node *)
Definition stub_evaluate_multi (nodes : list (list Q)) (s_vals : list Q)
  : list (list Q) :=
map (λ row, map (λ _, default 0%Q (head row)) s_vals) nodes.

(** ** 3D function plotting (plotting_base.py)

    [eval_f_x_y(function, x, y)] evaluates the expression typed by the
    user at one point; [f_x_y] is the function the expression denotes, for
    an expression that evaluates to a number at every point. *)

(** the vertex [(a, f(a, c), c, 1)] *)
Definition plot3d_point (f_x_y : Q → Q → Q) (a c : Q) : list Q :=
[a; f_x_y a c; c; 1%Q].

(** The six vertices one pass of the inner loop of [generate_plot3d_data]
    appends (lines 190-202), [l] and [q] already incremented: the two
    triangles of the grid cell between samples [l-1], [l] of [x] and
    [q-1], [q] of [z]. *)
Definition plot3d_cell (f_x_y : Q → Q → Q) (x z : list Q) (q l : nat)
  : result array :=
xl1 ←← py_index x (l - 1);
zq1 ←← py_index z (q - 1);
xl ←← py_index x l;
zq ←← py_index z q;
Ok [plot3d_point f_x_y xl1 zq1; plot3d_point f_x_y xl zq1;
    plot3d_point f_x_y xl zq;
    plot3d_point f_x_y xl1 zq1; plot3d_point f_x_y xl zq;
    plot3d_point f_x_y xl1 zq].

(** [while (l < len(x) - 1): l += 1; ...]: the inner loop, entered with
    the current [l]. *)
Equations? plot3d_inner (f_x_y : Q → Q → Q) (x z : list Q) (q l : nat)
  (triangles_vertices : array) : result array
  by wf (length x - 1 - l)%nat lt :=
plot3d_inner f_x_y x z q l triangles_vertices
  with inspect (Z.ltb (Z.of_nat l) (Z.of_nat (length x) - 1)) := {
  | exist _ true _ with plot3d_cell f_x_y x z q (S l) := {
      | Ok cell =>
          plot3d_inner f_x_y x z q (S l) (triangles_vertices ++ cell)
      | Raise e => Raise e }
  | exist _ false _ => Ok triangles_vertices }.
Proof.
  match goal with H : Z.ltb _ _ = true |- _ => apply Z.ltb_lt in H end.
  lia.
Qed.

(** [while (q < len(z) - 1): q += 1; l = 0; ...]: the outer loop, entered
    with the current [q]. *)
Equations? plot3d_outer (f_x_y : Q → Q → Q) (x z : list Q) (q : nat)
  (triangles_vertices : array) : result array
  by wf (length z - 1 - q)%nat lt :=
plot3d_outer f_x_y x z q triangles_vertices
  with inspect (Z.ltb (Z.of_nat q) (Z.of_nat (length z) - 1)) := {
  | exist _ true _ with plot3d_inner f_x_y x z (S q) 0 triangles_vertices := {
      | Ok triangles_vertices' =>
          plot3d_outer f_x_y x z (S q) triangles_vertices'
      | Raise e => Raise e }
  | exist _ false _ => Ok triangles_vertices }.
Proof.
  match goal with H : Z.ltb _ _ = true |- _ => apply Z.ltb_lt in H end.
  lia.
Qed.

(** [generate_plot3d_data(plot_boundaries, func_detail, f_x_y)] up to line
    206, for an integer [func_detail] of either sign: the vertices, the
    colors and the indices. The normals (lines 208-229) are computed with
    [np.cross] and [np.linalg.norm], that is with square roots of floats,
    and are not embedded. *)
Definition generate_plot3d_triangles (plot_boundaries : Q * Q * Q * Q)
  (func_detail : Z) (f_x_y : Q → Q → Q)
  : outcome (array * array * list Z) :=
let '(b0, b1, b2, b3) := plot_boundaries in
x ⇐ np_linspace b0 b1 func_detail;
z ⇐ np_linspace b2 b3 func_detail;
triangles_vertices ⇐ lift (plot3d_outer f_x_y x z 0 []);
let triangles_colors :=
  constant_colors [0%Q; 1%Q; 1%Q; 1%Q] (length triangles_vertices) in
let triangles_indices := index_range (length triangles_vertices) in
Returns (triangles_vertices, triangles_colors, triangles_indices).

(** ** Plane fitting (planefitting_base.py) *)

(** Python's [min(a, b)] and [max(a, b)]: the first argument unless the
    second is strictly smaller (larger). *)
Definition py_min (a b : Q) : Q := if Qlt_le_dec b a then b else a.
Definition py_max (a b : Q) : Q := if Qlt_le_dec a b then b else a.

(** the loop of [find_boundaries] over [coordinates[1:]] *)
Fixpoint find_boundaries_loop (rest : list (list Q))
  (bounds : Q * Q * Q * Q * Q * Q) : result (Q * Q * Q * Q * Q * Q) :=
match rest with
| [] => Ok bounds
| sublist :: rest' =>
    let '(min_x, max_x, min_y, max_y, min_z, max_z) := bounds in
    s0 ←← py_index sublist 0;
    s1 ←← py_index sublist 1;
    s2 ←← py_index sublist 2;
    find_boundaries_loop rest'
      (py_min min_x s0, py_max max_x s0, py_min min_y s1, py_max max_y s1,
       py_min min_z s2, py_max max_z s2)
end.

(** [find_boundaries(coordinates)]; the result is
    [(min_x, max_x, min_y, max_y, min_z, max_z)]. *)
Definition find_boundaries (coordinates : list (list Q))
  : result (Q * Q * Q * Q * Q * Q) :=
c0 ←← py_index coordinates 0;
x0 ←← py_index c0 0;
y0 ←← py_index c0 1;
z0 ←← py_index c0 2;
find_boundaries_loop (drop 1 coordinates) (x0, x0, y0, y0, z0, z0).

(** Vectors and points of [skspatial] are numpy arrays of three entries;
    [dot], [cross] and the arithmetic used by the plane code, on exact
    numbers. *)
Definition vdot (a b : vec3) : Q :=
(vx a * vx b + vy a * vy b + vz a * vz b)%Q.

Definition vcross (a b : vec3) : vec3 :=
V3 (vy a * vz b - vz a * vy b)%Q
   (vz a * vx b - vx a * vz b)%Q
   (vx a * vy b - vy a * vx b)%Q.

Definition vscale (k : Q) (a : vec3) : vec3 :=
V3 (k * vx a)%Q (k * vy a)%Q (k * vz a)%Q.

Definition vadd (a b : vec3) : vec3 :=
V3 (vx a + vx b)%Q (vy a + vy b)%Q (vz a + vz b)%Q.

Definition vsub (a b : vec3) : vec3 :=
V3 (vx a - vx b)%Q (vy a - vy b)%Q (vz a - vz b)%Q.

(** equality of two vectors as numbers, entry by entry *)
Definition veq (a b : vec3) : Prop :=
(vx a == vx b ∧ vy a == vy b ∧ vz a == vz b)%Q.

(** the attributes [point] and [normal] of a [skspatial] plane *)
Record Plane := mkPlane { plane_point : vec3; plane_normal : vec3 }.

(** [generate_planefitting_data(plane, fitting_nodes)]; the threshold
    [1.-10e-6] is 0.99999. *)
Definition generate_planefitting_data (plane : Plane)
  (fitting_nodes : list (list Q)) : result (list vec3 * array * list Z) :=
bounds ←← find_boundaries fitting_nodes;
let '(min_x, max_x, min_y, max_y, min_z, max_z) := bounds in
let diameter :=
  py_max (py_max (max_x - min_x) (max_y - min_y)) (max_z - min_z) in
let global_x := V3 1 0 0 in
let global_y := V3 0 1 0 in
let normal := plane_normal plane in
let plane_x :=
  if Qlt_le_dec (vdot global_x normal) (99999 # 100000)
  then vcross global_x normal else vcross global_y normal in
let plane_y := vcross plane_x normal in
let point := plane_point plane in
let bottom_left :=
  vsub (vsub point (vscale diameter plane_x)) (vscale diameter plane_y) in
let top_left :=
  vadd (vsub point (vscale diameter plane_x)) (vscale diameter plane_y) in
let bottom_right :=
  vsub (vadd point (vscale diameter plane_x)) (vscale diameter plane_y) in
let top_right :=
  vadd (vadd point (vscale diameter plane_x)) (vscale diameter plane_y) in
let planefitting_vertices :=
  [bottom_left; top_left; bottom_right; top_right] in
let planefitting_indices := [0; 1; 3; 0; 3; 2] in
let planefitting_colors :=
  constant_colors [(5 # 10)%Q; 0%Q; 1%Q; 1%Q] (length planefitting_vertices) in
Ok (planefitting_vertices, planefitting_colors, planefitting_indices).

(** [generate_projection_lines(plane, fitting_nodes)];
    [project_point] is [plane.project_point] of [skspatial]. *)
Definition generate_projection_lines (project_point : list Q → list Q)
  (fitting_nodes : list (list Q)) : list (list Q) * array * list Z :=
let lines_vertices :=
  fold_left (λ vs node, (vs ++ [node]) ++ [project_point node])
    fitting_nodes [] in
let lines_indices := index_range (length lines_vertices) in
let lines_color :=
  constant_colors [1%Q; 1%Q; 1%Q; 1%Q] (length lines_vertices) in
(lines_vertices, lines_color, lines_indices).

(** a point as a row of a vertex array *)
Definition vec3_row (v : vec3) : list Q := [vx v; vy v; vz v].

(** The three meshes [PlaneFitting.fit_plane] fills (lines 75-126): the
    plane, the projection lines and the fitting nodes. [best_fit] is
    [Plane.best_fit(Points(...))] of [skspatial], which raises
    [ValueError] when the nodes do not determine a plane (fewer than three
    nodes, nodes on one line, nodes that are not 3D), and [project_point]
    is the method [project_point] of the plane it returns. *)
Definition fit_plane_meshes (self1 self2 self3 : ref) (uuid1 uuid2 uuid3 : Z)
  (best_fit : list (list Q) → outcome Plane)
  (project_point : Plane → list Q → list Q)
  (fitting_nodes : list (list Q))
  : outcome (RenderMesh * RenderMesh * RenderMesh) :=
plane ⇐ best_fit fitting_nodes;
data ⇐ lift (generate_planefitting_data plane fitting_nodes);
let planefitting_mesh :=
  fill_mesh self1 uuid1 "planefitting_mesh" (map vec3_row data.1.1)
    data.1.2 data.2 in
let lines :=
  generate_projection_lines (project_point plane) fitting_nodes in
let projection_lines_mesh :=
  fill_mesh self2 uuid2 "projection_lines_mesh" lines.1.1 lines.1.2
    lines.2 in
let fitting_nodes_vertices := xyz_to_vertices fitting_nodes in
let fitting_nodes_colors :=
  constant_colors [(5 # 10)%Q; (5 # 10)%Q; 1%Q; 1%Q]
    (length fitting_nodes_vertices) in
let fitting_nodes_indices := index_range (length fitting_nodes_vertices) in
let fitting_nodes_mesh :=
  fill_mesh self3 uuid3 "fitting_nodes_mesh" fitting_nodes_vertices
    fitting_nodes_colors fitting_nodes_indices in
Returns (planefitting_mesh, projection_lines_mesh, fitting_nodes_mesh).

(** a stand-in for [skspatial], for running the plane code on concrete
    data: [best_fit] returns the plane through the first three nodes, with
    their cross product as normal, and raises [ValueError] when there are
    fewer than three nodes, when a node is not 3D or when the first three
    are on one line; [project_point] moves a node along the normal onto
    the plane. *)
Definition node_vec3 (node : list Q) : option vec3 :=
match node with
| [a; b; c] => Some (V3 a b c)
| _ => None
end.

Definition stub_best_fit (nodes : list (list Q)) : outcome Plane :=
match node_vec3 <$> nodes with
| Some p :: Some q :: Some r :: rest =>
    let n := vcross (vsub q p) (vsub r p) in
    if Qeq_bool (vdot n n) 0 || negb (forallb (λ o, bool_decide (is_Some o)) rest)
    then Raises ValueError
    else Returns (mkPlane p n)
| _ => Raises ValueError
end.

Definition stub_project_point (plane : Plane) (node : list Q) : list Q :=
match node_vec3 node with
| Some v =>
    let n := plane_normal plane in
    let k := (vdot (vsub v (plane_point plane)) n / vdot n n)%Q in
    vec3_row (vsub v (vscale k n))
| None => node
end.

(** ** The blended pose of one bone *)

Section BlendedPose.

Context `{QuaternionModule}.

(** What one pass of the loop of [animation_for_loop] (lines 727-734)
    leaves in [MM[i]]: the matrix [m] found there, with the rotation block
    replaced by the interpolated rotation of the two keyframe poses [m1],
    [m2] and the translation column by the interpolated translation. *)
Definition blended_pose (inter0 : string) (a : Q) (m1 m2 m : mat4) : mat4 :=
let q1 := from_rotation_matrix m1 in
let q2 := from_rotation_matrix m2 in
let r :=
  if String.eqb inter0 "LERP"
  then to_rotation_matrix (quaternion_lerp q1 q2 a)
  else to_rotation_matrix (quaternion_slerp q1 q2 a) in
set_col3 (set_rot m r) (lerp (get_col3 m1) (get_col3 m2) a).

End BlendedPose.

(** The accumulator after one call of [animation_loop], as a function of
    the accumulator and the flag before the call; [top] is the boundary at
    which the direction turns backward: [time[1]] without a third
    keyframe, [time[2]] with one. *)
Definition accumulator_step (b0 top tempo0 : Z) (started : bool)
  (c : Z * bool) : Z * bool :=
let flag' :=
  if Z.leb top (fst c) then false
  else if Z.leb (fst c) b0 then true else snd c in
(if started then (if flag' then fst c + tempo0 else fst c - tempo0)
 else fst c, flag').

(** ** The ends of a segment *)

(** equality of two rotation blocks as numbers, entry by entry *)
Definition meq (a b : mat3) : Prop :=
veq (m3r0 a) (m3r0 b) ∧ veq (m3r1 a) (m3r1 b) ∧ veq (m3r2 a) (m3r2 b).

Section EndpointLaws.

Context `{QuaternionModule}.

(** Two properties of a quaternion module that the pose loop relies on
    for a keyframe's rotation to come back at an end of a segment. The
    first: both interpolations return their first argument at 0 and their
    second argument at 1. *)
Definition interpolation_hits_endpoints : Prop :=
∀ (q1 q2 : quaternion) (t : Q),
  ((t == 0)%Q → quaternion_lerp q1 q2 t = q1 ∧ quaternion_slerp q1 q2 t = q1)
  ∧ ((t == 1)%Q → quaternion_lerp q1 q2 t = q2 ∧ quaternion_slerp q1 q2 t = q2).

(** The second: the rotation block of the pose [m] is the same after the
    conversion to a quaternion and back. *)
Definition rotation_round_trip (m : mat4) : Prop :=
meq (to_rotation_matrix (from_rotation_matrix m)) (get_rot m).

End EndpointLaws.

(** a second stand-in for the quaternion module, one with both
    properties: the "quaternion" of a pose is its rotation block, and the
    interpolations return their first argument at 0 and their second
    argument everywhere else *)
Definition endpoint_quaternion : QuaternionModule :=
{| quaternion := mat3;
   from_rotation_matrix := get_rot;
   to_rotation_matrix := λ r, r;
   quaternion_lerp := λ a b t, if Qeq_bool t 0 then a else b;
   quaternion_slerp := λ a b t, if Qeq_bool t 0 then a else b |}.

(** a pose for the examples: a quarter turn about the z axis, moved to
    (3, 4, 5) *)
Definition quarter_turn : mat4 :=
M4 (R4 0 (-1) 0 3) (R4 1 0 0 4) (R4 0 0 1 5) (R4 0 0 0 1).

(** * Properties *)

(** ** Component construction and update *)

Lemma filter_lookup_recognized {V} (P : string * V → Prop)
  `{∀ kv, Decision (P kv)} (kwargs : gmap string V) (k : string) :
  (∀ v, P (k, v)) → filter P kwargs !! k = kwargs !! k.
Proof.
  intros Hk. destruct (kwargs !! k) as [v|] eqn:E.
  - by apply map_lookup_filter_Some_2.
  - apply map_lookup_filter_None_2. by left.
Qed.

(** C8: [BasicTransform.update] sets exactly the fields named by the keys
    [l2world], [trs] and [l2cam] that occur in the keyword arguments, each
    to the value supplied; the other fields (the whole [Component] part)
    stay as they are and the result does not depend on any other key.
    [Camera.update] does the same for the single key [root2cam] and leaves
    the projection matrix and the [Component] part as they are. *)
Theorem update_sets_named_fields (M : Type) (bt : BasicTransform M)
  (cam : Camera M) (kwargs : gmap string M) :
  let bt' := BasicTransform_update bt kwargs in
  let cam' := Camera_update cam kwargs in
  _l2world bt' = default (_l2world bt) (kwargs !! "l2world")
  ∧ _trs bt' = default (_trs bt) (kwargs !! "trs")
  ∧ _l2cam bt' = default (_l2cam bt) (kwargs !! "l2cam")
  ∧ bt_base bt' = bt_base bt
  ∧ BasicTransform_update bt
      (filter (λ kv, kv.1 ∈ ["l2world"; "trs"; "l2cam"]) kwargs) = bt'
  ∧ _root2cam cam' = default (_root2cam cam) (kwargs !! "root2cam")
  ∧ _projMat cam' = _projMat cam
  ∧ cam_base cam' = cam_base cam
  ∧ Camera_update cam (filter (λ kv, kv.1 = "root2cam") kwargs) = cam'.
Proof.
  simpl. unfold BasicTransform_update, Camera_update.
  rewrite !filter_lookup_recognized
    by (intros; simpl; rewrite ?elem_of_cons; tauto).
  destruct (kwargs !! "l2world"), (kwargs !! "trs"), (kwargs !! "l2cam"),
    (kwargs !! "root2cam"); simpl; repeat split; by destruct bt.
Qed.

(** The parent written by [__init__] of every class is the object under
    construction. *)
Lemma construct_parent {M} (identity : M) ortho (self : nat) (uuid1 : Z)
  (call : constructor_call M) :
  parent (construct identity ortho self uuid1 call) = self.
Proof. by destruct call. Qed.

(** C9: a freshly constructed component of any class (the [Component] base
    part, BasicTransform, Camera, RenderMesh, Keyframe, AnimationComponents,
    the decorator) is a new object of the heap whose parent reference is
    the object itself. *)
Theorem fresh_component_is_own_parent (M : Type) (identity : M)
  (ortho : Q → Q → Q → Q → Q → Q → M) (h : gmap nat (object M))
  (uuid1 : Z) (call : constructor_call M) (cls : string)
  (name type : option string) (id : option pyid) :
  let '(self, h') := new identity ortho h uuid1 call in
  h !! self = None
  ∧ (∃ o, h' !! self = Some o ∧ parent o = self)
  ∧ delete self h' = h
  ∧ Component._parent (Component.__init__ cls self uuid1 name type id) = self.
Proof.
  unfold new. repeat split.
  - apply not_elem_of_dom, is_fresh.
  - eexists. split; [apply lookup_insert_eq|]. apply construct_parent.
  - rewrite delete_insert_eq. apply delete_id, not_elem_of_dom, is_fresh.
Qed.

(** ** The visitor dispatch *)

Lemma call_method_pass {M S} (system : gmap string (handler M S))
  (name : string) (self : object M) (st : S) :
  system !! name = Some pass_handler →
  call_method system name self st = Ok (self, st).
Proof. unfold call_method. by intros ->. Qed.

(** [accept] raises [AttributeError] as soon as the first method it calls
    is missing from the system object. *)
Lemma accept_missing_first_handler {M S} (self : object M)
  (system : gmap string (handler M S)) (st : S) (name : string)
  (rest : list string) :
  handlers_called self = name :: rest →
  system !! name = None →
  accept self system st = Raise (AttributeError name).
Proof.
  intros Hc Hn.
  destruct self; simpl in Hc; try discriminate; injection Hc as <- <-;
    unfold accept, call_method; by rewrite Hn.
Qed.

(** C3, as the code has it: [accept] is a silent no-op (no exception, the
    component and the system state unchanged) when every method it calls on
    the system object is present and does nothing, as the handlers a system
    inherits without overriding them; a Keyframe, an AnimationComponents and
    a BasicTransformDecorator call no method, so for them this holds of
    every system object. *)
Theorem accept_pass_handlers_noop (M S : Type) (self : object M)
  (system : gmap string (handler M S)) (st : S) :
  (∀ name, name ∈ handlers_called self → system !! name = Some pass_handler) →
  accept self system st = Ok (self, st).
Proof.
  intros H. destruct self; simpl in *; try reflexivity.
  - rewrite (call_method_pass _ "apply2GATransform")
      by (apply H; rewrite !elem_of_cons; tauto).
    simpl. rewrite (call_method_pass _ "apply2BasicTransform")
      by (apply H; rewrite !elem_of_cons; tauto).
    simpl. apply call_method_pass, H. rewrite !elem_of_cons; tauto.
  - apply call_method_pass, H. rewrite !elem_of_cons; tauto.
  - apply call_method_pass, H. rewrite !elem_of_cons; tauto.
Qed.

Lemma accept_pass_handlers_noop_witness :
  accept (OBasicTransform (BasicTransform__init__ zidentity 3 103 None None
                             None None)) base_system tt
  = Ok (OBasicTransform (BasicTransform__init__ zidentity 3 103 None None
                           None None), tt).
Proof.
  apply accept_pass_handlers_noop.
  intros name Hn. simpl in Hn. rewrite !elem_of_cons in Hn.
  destruct Hn as [-> | [-> | [-> | Hn]]];
    [reflexivity | reflexivity | reflexivity |].
  by apply elem_of_nil in Hn.
Defined.

(** C3, as stated, fails: a system object without the method that
    [Camera.accept] calls makes [accept] raise [AttributeError]; likewise
    for a BasicTransform. *)
Lemma accept_without_handler_raises :
  (∀ name, name ∈ handlers_called (OCamera example_camera) →
           empty_system !! name = None)
  ∧ accept (OCamera example_camera) empty_system tt
    = Raise (AttributeError "apply2Camera")
  ∧ accept (OBasicTransform (BasicTransform__init__ zidentity 3 103 None None
                               None None)) empty_system tt
    = Raise (AttributeError "apply2GATransform").
Proof. repeat split. Qed.

(** ** The mesh invariant *)

Lemma same_row_count_snoc (attrs : list array) (a : array) :
  same_row_count (attrs ++ [a])
  = same_row_count attrs
    && match attrs with
       | [] => true
       | b :: _ => Nat.eqb (length a) (length b)
       end.
Proof.
  destruct attrs as [|b rest]; simpl; [reflexivity|].
  rewrite forallb_app. simpl. by rewrite andb_true_r.
Qed.

(** C6, as the code has it: a RenderMesh validates nothing. The
    constructor, the property setter and [vertex_attributes.append] store
    the arrays they are given as they are, whatever their row counts, and
    touch nothing else; after an append all arrays of the mesh share one
    row count exactly when they did before and the new array has the row
    count of the arrays already present. *)
Theorem vertex_attributes_stored_unchecked (mesh : RenderMesh) (a : array)
  (value : list array) (self : nat) (uuid1 : Z) (name type : option string)
  (id : option pyid) (vertex_index : option (list (list Z))) :
  _vertex_attributes (vertex_attributes_append mesh a)
    = _vertex_attributes mesh ++ [a]
  ∧ _vertex_index (vertex_attributes_append mesh a) = _vertex_index mesh
  ∧ rm_base (vertex_attributes_append mesh a) = rm_base mesh
  ∧ same_row_count (_vertex_attributes (vertex_attributes_append mesh a))
    = same_row_count (_vertex_attributes mesh)
      && match _vertex_attributes mesh with
         | [] => true
         | b :: _ => Nat.eqb (length a) (length b)
         end
  ∧ _vertex_attributes (vertex_attributes_setter mesh value) = value
  ∧ _vertex_attributes
      (RenderMesh__init__ self uuid1 name type id (Some value) vertex_index)
    = value.
Proof.
  repeat split; try reflexivity.
  - apply same_row_count_snoc.
  - by destruct value.
Qed.

(** C6, as stated, fails: two vertex rows and then a single color row are
    attached to the same mesh; nothing rejects or flags the second array,
    and the mesh ends up with arrays of different row counts. The
    constructor accepts the same two arrays as well. *)
Lemma mismatched_row_counts_accepted :
  let mesh := vertex_attributes_append example_mesh two_vertices in
  same_row_count (_vertex_attributes mesh) = true
  ∧ _vertex_attributes (vertex_attributes_append mesh one_color)
    = [two_vertices; one_color]
  ∧ same_row_count
      (_vertex_attributes (vertex_attributes_append mesh one_color)) = false
  ∧ same_row_count
      (_vertex_attributes
         (RenderMesh__init__ 5 105 None None None
            (Some [two_vertices; one_color]) None)) = false.
Proof. repeat split. Qed.

(** ** Draining the children of an entity *)

Lemma remove_entity_children_nil (i : nat) :
  remove_entity_children (mkEntity i []) = mkEntity i [].
Proof. by simp remove_entity_children. Qed.

Lemma remove_entity_children_cons (i : nat) (c : Entity) (cs : list Entity) :
  remove_entity_children (mkEntity i (c :: cs))
  = remove_entity_children (mkEntity i cs).
Proof.
  rewrite (remove_entity_children_equation_1 (mkEntity i (c :: cs))).
  simpl. unfold remove. simpl. by rewrite Nat.eqb_refl.
Qed.

Lemma remove_entity_children_spec (i : nat) (cs : list Entity) :
  remove_entity_children (mkEntity i cs) = mkEntity i [].
Proof.
  induction cs as [|c cs IH].
  - apply remove_entity_children_nil.
  - by rewrite remove_entity_children_cons.
Qed.

(** the loop is over after one test per child and a last one *)
Lemma remove_entity_children_fuel_enough (fuel : nat) (i : nat)
  (cs : list Entity) :
  (length cs < fuel)%nat →
  remove_entity_children_fuel fuel (mkEntity i cs) = Some (mkEntity i []).
Proof.
  revert cs. induction fuel as [|fuel IH]; intros cs Hlt; [lia|].
  destruct cs as [|c cs]; simpl; [reflexivity|].
  unfold remove. simpl. rewrite Nat.eqb_refl. apply IH. simpl in Hlt. lia.
Qed.

Lemma addChild_children (p c p' : Entity) :
  addChild p c = Ok p' →
  eid p' = eid p ∧ children p' = children p ++ [c].
Proof.
  unfold addChild. case_bool_decide; [discriminate|].
  intros [= <-]. done.
Qed.

Lemma addChildren_children (cs : list Entity) (p p' : Entity) :
  addChildren p cs = Ok p' →
  eid p' = eid p ∧ children p' = children p ++ cs.
Proof.
  revert p. induction cs as [|c cs IH]; intros p; simpl.
  - intros [= <-]. by rewrite app_nil_r.
  - destruct (addChild p c) as [q|] eqn:E; simpl; [|discriminate].
    intros H. apply IH in H as [-> ->].
    apply addChild_children in E as [-> ->].
    by rewrite <- app_assoc.
Qed.

(** C7: after adding N children to an entity, the drain idiom (fetch the
    child at index 1, remove it, until [getChild(1)] is [None]) terminates,
    at the latest after one test per child present and one more, and
    leaves the same entity without any child. *)
Theorem drain_leaves_no_children (entity entity' : Entity)
  (cs : list Entity) :
  addChildren entity cs = Ok entity' →
  length (children entity') = (length (children entity) + length cs)%nat
  ∧ children (remove_entity_children entity') = []
  ∧ eid (remove_entity_children entity') = eid entity
  ∧ getChild (remove_entity_children entity') 1 = None
  ∧ remove_entity_children_fuel (S (length (children entity'))) entity'
    = Some (remove_entity_children entity').
Proof.
  intros H. apply addChildren_children in H as [Hid Hch].
  destruct entity' as [i' cs']. simpl in Hid, Hch. subst i'.
  rewrite remove_entity_children_fuel_enough by (simpl; lia).
  rewrite remove_entity_children_spec. simpl.
  rewrite Hch, length_app. done.
Qed.

Lemma drain_leaves_no_children_witness :
  children
    (remove_entity_children
       (mkEntity 0 [createEntity 1; createEntity 2; createEntity 3])) = [].
Proof.
  apply (drain_leaves_no_children (createEntity 0)
           (mkEntity 0 [createEntity 1; createEntity 2; createEntity 3])
           [createEntity 1; createEntity 2; createEntity 3]).
  reflexivity.
Defined.

(** ** Plotting *)

Lemma lookup_map_seq {A} (g : nat → A) (n i : nat) :
  (i < n)%nat → map g (seq 0 n) !! i = Some (g i).
Proof.
  intros Hi. change (map g (seq 0 n)) with (g <$> seq 0 n).
  rewrite list_lookup_fmap, lookup_seq_lt by done. done.
Qed.

Lemma plot2d_segment_ok (g f : nat → Q) (n i : nat) :
  (i + 1 < n)%nat →
  plot2d_segment (map g (seq 0 n)) (map f (seq 0 n)) i
  = Ok [[g i; f i; 0%Q; 1%Q]; [g (i + 1)%nat; f (i + 1)%nat; 0%Q; 1%Q]].
Proof.
  intros Hi. unfold plot2d_segment, py_index.
  rewrite !lookup_map_seq by lia. reflexivity.
Qed.

Lemma plot2d_loop_ok (g f : nat → Q) (n : nat) (idx : list nat)
  (acc : array) :
  Forall (λ i, i + 1 < n)%nat idx →
  plot2d_loop (map g (seq 0 n)) (map f (seq 0 n)) idx acc
  = Ok (acc ++ flat_map (λ i, [[g i; f i; 0%Q; 1%Q];
                                [g (i + 1)%nat; f (i + 1)%nat; 0%Q; 1%Q]]) idx).
Proof.
  intros H. revert acc. induction H as [|i idx Hi _ IH]; intros acc; simpl.
  - by rewrite app_nil_r.
  - rewrite plot2d_segment_ok by done. simpl. rewrite IH.
    by rewrite <- app_assoc.
Qed.

Lemma length_flat_map_pairs {A B} (p q : A → B) (l : list A) :
  length (flat_map (λ i, [p i; q i]) l) = (2 * length l)%nat.
Proof. induction l as [|a l IH]; simpl; [done|]. rewrite IH. lia. Qed.

(** C10: for [func_detail = n >= 3] the function returns normally, and its
    vertices are the two end points of the segments between samples [i] and
    [i+1] for [i = 0 .. n-3], in this order: [2*(n-2)] vertices; the segment
    between the last two samples ([i = n-2]) is not among them; the colors
    and the indices have the same length [2*(n-2)]. *)
Theorem generate_plot2d_data_segments (plot_boundaries : Q * Q * Q * Q)
  (n : nat) (f_x : Q → Q) :
  (3 ≤ n)%nat →
  ∃ vertices colors indices,
    generate_plot2d_data plot_boundaries n f_x = Ok (vertices, colors, indices)
    ∧ vertices
      = flat_map (λ i, [plot2d_point plot_boundaries n f_x i;
                        plot2d_point plot_boundaries n f_x (i + 1)])
          (seq 0 (n - 2))
    ∧ length vertices = (2 * (n - 2))%nat
    ∧ length colors = (2 * (n - 2))%nat
    ∧ length indices = (2 * (n - 2))%nat.
Proof.
  intros Hn. destruct plot_boundaries as [[[b0 b1] b2] b3].
  unfold generate_plot2d_data, linspace, eval_f_x.
  rewrite List.map_map, length_map, length_seq.
  rewrite plot2d_loop_ok.
  2:{ apply Forall_forall. intros i Hi. apply elem_of_seq in Hi. lia. }
  simpl.
  set (segs := flat_map _ _).
  assert (Hlen : length segs = (2 * (n - 2))%nat).
  { unfold segs.
    rewrite length_flat_map_pairs, length_seq. done. }
  exists segs, (repeat [(5 # 10)%Q; 0%Q; 1%Q; 1%Q] (length segs)),
    (map Z.of_nat (seq 0 (length segs))).
  repeat split; try done.
  - by rewrite repeat_length.
  - by rewrite length_map, length_seq.
Qed.

Lemma generate_plot2d_data_segments_witness :
  ∃ vertices colors indices,
    generate_plot2d_data (1, -1, 1, -1)%Q 4 (λ x, x * x + 4 * x)%Q
    = Ok (vertices, colors, indices)
    ∧ vertices
      = flat_map (λ i, [plot2d_point (1, -1, 1, -1)%Q 4
                          (λ x, x * x + 4 * x)%Q i;
                        plot2d_point (1, -1, 1, -1)%Q 4
                          (λ x, x * x + 4 * x)%Q (i + 1)])
          (seq 0 (4 - 2))
    ∧ length vertices = (2 * (4 - 2))%nat
    ∧ length colors = (2 * (4 - 2))%nat
    ∧ length indices = (2 * (4 - 2))%nat.
Proof. apply generate_plot2d_data_segments. lia. Defined.

(** ** The animation loop *)

Lemma py_index_lt {A} (l : list A) (i : nat) :
  (i < length l)%nat → ∃ a, py_index l i = Ok a.
Proof.
  intros Hi. destruct (lookup_lt_is_Some_2 l i Hi) as [a Ha].
  exists a. unfold py_index. by rewrite Ha.
Qed.

Lemma blend_factor_bounds (ta t0 t1 : Z) :
  t0 < t1 → t0 ≤ ta ≤ t1 →
  ∃ a, blend_factor ta t0 t1 = Ok a ∧ (0 <= a <= 1)%Q.
Proof.
  intros Hlt [Hlo Hhi]. unfold blend_factor.
  rewrite Z.abs_eq by lia.
  destruct (Z.eqb_spec (t1 - t0) 0) as [E|_]; [lia|].
  eexists. split; [reflexivity|].
  assert (Hpos : (0 < inject_Z (t1 - t0))%Q).
  { change 0%Q with (inject_Z 0). rewrite <- Zlt_Qlt. lia. }
  split.
  - apply Qle_shift_div_l; [done|]. rewrite Qmult_0_l.
    change 0%Q with (inject_Z 0). rewrite <- Zle_Qle. lia.
  - apply Qle_shift_div_r; [done|]. rewrite Qmult_1_l.
    rewrite <- Zle_Qle. lia.
Qed.

(** The translation channel at the end points of a segment: on exact
    numbers [lerp] returns its first argument at 0 and its second at 1. *)
Lemma lerp_0 (a b : vec3) :
  (vx (lerp a b 0) == vx a ∧ vy (lerp a b 0) == vy a
   ∧ vz (lerp a b 0) == vz a)%Q.
Proof. destruct a, b. simpl. repeat split; ring. Qed.

Lemma lerp_1 (a b : vec3) :
  (vx (lerp a b 1) == vx b ∧ vy (lerp a b 1) == vy b
   ∧ vz (lerp a b 1) == vz b)%Q.
Proof. destruct a, b. simpl. repeat split; ring. Qed.

Lemma select_segment_cases {K} (self : AnimationComponents) (key1 key2 : K)
  (key3 : option K) (b0 b1 b2 : Z) :
  time self = [b0; b1; b2] →
  select_segment self key1 key2 key3
  = Ok (if Z.leb b0 (time_add self) && Z.leb (time_add self) b1
        then Some (key1, key2, b0, b1)
        else match key3 with
             | Some k3 =>
                 if Z.ltb b1 (time_add self) && Z.leb (time_add self) b2
                 then Some (key2, k3, b1, b2) else None
             | None => None
             end).
Proof.
  intros Ht. unfold select_segment. rewrite Ht. simpl.
  destruct (Z.leb b0 (time_add self)); simpl;
    destruct (Z.leb (time_add self) b1); simpl; try reflexivity;
    destruct (Z.ltb b1 (time_add self)); simpl;
    destruct key3; simpl; try reflexivity;
    destruct (Z.leb (time_add self) b2); reflexivity.
Qed.

Section AnimationFacts.

Context `{QuaternionModule}.

Lemma Keyframe_rotate_single (k : list mat4) :
  length (Keyframe_rotate (Keyframe_array_MM_arg (Some [k]))) = length k.
Proof.
  unfold Keyframe_rotate. simpl. by rewrite app_nil_r, length_map.
Qed.

Lemma Keyframe_translate_single (k : list mat4) :
  length (Keyframe_translate (Keyframe_array_MM_arg (Some [k]))) = length k.
Proof.
  unfold Keyframe_translate. simpl. by rewrite app_nil_r, length_map.
Qed.

(** One iteration of the pose loop only writes [MM], at an index it has. *)
Lemma animation_for_loop_body_ok (self : AnimationComponents)
  (k_1 k_2 : list mat4) (i : nat) :
  (i < length k_1)%nat → (i < length k_2)%nat → (i < length (MM self))%nat →
  ∃ mm, animation_for_loop_body self (Keyframe_array_MM_arg (Some [k_1]))
          (Keyframe_array_MM_arg (Some [k_2])) i = Ok (set_MM self mm)
        ∧ length mm = length (MM self).
Proof.
  intros H1 H2 Hm. unfold animation_for_loop_body.
  destruct (py_index_lt (Keyframe_rotate (Keyframe_array_MM_arg (Some [k_1]))) i)
    as [q1 ->]; [by rewrite Keyframe_rotate_single|].
  destruct (py_index_lt (Keyframe_rotate (Keyframe_array_MM_arg (Some [k_2]))) i)
    as [q2 ->]; [by rewrite Keyframe_rotate_single|].
  destruct (py_index_lt (MM self) i) as [m ->]; [done|].
  destruct (py_index_lt (Keyframe_translate (Keyframe_array_MM_arg (Some [k_1]))) i)
    as [a ->]; [by rewrite Keyframe_translate_single|].
  destruct (py_index_lt (Keyframe_translate (Keyframe_array_MM_arg (Some [k_2]))) i)
    as [b ->]; [by rewrite Keyframe_translate_single|].
  cbn [rbind].
  match goal with
  | |- context [py_index (MM (set_MM self ?l)) i] =>
      destruct (py_index_lt (MM (set_MM self l)) i) as [m' ->];
        [simpl; by rewrite length_insert|]
  end.
  cbn [rbind]. eexists. split; [reflexivity|].
  simpl. by rewrite !length_insert.
Qed.

Lemma for_range_ok (k_1 k_2 : list mat4) (idx : list nat)
  (self : AnimationComponents) :
  Forall (λ i, i < length k_1 ∧ i < length k_2 ∧ i < length (MM self))%nat idx →
  ∃ mm, for_range (λ s i, animation_for_loop_body s
                            (Keyframe_array_MM_arg (Some [k_1]))
                            (Keyframe_array_MM_arg (Some [k_2])) i) idx self
        = Ok (set_MM self mm)
        ∧ length mm = length (MM self).
Proof.
  revert self. induction idx as [|i idx IH]; intros self Hall.
  - exists (MM self). split; [|done]. simpl. by destruct self.
  - apply Forall_cons in Hall as [(H1 & H2 & H3) Hall]. simpl.
    destruct (animation_for_loop_body_ok self k_1 k_2 i H1 H2 H3)
      as (mm & -> & Hlen).
    cbn [rbind].
    destruct (IH (set_MM self mm)) as (mm' & -> & Hlen').
    { eapply Forall_impl; [exact Hall|]. simpl. intros j. rewrite Hlen. done. }
    exists mm'. split; [reflexivity|]. simpl in Hlen'. congruence.
Qed.

(** [animation_for_loop] returns normally on a segment that is not empty
    when the blended pose has a matrix for every bone of [k_1] and [k_2]
    has as many bones; it writes [alpha] and [MM] only. *)
Lemma animation_for_loop_ok (self : AnimationComponents)
  (k_1 k_2 : list mat4) (t0 t1 : Z) (a : Q) :
  blend_factor (time_add self) t0 t1 = Ok a →
  (length k_1 ≤ length k_2)%nat → (length k_1 ≤ length (MM self))%nat →
  ∃ mm, animation_for_loop self k_1 k_2 t0 t1
        = Ok (set_MM (set_alpha self a) mm)
        ∧ length mm = length (MM self).
Proof.
  intros Ha H2 Hm. unfold animation_for_loop. rewrite Ha. cbn [rbind].
  apply (for_range_ok k_1 k_2 _ (set_alpha self a)).
  apply Forall_forall. intros i Hi. apply elem_of_seq in Hi. simpl. lia.
Qed.

(** the blend factor a successful [animation_for_loop] leaves in [alpha] *)
Lemma animation_for_loop_alpha (self self' : AnimationComponents)
  (k_1 k_2 : list mat4) (t0 t1 : Z) :
  animation_for_loop self k_1 k_2 t0 t1 = Ok self' →
  blend_factor (time_add self) t0 t1 = Ok (alpha self').
Proof.
  unfold animation_for_loop.
  destruct (blend_factor (time_add self) t0 t1) as [a|e]; [|discriminate].
  cbn [rbind]. intros Hr. f_equal.
  change a with (alpha (set_alpha self a)).
  revert Hr. generalize (set_alpha self a). generalize (seq 0 (length k_1)).
  intros idx. induction idx as [|i idx IH]; intros s; simpl.
  - by intros [= ->].
  - destruct (animation_for_loop_body s _ _ i) as [s1|] eqn:E; [|discriminate].
    cbn [rbind]. intros Hr. rewrite <- (IH _ Hr).
    unfold animation_for_loop_body in E.
    repeat match type of E with
    | rbind ?r _ = _ => destruct r; [cbn [rbind] in E | discriminate]
    end.
    by injection E as <-.
Qed.


Lemma update_flag_cases (self : AnimationComponents) (b0 b1 b2 : Z) :
  time self = [b0; b1; b2] → b1 ≤ b2 →
  update_flag self true
  = Ok (set_flag self (snd (ping_pong_step b0 b1 (tempo self)
                              (time_add self, flag self)))).
Proof.
  intros Ht H12. unfold update_flag, ping_pong_step. rewrite Ht. simpl.
  destruct (Z.leb_spec b1 (time_add self)); simpl; [reflexivity|].
  destruct (Z.leb_spec b2 (time_add self)); simpl; [lia|].
  destruct (Z.leb_spec (time_add self) b0); simpl; [reflexivity|].
  by destruct self.
Qed.

(** One call of [animation_loop] with two keyframes of as many bones, on a
    first segment that is not empty: it returns normally, keeps the
    configuration, and moves the accumulator and the flag as
    [ping_pong_step] says. *)
Lemma animation_loop_step (self : AnimationComponents)
  (key1 key2 : list mat4) (b0 b1 b2 : Z) :
  time self = [b0; b1; b2] → b0 < b1 → b1 ≤ b2 →
  anition_start self = true → (length key1 ≤ length key2)%nat →
  ∃ self' data,
    animation_loop self key1 key2 None = Ok (self', data)
    ∧ time self' = time self ∧ tempo self' = tempo self
    ∧ anition_start self' = true
    ∧ (time_add self', flag self')
      = ping_pong_step b0 b1 (tempo self) (time_add self, flag self).
Proof.
  intros Ht H01 H12 Hs Hk. unfold animation_loop.
  rewrite (update_flag_cases _ b0 b1 b2) by done. cbn [rbind].
  rewrite (select_segment_cases _ _ _ _ b0 b1 b2) by done. cbn [rbind].
  set (fl := snd (ping_pong_step _ _ _ _)).
  assert (Hfl : fl = snd (ping_pong_step b0 b1 (tempo self)
                            (time_add self, flag self))) by reflexivity.
  clearbody fl.
  set (s2 := set_flag _ fl).
  assert (Hta : time_add s2 = time_add self) by done.
  destruct (Z.leb b0 (time_add s2) && Z.leb (time_add s2) b1) eqn:Hseg.
  - apply andb_true_iff in Hseg as [Hlo Hhi].
    apply Z.leb_le in Hlo, Hhi.
    destruct (blend_factor_bounds (time_add s2) b0 b1) as (a & Ha & _);
      [done | done |].
    destruct (animation_for_loop_ok s2 key1 key2 b0 b1 a Ha Hk) as (mm & -> & _).
    { simpl. by rewrite length_map. }
    cbn [rbind]. eexists _, _. split; [reflexivity|].
    unfold advance. simpl. rewrite Hs.
    unfold ping_pong_step in *. simpl in Hfl |- *. rewrite <- Hfl.
    by destruct fl.
  - cbn [rbind]. eexists _, _. split; [reflexivity|].
    unfold advance. simpl. rewrite Hs.
    unfold ping_pong_step in *. simpl in Hfl |- *. rewrite <- Hfl.
    by destruct fl.
Qed.

Lemma ticks_ping_pong (n : nat) (self : AnimationComponents)
  (key1 key2 : list mat4) (b0 b1 b2 : Z) :
  time self = [b0; b1; b2] → b0 < b1 → b1 ≤ b2 →
  anition_start self = true → (length key1 ≤ length key2)%nat →
  ∃ self',
    ticks n self key1 key2 None = Ok self'
    ∧ (time_add self', flag self')
      = ping_pong b0 b1 (tempo self) n (time_add self, flag self).
Proof.
  intros Ht H01 H12 Hs Hk. revert self Ht Hs.
  induction n as [|n IH]; intros self Ht Hs; simpl.
  - by exists self.
  - destruct (animation_loop_step self key1 key2 b0 b1 b2)
      as (s1 & data & -> & Ht1 & Htp & Hs1 & Hstep); try done.
    cbn [rbind fst].
    destruct (IH s1) as (s' & -> & Hpp); [congruence | done |].
    exists s'. split; [reflexivity|]. rewrite Hpp, Htp, Hstep. done.
Qed.

End AnimationFacts.

Lemma ping_pong_add (b0 b1 tempo0 : Z) (n m : nat) (c : Z * bool) :
  ping_pong b0 b1 tempo0 (n + m) c
  = ping_pong b0 b1 tempo0 m (ping_pong b0 b1 tempo0 n c).
Proof. revert c. induction n as [|n IH]; intros c; simpl; [done|apply IH]. Qed.

Lemma ping_pong_up :
  Forall (λ k, ping_pong 0 100 2 k (0, true) = (2 * Z.of_nat k, true))
    (seq 0 51).
Proof. compute_done. Qed.

Lemma ping_pong_down :
  Forall (λ k, ping_pong 0 100 2 (50 + k) (0, true)
               = (100 - 2 * Z.of_nat k, false))
    (seq 1 50).
Proof. compute_done. Qed.

(** C2: from the accumulator 0, forward, tempo 2, boundaries [0,100,200]
    and two keyframes (of as many bones, no third keyframe), every call of
    [animation_loop] returns normally; after k <= 50 calls the accumulator
    is 2k, so it is 100 after exactly 50 calls, still flagged forward; the
    call made at 100 sets the flag to backward, and after 50 + k calls
    (1 <= k <= 50) the accumulator is 100 - 2k, so it is back at 0 after
    another 50 calls; the call made at 0 sets the flag to forward again
    (after 101 calls: accumulator 2, forward); from the first call on the
    accumulator and the flag repeat every 100 calls. *)
Theorem animation_ping_pong `{QuaternionModule} (self : nat) (uuid1 : Z)
  (key1 key2 : list mat4) :
  length key1 = length key2 →
  let after n := ticks n (AnimationComponents_default self uuid1)
                   key1 key2 None in
  Forall (λ k, ∃ s, after k = Ok s ∧ time_add s = 2 * Z.of_nat k
                    ∧ flag s = true) (seq 0 51)
  ∧ Forall (λ k, ∃ s, after (50 + k)%nat = Ok s
                      ∧ time_add s = 100 - 2 * Z.of_nat k
                      ∧ flag s = false) (seq 1 50)
  ∧ (∃ s, after 101%nat = Ok s ∧ time_add s = 2 ∧ flag s = true)
  ∧ ∀ n, ∃ s s', after (1 + n)%nat = Ok s ∧ after (1 + n + 100)%nat = Ok s'
                 ∧ time_add s' = time_add s ∧ flag s' = flag s.
Proof.
  intros Hk after.
  assert (Hpp : ∀ n, ∃ s, after n = Ok s
                ∧ (time_add s, flag s) = ping_pong 0 100 2 n (0, true)).
  { intros n.
    apply (ticks_ping_pong n (AnimationComponents_default self uuid1)
             key1 key2 0 100 200); try done. lia. }
  repeat split.
  - apply Forall_forall. intros k Hin.
    destruct (Hpp k) as (s & Hs & Hc). exists s. split; [done|].
    pose proof (proj1 (Forall_forall _ _) ping_pong_up k Hin) as E.
    cbv beta in E. rewrite E in Hc. by injection Hc as -> ->.
  - apply Forall_forall. intros k Hin.
    destruct (Hpp (50 + k)%nat) as (s & Hs & Hc). exists s. split; [done|].
    pose proof (proj1 (Forall_forall _ _) ping_pong_down k Hin) as E.
    cbv beta in E. rewrite E in Hc. by injection Hc as -> ->.
  - destruct (Hpp 101%nat) as (s & Hs & Hc). exists s. split; [done|].
    change (ping_pong 0 100 2 101 (0, true)) with (2, true) in Hc.
    by injection Hc as -> ->.
  - intros n. destruct (Hpp (1 + n)%nat) as (s & Hs & Hc).
    destruct (Hpp (1 + n + 100)%nat) as (s' & Hs' & Hc').
    exists s, s'. split; [done|]. split; [done|].
    replace (1 + n + 100)%nat with (101 + n)%nat in Hc' by lia.
    rewrite ping_pong_add in Hc'.
    change (ping_pong 0 100 2 101 (0, true)) with (2, true) in Hc'.
    change (ping_pong 0 100 2 (1 + n) (0, true))
      with (ping_pong 0 100 2 n (2, true)) in Hc.
    rewrite <- Hc in Hc'. by injection Hc' as -> ->.
Qed.

Lemma animation_ping_pong_witness :
  let after n := @ticks stub_quaternion n (AnimationComponents_default 9 109)
                   [eye4; eye4] [eye4; eye4] None in
  Forall (λ k, ∃ s, after k = Ok s ∧ time_add s = 2 * Z.of_nat k
                    ∧ flag s = true) (seq 0 51)
  ∧ Forall (λ k, ∃ s, after (50 + k)%nat = Ok s
                      ∧ time_add s = 100 - 2 * Z.of_nat k
                      ∧ flag s = false) (seq 1 50)
  ∧ (∃ s, after 101%nat = Ok s ∧ time_add s = 2 ∧ flag s = true)
  ∧ ∀ n, ∃ s s', after (1 + n)%nat = Ok s ∧ after (1 + n + 100)%nat = Ok s'
                 ∧ time_add s' = time_add s ∧ flag s' = flag s.
Proof. apply (@animation_ping_pong stub_quaternion). reflexivity. Defined.

(** C2, as stated, fails: after exactly 50 calls the accumulator is 100
    but the flag is still forward; it is the 51st call, made with the
    accumulator at 100, that sets it backward. The accumulator is back at
    0 after 100 calls, with the flag still backward: each direction takes
    50 calls, not 100. *)
Lemma flag_still_forward_after_50_ticks :
  let after n := @ticks stub_quaternion n (AnimationComponents_default 9 109)
                   [eye4] [eye4] None in
  (∃ s, after 50%nat = Ok s ∧ time_add s = 100 ∧ flag s = true)
  ∧ (∃ s, after 51%nat = Ok s ∧ time_add s = 98 ∧ flag s = false)
  ∧ (∃ s, after 100%nat = Ok s ∧ time_add s = 0 ∧ flag s = false).
Proof.
  intros after.
  assert (Hpp : ∀ n, ∃ s, after n = Ok s
                ∧ (time_add s, flag s) = ping_pong 0 100 2 n (0, true)).
  { intros n.
    apply (@ticks_ping_pong stub_quaternion n
             (AnimationComponents_default 9 109) [eye4] [eye4] 0 100 200);
      try done. }
  repeat split.
  - destruct (Hpp 50%nat) as (s & Hs & Hc). exists s. split; [exact Hs|].
    clear Hs.
    change (ping_pong 0 100 2 50 (0, true)) with (100, true) in Hc.
    by injection Hc as -> ->.
  - destruct (Hpp 51%nat) as (s & Hs & Hc). exists s. split; [exact Hs|].
    clear Hs.
    change (ping_pong 0 100 2 51 (0, true)) with (98, false) in Hc.
    by injection Hc as -> ->.
  - destruct (Hpp 100%nat) as (s & Hs & Hc). exists s. split; [exact Hs|].
    clear Hs.
    change (ping_pong 0 100 2 100 (0, true)) with (0, false) in Hc.
    by injection Hc as -> ->.
Qed.

(** C4, as the code has it: with time boundaries [b0 < b1 <= b2], whenever
    the segment test of [animation_loop] selects a segment, the blend
    factor that [animation_for_loop] computes for it exists and lies in
    [0, 1], and it is the [alpha] a successful [animation_for_loop]
    leaves. *)
Theorem blend_factor_in_unit_interval `{QuaternionModule}
  (self : AnimationComponents) (key1 key2 : list mat4)
  (key3 : option (list mat4)) (b0 b1 b2 : Z) (ka kb : list mat4)
  (t0 t1 : Z) :
  time self = [b0; b1; b2] → b0 < b1 → b1 ≤ b2 →
  select_segment self key1 key2 key3 = Ok (Some (ka, kb, t0, t1)) →
  (∃ a, blend_factor (time_add self) t0 t1 = Ok a ∧ (0 <= a <= 1)%Q)
  ∧ ∀ self', animation_for_loop self ka kb t0 t1 = Ok self' →
             (0 <= alpha self' <= 1)%Q.
Proof.
  intros Ht H01 H12 Hsel.
  rewrite (select_segment_cases _ _ _ _ b0 b1 b2) in Hsel by done.
  assert (Hb : ∃ a, blend_factor (time_add self) t0 t1 = Ok a
                    ∧ (0 <= a <= 1)%Q).
  { destruct (Z.leb b0 (time_add self) && Z.leb (time_add self) b1) eqn:E1.
    - injection Hsel as <- <- <- <-.
      apply andb_true_iff in E1 as [Hlo Hhi]. apply Z.leb_le in Hlo, Hhi.
      by apply blend_factor_bounds.
    - destruct key3 as [k3|]; [|discriminate].
      destruct (Z.ltb b1 (time_add self) && Z.leb (time_add self) b2) eqn:E2;
        [|discriminate].
      injection Hsel as <- <- <- <-.
      apply andb_true_iff in E2 as [Hlo Hhi].
      apply Z.ltb_lt in Hlo. apply Z.leb_le in Hhi.
      apply blend_factor_bounds; lia. }
  split; [exact Hb|].
  intros self' Hr. apply animation_for_loop_alpha in Hr.
  destruct Hb as (a & Ha & Hbd). rewrite Ha in Hr. by injection Hr as <-.
Qed.

Lemma blend_factor_in_unit_interval_witness :
  (∃ a, blend_factor 40 0 100 = Ok a ∧ (0 <= a <= 1)%Q)
  ∧ ∀ self', @animation_for_loop stub_quaternion
               (set_time_add (AnimationComponents_default 9 109) 40)
               [eye4] [eye4] 0 100 = Ok self' →
             (0 <= alpha self' <= 1)%Q.
Proof.
  apply (@blend_factor_in_unit_interval stub_quaternion
           (set_time_add (AnimationComponents_default 9 109) 40)
           [eye4] [eye4] None 0 100 200 [eye4] [eye4] 0 100);
    [reflexivity | lia | lia | reflexivity].
Defined.

(** C4, as stated, fails: with the ordered boundaries [5, 5, 9] and the
    accumulator at 5 the segment test selects the first segment, whose
    length is zero; [animation_for_loop] then divides by zero and no blend
    factor is computed: the call of [animation_loop] raises. *)
Lemma degenerate_segment_divides_by_zero :
  time degenerate_animation = [5; 5; 9] ∧ 5 ≤ 5 ∧ 5 ≤ 9
  ∧ time_add degenerate_animation = 5
  ∧ select_segment degenerate_animation [eye4] [eye4] None
    = Ok (Some ([eye4], [eye4], 5, 5))
  ∧ blend_factor (time_add degenerate_animation) 5 5 = Raise ZeroDivisionError
  ∧ @animation_for_loop stub_quaternion degenerate_animation [eye4] [eye4] 5 5
    = Raise ZeroDivisionError
  ∧ @animation_loop stub_quaternion degenerate_animation [eye4] [eye4] None
    = Raise ZeroDivisionError.
Proof. repeat split; done. Qed.

(** ** Transform propagation *)

Lemma Entity_ind_nested (P : Entity → Prop) :
  (∀ i cs, Forall P cs → P (mkEntity i cs)) → ∀ e, P e.
Proof.
  intros Hnode. fix IH 1. intros [i cs]. apply Hnode.
  induction cs as [|c cs IHcs]; constructor; [apply IH | exact IHcs].
Qed.

Lemma eid_in_entity_ids (e : Entity) : eid e ∈ entity_ids e.
Proof. destruct e. simpl. apply list_elem_of_here. Qed.

Lemma edges_in_entity_ids (e : Entity) (p c : nat) :
  (p, c) ∈ edges e → p ∈ entity_ids e ∧ c ∈ entity_ids e.
Proof.
  revert p c. induction e as [i cs IH] using Entity_ind_nested.
  intros p c. simpl. rewrite elem_of_app, list_elem_of_fmap.
  intros [(c' & [= -> ->] & Hc') | Hin].
  - split; [apply list_elem_of_here|]. apply list_elem_of_further.
    apply list_elem_of_In, in_flat_map. exists c'.
    split; apply list_elem_of_In; [done | apply eid_in_entity_ids].
  - apply list_elem_of_In, in_flat_map in Hin as (c' & Hc' & Hin).
    apply list_elem_of_In in Hc', Hin.
    rewrite Forall_forall in IH. destruct (IH c' Hc' p c Hin) as [Hp Hc].
    split; apply list_elem_of_further, list_elem_of_In, in_flat_map;
      exists c'; split; by apply list_elem_of_In.
Qed.

Section TransformFacts.

Context {M : Type} (matmul : M → M → M).

Implicit Types (store : gmap nat (BasicTransform M)) (e : Entity).

Lemma update_l2world_fields (bt : BasicTransform M) (m : M) :
  BasicTransform_update bt {["l2world" := m]}
  = mkBasicTransform (bt_base bt) (_trs bt) m (_l2cam bt).
Proof. by destruct bt. Qed.

Lemma apply2BasicTransform_other parent0 i j store :
  i ≠ j → apply2BasicTransform matmul parent0 i store !! j = store !! j.
Proof.
  intros Hne. unfold apply2BasicTransform.
  destruct (store !! i); [|done]. by rewrite lookup_insert_ne.
Qed.

Lemma apply2BasicTransform_trs parent0 i j store :
  _trs <$> apply2BasicTransform matmul parent0 i store !! j
  = _trs <$> store !! j.
Proof.
  destruct (decide (i = j)) as [<-|Hne];
    [|by rewrite apply2BasicTransform_other].
  unfold apply2BasicTransform. destruct (store !! i) as [bt|] eqn:E.
  - rewrite lookup_insert_eq, update_l2world_fields. done.
  - by rewrite E.
Qed.

Lemma apply2BasicTransform_self parent0 i store (bt' : BasicTransform M) :
  apply2BasicTransform matmul parent0 i store !! i = Some bt' →
  _l2world bt'
  = match parent0 ≫= (λ p, store !! p) with
    | Some pbt => matmul (_l2world pbt) (_trs bt')
    | None => _trs bt'
    end.
Proof.
  unfold apply2BasicTransform. destruct (store !! i) as [bt|] eqn:E.
  - rewrite lookup_insert_eq, update_l2world_fields. intros [= <-]. done.
  - rewrite E. discriminate.
Qed.

(** The traversal of a subtree touches the components of that subtree
    only. *)
Lemma traverse_visit_other e : ∀ parent0 store j,
  j ∉ entity_ids e → traverse_visit matmul parent0 e store !! j = store !! j.
Proof.
  induction e as [i cs IH] using Entity_ind_nested.
  intros parent0 store j Hj. simpl in *.
  apply not_elem_of_cons in Hj as [Hji Hj].
  rewrite <- (apply2BasicTransform_other parent0 i j store) by done.
  generalize (apply2BasicTransform matmul parent0 i store). clear Hji.
  induction IH as [|c cs Hc _ IHcs]; intros st; simpl; [done|].
  simpl in Hj. rewrite elem_of_app in Hj.
  rewrite IHcs by tauto. apply Hc. tauto.
Qed.

(** The traversal changes no TRS and attaches or detaches nothing. *)
Lemma traverse_visit_trs e : ∀ parent0 store j,
  _trs <$> traverse_visit matmul parent0 e store !! j = _trs <$> store !! j.
Proof.
  induction e as [i cs IH] using Entity_ind_nested.
  intros parent0 store j. simpl.
  rewrite <- (apply2BasicTransform_trs parent0 i j store).
  generalize (apply2BasicTransform matmul parent0 i store).
  induction IH as [|c cs Hc _ IHcs]; intros st; simpl; [done|].
  by rewrite IHcs, Hc.
Qed.

Lemma composed_agree store store' (p c : nat) :
  store' !! p = store !! p → store' !! c = store !! c →
  composed matmul store p c → composed matmul store' p c.
Proof. unfold composed. intros -> ->. done. Qed.

(** The children of a visited entity [i], traversed in order. *)
Lemma traverse_children (i : nat) (cs : list Entity) : ∀ store,
  Forall (λ c, ∀ parent0 st,
            NoDup (entity_ids c) →
            (∀ p, parent0 = Some p → p ∉ entity_ids c) →
            traverse_visit matmul parent0 c st !! eid c
            = apply2BasicTransform matmul parent0 (eid c) st !! eid c
            ∧ ∀ p q, (p, q) ∈ edges c →
                     composed matmul (traverse_visit matmul parent0 c st) p q) cs →
  NoDup (flat_map entity_ids cs) →
  i ∉ flat_map entity_ids cs →
  let store' := fold_left (λ acc c, traverse_visit matmul (Some i) c acc)
                  cs store in
  (∀ j, j ∉ flat_map entity_ids cs → store' !! j = store !! j)
  ∧ (∀ c, c ∈ cs → composed matmul store' i (eid c))
  ∧ (∀ c p q, c ∈ cs → (p, q) ∈ edges c → composed matmul store' p q).
Proof.
  induction cs as [|c cs IHcs]; intros store Hall Hnd Hi; simpl.
  - split; [done|]. split; [intros c Hc | intros c p q Hc];
      by apply elem_of_nil in Hc.
  - apply Forall_cons in Hall as [Hc Hall]. simpl in Hnd, Hi.
    apply NoDup_app in Hnd as (Hndc & Hdisj & Hndcs).
    rewrite elem_of_app in Hi.
    destruct (Hc (Some i) store Hndc) as [Hself Hedges].
    { intros p [= <-]. tauto. }
    set (st2 := traverse_visit matmul (Some i) c store) in *.
    destruct (IHcs st2 Hall Hndcs) as (Hframe & Hkids & Hsub); [tauto|].
    assert (Hkeep : ∀ j, j ∈ entity_ids c →
              fold_left (λ acc c0, traverse_visit matmul (Some i) c0 acc)
                cs st2 !! j = st2 !! j).
    { intros j Hj. apply Hframe, Hdisj, Hj. }
    split; [|split].
    + intros j Hj. rewrite elem_of_app in Hj. rewrite Hframe by tauto.
      apply traverse_visit_other. tauto.
    + intros c' Hc'. apply elem_of_cons in Hc' as [-> | Hc']; [|by apply Hkids].
      intros btp btc Hp Hq.
      rewrite Hframe in Hp by tauto.
      unfold st2 in Hp. rewrite traverse_visit_other in Hp by tauto.
      rewrite Hkeep in Hq by apply eid_in_entity_ids.
      rewrite Hself in Hq.
      apply apply2BasicTransform_self in Hq. simpl in Hq.
      by rewrite Hp in Hq.
    + intros c' p q Hc' Hpq.
      apply elem_of_cons in Hc' as [-> | Hc']; [|by eapply Hsub].
      destruct (edges_in_entity_ids c p q Hpq) as [Hp Hq].
      eapply composed_agree; [by apply Hkeep | by apply Hkeep | by apply Hedges].
Qed.

(** After the traversal of a subtree its root holds what the transform
    system wrote when it visited it, and every parent-child pair of the
    subtree is composed. *)
Lemma traverse_visit_composed e : ∀ parent0 store,
  NoDup (entity_ids e) →
  (∀ p, parent0 = Some p → p ∉ entity_ids e) →
  traverse_visit matmul parent0 e store !! eid e
  = apply2BasicTransform matmul parent0 (eid e) store !! eid e
  ∧ ∀ p q, (p, q) ∈ edges e →
           composed matmul (traverse_visit matmul parent0 e store) p q.
Proof.
  induction e as [i cs IH] using Entity_ind_nested.
  intros parent0 store Hnd Hpar. simpl in *.
  apply NoDup_cons in Hnd as [Hi Hnd].
  destruct (traverse_children i cs
              (apply2BasicTransform matmul parent0 i store) IH Hnd Hi)
    as (Hframe & Hkids & Hsub).
  split; [by apply Hframe|].
  intros p q. rewrite elem_of_app, list_elem_of_fmap.
  intros [(c & [= -> ->] & Hc) | Hin].
  - by apply Hkids.
  - apply list_elem_of_In, in_flat_map in Hin as (c & Hc & Hin).
    apply list_elem_of_In in Hc, Hin. by eapply Hsub.
Qed.

End TransformFacts.

(** C1: after one full pre-order traversal of a tree of distinct entities,
    the local-to-world matrix of the root's Transform is the root's TRS,
    and for every entity E with parent P, both carrying a Transform, the
    local-to-world matrix of E is the product of the local-to-world matrix
    of P and the TRS of E; the traversal changes no TRS and attaches or
    detaches no Transform. *)
Theorem transform_propagation (M : Type) (matmul : M → M → M)
  (root : Entity) (store : gmap nat (BasicTransform M)) :
  NoDup (entity_ids root) →
  let store' := traverse_visit matmul None root store in
  (∀ i, _trs <$> store' !! i = _trs <$> store !! i)
  ∧ (∀ bt, store' !! eid root = Some bt → _l2world bt = _trs bt)
  ∧ (∀ p e btp bte,
       (p, e) ∈ edges root →
       store' !! p = Some btp → store' !! e = Some bte →
       _l2world bte = matmul (_l2world btp) (_trs bte)).
Proof.
  intros Hnd store'.
  destruct (traverse_visit_composed matmul root None store Hnd)
    as [Hroot Hedges]; [discriminate|].
  split; [|split].
  - intros i. apply traverse_visit_trs.
  - intros bt Hbt. unfold store' in Hbt. rewrite Hroot in Hbt.
    by apply apply2BasicTransform_self in Hbt.
  - intros p e btp bte Hin. by apply Hedges.
Qed.

Lemma transform_propagation_witness :
  let store' := traverse_visit zmatmul None example_tree example_store in
  (∀ i, _trs <$> store' !! i = _trs <$> example_store !! i)
  ∧ (∀ bt, store' !! eid example_tree = Some bt → _l2world bt = _trs bt)
  ∧ (∀ p e btp bte,
       (p, e) ∈ edges example_tree →
       store' !! p = Some btp → store' !! e = Some bte →
       _l2world bte = zmatmul (_l2world btp) (_trs bte)).
Proof.
  apply (transform_propagation zmat zmatmul example_tree example_store).
  apply (bool_decide_unpack _). vm_compute. exact I.
Defined.

(** The end-to-end example of the spec: root R; child A with local TRS
    translate(0,0,-8); child B of A with the identity TRS. After the
    traversal both A and B have translate(0,0,-8) as local-to-world. *)
Example end_to_end_example :
  let store' := traverse_visit zmatmul None example_tree example_store in
  _l2world <$> store' !! 1%nat = Some (ztranslate 0 0 (-8))
  ∧ _l2world <$> store' !! 2%nat = Some (ztranslate 0 0 (-8))
  ∧ store' !! 0%nat = None.
Proof. repeat split. Qed.

(** ** The pose loop at the ends of a segment *)

Section PoseLoop.

Context `{QuaternionModule}.

Lemma Keyframe_rotate_lookup (k : list mat4) (i : nat) (m : mat4) :
  k !! i = Some m →
  py_index (Keyframe_rotate (Keyframe_array_MM_arg (Some [k]))) i
  = Ok (from_rotation_matrix m).
Proof.
  intros Hk. unfold py_index, Keyframe_rotate. simpl. rewrite app_nil_r.
  change (map from_rotation_matrix k) with (from_rotation_matrix <$> k).
  by rewrite list_lookup_fmap, Hk.
Qed.

Lemma Keyframe_translate_lookup (k : list mat4) (i : nat) (m : mat4) :
  k !! i = Some m →
  py_index (Keyframe_translate (Keyframe_array_MM_arg (Some [k]))) i
  = Ok (get_col3 m).
Proof.
  intros Hk. unfold py_index, Keyframe_translate. simpl. rewrite app_nil_r.
  change (map get_col3 k) with (get_col3 <$> k).
  by rewrite list_lookup_fmap, Hk.
Qed.

Lemma animation_for_loop_body_exact (self : AnimationComponents)
  (k_1 k_2 : list mat4) (i : nat) (m1 m2 m : mat4) :
  k_1 !! i = Some m1 → k_2 !! i = Some m2 → MM self !! i = Some m →
  animation_for_loop_body self (Keyframe_array_MM_arg (Some [k_1]))
    (Keyframe_array_MM_arg (Some [k_2])) i
  = Ok (set_MM self
          (<[i := blended_pose (inter self) (alpha self) m1 m2 m]> (MM self))).
Proof.
  intros H1 H2 Hm. unfold animation_for_loop_body.
  rewrite (Keyframe_rotate_lookup k_1 i m1 H1),
    (Keyframe_rotate_lookup k_2 i m2 H2).
  cbn [rbind].
  assert (Hm' : py_index (MM self) i = Ok m)
    by (unfold py_index; by rewrite Hm).
  rewrite Hm'. cbn [rbind].
  rewrite (Keyframe_translate_lookup k_1 i m1 H1),
    (Keyframe_translate_lookup k_2 i m2 H2).
  cbn [rbind].
  assert (Hi : (i < length (MM self))%nat) by (eapply lookup_lt_Some; eauto).
  unfold py_index at 1. cbn [MM set_MM].
  rewrite list_lookup_insert_eq by done. cbn [rbind].
  rewrite list_insert_insert_eq. unfold blended_pose. simpl.
  by destruct (String.eqb (inter self) "LERP").
Qed.

Lemma for_range_poses (k_1 k_2 : list mat4) (n : nat) :
  ∀ (j : nat) (self : AnimationComponents),
  (j + n ≤ length k_1)%nat → (j + n ≤ length k_2)%nat →
  (j + n ≤ length (MM self))%nat →
  ∃ mm, for_range (λ s i, animation_for_loop_body s
                            (Keyframe_array_MM_arg (Some [k_1]))
                            (Keyframe_array_MM_arg (Some [k_2])) i)
          (seq j n) self = Ok (set_MM self mm)
        ∧ length mm = length (MM self)
        ∧ ∀ i, mm !! i
               = if bool_decide (j ≤ i < j + n)%nat
                 then m1 ← k_1 !! i; m2 ← k_2 !! i; m ← MM self !! i;
                      Some (blended_pose (inter self) (alpha self) m1 m2 m)
                 else MM self !! i.
Proof.
  induction n as [|n IH]; intros j self H1 H2 Hm.
  - exists (MM self). split; [simpl; by destruct self|]. split; [done|].
    intros i. rewrite bool_decide_eq_false_2 by lia. done.
  - destruct (lookup_lt_is_Some_2 k_1 j ltac:(lia)) as [m1 E1].
    destruct (lookup_lt_is_Some_2 k_2 j ltac:(lia)) as [m2 E2].
    destruct (lookup_lt_is_Some_2 (MM self) j ltac:(lia)) as [m Em].
    cbn [seq for_range].
    rewrite (animation_for_loop_body_exact self k_1 k_2 j m1 m2 m E1 E2 Em).
    cbn [rbind].
    set (p := blended_pose (inter self) (alpha self) m1 m2 m).
    destruct (IH (S j) (set_MM self (<[j := p]> (MM self))))
      as (mm & -> & Hlen & Hmm);
      [lia | lia | simpl; rewrite length_insert; lia |].
    exists mm. split; [reflexivity|].
    split; [simpl in Hlen; by rewrite length_insert in Hlen|].
    intros i. rewrite Hmm. simpl.
    destruct (decide (i = j)) as [-> | Hne].
    + rewrite bool_decide_eq_false_2, bool_decide_eq_true_2 by lia.
      rewrite list_lookup_insert_eq by (eapply lookup_lt_Some; eauto).
      by rewrite E1, E2, Em.
    + rewrite list_lookup_insert_ne by done.
      destruct (decide (S j ≤ i < S j + n)%nat).
      * by rewrite !bool_decide_eq_true_2 by lia.
      * by rewrite !bool_decide_eq_false_2 by lia.
Qed.

Lemma blend_factor_endpoint (t0 t1 : Z) (at_end : bool) :
  t0 < t1 →
  ∃ a, blend_factor (if at_end then t1 else t0) t0 t1 = Ok a
       ∧ (a == if at_end then 1 else 0)%Q.
Proof.
  intros Hlt. unfold blend_factor.
  rewrite (Z.abs_eq (t1 - t0)) by lia.
  rewrite (proj2 (Z.eqb_neq (t1 - t0) 0)) by lia.
  eexists. split; [reflexivity|]. destruct at_end.
  - apply Qmult_inv_r. unfold Qeq. simpl. lia.
  - rewrite Z.sub_diag. unfold Qdiv. apply Qmult_0_l.
Qed.

Lemma lerp_endpoint (a b : vec3) (t : Q) (at_end : bool) :
  (t == if at_end then 1 else 0)%Q →
  veq (lerp a b t) (if at_end then b else a).
Proof.
  intros Ht. unfold veq, lerp. simpl.
  destruct at_end; repeat split; rewrite Ht; ring.
Qed.

Lemma get_col3_blended_pose (inter0 : string) (a : Q) (m1 m2 m : mat4) :
  get_col3 (blended_pose inter0 a m1 m2 m)
  = lerp (get_col3 m1) (get_col3 m2) a.
Proof. reflexivity. Qed.

Lemma get_rot_blended_pose (inter0 : string) (a : Q) (m1 m2 m : mat4) :
  get_rot (blended_pose inter0 a m1 m2 m)
  = to_rotation_matrix
      ((if String.eqb inter0 "LERP" then quaternion_lerp
        else quaternion_slerp)
         (from_rotation_matrix m1) (from_rotation_matrix m2) a).
Proof.
  unfold blended_pose.
  destruct (String.eqb inter0 "LERP"); cbv zeta;
    match goal with |- context [to_rotation_matrix ?q] =>
      destruct (to_rotation_matrix q) as [[? ? ?] [? ? ?] [? ? ?]] end;
    reflexivity.
Qed.

(** C5, as the code has it: on a segment [t0 < t1], with [k_2] and [MM]
    at least as long as [k_1], [animation_for_loop] returns normally; with
    the accumulator at the segment start alpha is 0 and the translation
    column of every pose written to [MM] is keyframe 1's, with the
    accumulator at the segment end alpha is 1 and it is keyframe 2's, as
    numbers and in both interpolation modes, whatever the quaternion
    module. The rotation block written is [to_rotation_matrix] of the
    interpolation, in the mode chosen, of the two keyframes' quaternions
    at alpha; it is the rotation block of that keyframe as soon as the
    quaternion module's interpolations return their first argument at 0
    and their second at 1 and the conversion to a quaternion and back
    keeps the rotation block of the keyframe pose. *)
Theorem pose_interpolation_endpoints (self : AnimationComponents)
  (k_1 k_2 : list mat4) (t0 t1 : Z) (at_end : bool) :
  t0 < t1 →
  time_add self = (if at_end then t1 else t0) →
  (length k_1 ≤ length k_2)%nat → (length k_1 ≤ length (MM self))%nat →
  ∃ self',
    animation_for_loop self k_1 k_2 t0 t1 = Ok self'
    ∧ (alpha self' == if at_end then 1 else 0)%Q
    ∧ ∀ i m1 m2 m,
        k_1 !! i = Some m1 → k_2 !! i = Some m2 → MM self !! i = Some m →
        ∃ pose,
          MM self' !! i = Some pose
          ∧ veq (get_col3 pose) (get_col3 (if at_end then m2 else m1))
          ∧ get_rot pose
            = to_rotation_matrix
                ((if String.eqb (inter self) "LERP" then quaternion_lerp
                  else quaternion_slerp)
                   (from_rotation_matrix m1) (from_rotation_matrix m2)
                   (alpha self'))
          ∧ (interpolation_hits_endpoints →
             rotation_round_trip (if at_end then m2 else m1) →
             meq (get_rot pose) (get_rot (if at_end then m2 else m1))).
Proof.
  intros Hlt Hta H2 Hm. unfold animation_for_loop. rewrite Hta.
  destruct (blend_factor_endpoint t0 t1 at_end Hlt) as (a & -> & Ha).
  cbn [rbind].
  destruct (for_range_poses k_1 k_2 (length k_1) 0 (set_alpha self a))
    as (mm & -> & Hlen & Hmm); [simpl; lia | simpl; lia | simpl; lia |].
  eexists. split; [reflexivity|]. split; [exact Ha|].
  intros i m1 m2 m E1 E2 Em. cbn [MM set_MM alpha set_alpha].
  exists (blended_pose (inter self) a m1 m2 m). split.
  { rewrite Hmm.
    rewrite bool_decide_eq_true_2
      by (split; [lia | simpl; eapply lookup_lt_Some; eauto]).
    simpl. by rewrite E1, E2, Em. }
  split.
  { rewrite get_col3_blended_pose.
    pose proof (lerp_endpoint (get_col3 m1) (get_col3 m2) a at_end Ha) as L.
    by destruct at_end. }
  split; [apply get_rot_blended_pose|].
  intros Hq Hrt. rewrite get_rot_blended_pose.
  destruct (Hq (from_rotation_matrix m1) (from_rotation_matrix m2) a)
    as [H0 H1].
  destruct at_end.
  - destruct (H1 Ha) as [El Es].
    destruct (String.eqb (inter self) "LERP");
      [rewrite El | rewrite Es]; exact Hrt.
  - destruct (H0 Ha) as [El Es].
    destruct (String.eqb (inter self) "LERP");
      [rewrite El | rewrite Es]; exact Hrt.
Qed.

End PoseLoop.

Lemma endpoint_quaternion_laws :
  @interpolation_hits_endpoints endpoint_quaternion
  ∧ ∀ m, @rotation_round_trip endpoint_quaternion m.
Proof.
  split.
  - intros q1 q2 t. simpl. split; intros Ht.
    + by rewrite (proj2 (Qeq_bool_iff t 0) Ht).
    + destruct (Qeq_bool t 0) eqn:E; [|done].
      apply Qeq_bool_iff in E. rewrite E in Ht. discriminate Ht.
  - intros m. unfold rotation_round_trip, meq, veq. simpl.
    repeat split; reflexivity.
Qed.

Lemma pose_interpolation_endpoints_witness :
  ∃ self',
    @animation_for_loop endpoint_quaternion
      (set_MM (set_time_add (AnimationComponents_default 9 109) 100) [eye4])
      [eye4] [quarter_turn] 0 100 = Ok self'
    ∧ (alpha self' == 1)%Q
    ∧ ∃ pose,
        MM self' !! 0%nat = Some pose
        ∧ veq (get_col3 pose) (get_col3 quarter_turn)
        ∧ meq (get_rot pose) (get_rot quarter_turn).
Proof.
  destruct (@pose_interpolation_endpoints endpoint_quaternion
              (set_MM (set_time_add (AnimationComponents_default 9 109) 100)
                 [eye4])
              [eye4] [quarter_turn] 0 100 true)
    as (self' & E & Ha & Hp); [lia | reflexivity | simpl; lia | simpl; lia |].
  exists self'. split; [exact E|]. split; [exact Ha|].
  destruct (Hp 0%nat eye4 quarter_turn eye4 eq_refl eq_refl eq_refl)
    as (pose & Ep & Ht & _ & Hr).
  exists pose. split; [exact Ep|]. split; [exact Ht|].
  apply Hr; apply endpoint_quaternion_laws.
Defined.

(** C5, as stated, fails. Not every pair of keyframe pose arrays will do:
    a second keyframe with fewer bones than the first makes
    [animation_for_loop] raise [IndexError], whatever the quaternion
    module. And nothing in [animation_for_loop] makes the rotation come
    out as the keyframe's: with a quaternion module whose interpolations
    return their first argument, the pose written with the accumulator at
    the segment end (alpha = 1) has keyframe 2's translation but keyframe
    1's rotation, not keyframe 2's. *)
Lemma endpoint_rotation_left_to_quaternion_module :
  (∀ quat : QuaternionModule,
     @animation_for_loop quat
       (set_MM (AnimationComponents_default 9 109) [eye4; eye4])
       [eye4; eye4] [eye4] 0 100 = Raise IndexError)
  ∧ ∃ self' pose,
      @animation_for_loop stub_quaternion
        (set_MM (set_time_add (AnimationComponents_default 9 109) 100) [eye4])
        [eye4] [quarter_turn] 0 100 = Ok self'
      ∧ (alpha self' == 1)%Q
      ∧ MM self' !! 0%nat = Some pose
      ∧ veq (get_col3 pose) (get_col3 quarter_turn)
      ∧ get_rot pose = get_rot eye4
      ∧ ¬ meq (get_rot pose) (get_rot quarter_turn).
Proof.
  split.
  - intros quat. reflexivity.
  - eexists _, _. split; [vm_compute; reflexivity|].
    split; [by vm_compute|]. split; [reflexivity|].
    split; [by vm_compute|]. split; [reflexivity|].
    intros [[E _] _]. vm_compute in E. discriminate E.
Qed.

(** * Further properties of the sources *)

(** ** Line strips and coordinate formats *)

Lemma fold_left_duplicate {A} (l : list A) (acc : list A) :
  fold_left (λ vs coord, vs ++ [coord; coord]) l acc
  = acc ++ flat_map (λ c, [c; c]) l.
Proof.
  revert acc. induction l as [|c l IH]; intros acc; simpl.
  - by rewrite app_nil_r.
  - rewrite IH, <- app_assoc. done.
Qed.

Lemma line_vertices_zip {A} (a : A) (t : list A) :
  t ≠ [] →
  [a] ++ flat_map (λ c, [c; c]) (take (length t - 1) t)
      ++ match last t with Some b => [b] | None => [] end
  = flat_map (λ p, [p.1; p.2]) (zip (a :: t) t).
Proof.
  revert a. induction t as [|b t IH]; intros a Hne; [done|].
  destruct t as [|b' t'].
  - reflexivity.
  - specialize (IH b ltac:(done)).
    replace (length (b :: b' :: t') - 1)%nat with (S (length (b' :: t') - 1))
      by (simpl; lia).
    rewrite firstn_cons. simpl flat_map at 1.
    change (last (b :: b' :: t')) with (last (b' :: t')).
    simpl zip. simpl flat_map at 2. simpl in IH |- *.
    by rewrite <- IH.
Qed.

Lemma lookup_flat_map_pairs {A B} (p q : A → B) (l : list A) (i : nat) :
  flat_map (λ a, [p a; q a]) l !! (2 * i)%nat = p <$> l !! i
  ∧ flat_map (λ a, [p a; q a]) l !! (2 * i + 1)%nat = q <$> l !! i.
Proof.
  revert i. induction l as [|a l IH]; intros i; [done|].
  destruct i as [|i]; [done|].
  replace (2 * S i)%nat with (S (S (2 * i))) by lia.
  replace (S (S (2 * i)) + 1)%nat with (S (S (2 * i + 1))) by lia.
  simpl. apply IH.
Qed.

Lemma vertices_to_line_vertices_zip {A} (coordinates : list A) :
  (2 ≤ length coordinates)%nat →
  vertices_to_line_vertices coordinates
  = Ok (flat_map (λ p, [p.1; p.2]) (zip coordinates (drop 1 coordinates))).
Proof.
  intros Hlen. destruct coordinates as [|a t]; [simpl in Hlen; lia|].
  assert (Hne : t ≠ []) by (destruct t; [simpl in Hlen; lia | done]).
  unfold vertices_to_line_vertices, py_last.
  change (py_index (a :: t) 0) with (Ok a). cbn [rbind].
  replace (length (a :: t) - 2)%nat with (length t - 1)%nat by (simpl; lia).
  change (drop 1 (a :: t)) with t. rewrite fold_left_duplicate.
  assert (Hlast : last (a :: t) = last t) by (destruct t; done).
  rewrite Hlast.
  pose proof (line_vertices_zip a t Hne) as Hz.
  destruct (last t) as [b|] eqn:Eb.
  2:{ apply last_None in Eb. done. }
  cbn [rbind]. by rewrite <- app_assoc, Hz.
Qed.

(** X1: [vertices_to_line_vertices] turns n >= 2 points into the n - 1
    segments of the polyline through them: vertex 2i is point i and vertex
    2i+1 is point i+1, for every i < n - 1; no segment is left out. *)
Theorem line_vertices_join_consecutive_points {A} (coordinates : list A) :
  (2 ≤ length coordinates)%nat →
  ∃ vertices,
    vertices_to_line_vertices coordinates = Ok vertices
    ∧ length vertices = (2 * (length coordinates - 1))%nat
    ∧ ∀ i, (i < length coordinates - 1)%nat →
           vertices !! (2 * i)%nat = coordinates !! i
           ∧ vertices !! (2 * i + 1)%nat = coordinates !! (i + 1)%nat.
Proof.
  intros Hlen. rewrite vertices_to_line_vertices_zip by done.
  eexists. split; [reflexivity|]. split.
  - rewrite length_flat_map_pairs, length_zip, length_drop. lia.
  - intros i Hi.
    destruct (lookup_flat_map_pairs (λ p : A * A, p.1) (λ p, p.2)
                (zip coordinates (drop 1 coordinates)) i) as [-> ->].
    destruct (lookup_lt_is_Some_2 coordinates i ltac:(lia)) as [x Hx].
    destruct (lookup_lt_is_Some_2 coordinates (i + 1) ltac:(lia)) as [y Hy].
    rewrite (proj2 (lookup_zip_with_Some pair coordinates
                      (drop 1 coordinates) i (x, y))).
    + by rewrite Hx, Hy.
    + exists x, y. rewrite lookup_drop.
      replace (1 + i)%nat with (i + 1)%nat by lia. done.
Qed.

Lemma line_vertices_join_consecutive_points_witness :
  ∃ vertices,
    vertices_to_line_vertices [1; 2; 3]%Z = Ok vertices
    ∧ length vertices = (2 * (length [1; 2; 3]%Z - 1))%nat
    ∧ ∀ i, (i < length [1; 2; 3]%Z - 1)%nat →
           vertices !! (2 * i)%nat = [1; 2; 3]%Z !! i
           ∧ vertices !! (2 * i + 1)%nat = [1; 2; 3]%Z !! (i + 1)%nat.
Proof. apply line_vertices_join_consecutive_points. simpl. lia. Defined.

Lemma coordinate_column_raises (k : nat) (coordinates : list (list Q)) :
  (∃ col, coordinate_column k coordinates = Ok col)
  ∨ coordinate_column k coordinates = Raise IndexError.
Proof.
  induction coordinates as [|c cs IH]; simpl; [left; by eexists|].
  unfold py_index. destruct (c !! k); simpl; [|by right].
  destruct IH as [[col ->] | ->]; simpl; [left; by eexists | by right].
Qed.

Lemma coordinate_column_short (k : nat) (coordinates : list (list Q)) :
  Exists (λ c, length c ≤ k)%nat coordinates →
  coordinate_column k coordinates = Raise IndexError.
Proof.
  induction 1 as [c cs Hc | c cs _ IH]; simpl; unfold py_index.
  - by rewrite (lookup_ge_None_2 c k Hc).
  - destruct (c !! k); simpl; [|done]. by rewrite IH.
Qed.

(** X2: Round trip of the two coordinate formats: on coordinates with at
    least three entries each, [separate_coordinates] returns normally and
    [combine_coordinates] gives back the first three entries of every
    coordinate, in order (the coordinates themselves when they have exactly
    three entries). *)
Theorem combine_separate_coordinates (coordinates : list (list Q)) :
  Forall (λ c, 3 ≤ length c)%nat coordinates →
  ∃ separated,
    separate_coordinates coordinates = Ok separated
    ∧ combine_coordinates separated = Ok (map (take 3) coordinates)
    ∧ Forall (λ row, length row = length coordinates) separated.
Proof.
  intros H. unfold separate_coordinates.
  assert (∃ xs ys zs,
            coordinate_column 0 coordinates = Ok xs
            ∧ coordinate_column 1 coordinates = Ok ys
            ∧ coordinate_column 2 coordinates = Ok zs
            ∧ map (λ coord : Q * Q * Q, [coord.1.1; coord.1.2; coord.2])
                (zip3 xs ys zs) = map (take 3) coordinates
            ∧ length xs = length coordinates
            ∧ length ys = length coordinates
            ∧ length zs = length coordinates)
    as (xs & ys & zs & -> & -> & -> & Hzip & Hx & Hy & Hz).
  { induction H as [|c cs Hc _ IH].
    - exists [], [], []. done.
    - destruct IH as (xs & ys & zs & Ex & Ey & Ez & Hzip & Hx & Hy & Hz).
      destruct c as [|a [|b [|d rest]]]; simpl in Hc; try lia.
      exists (a :: xs), (b :: ys), (d :: zs). simpl.
      rewrite Ex, Ey, Ez, Hzip, Hx, Hy, Hz. done. }
  cbn [rbind]. eexists. split; [reflexivity|].
  split; [by rewrite <- Hzip | by repeat constructor].
Qed.

Lemma combine_separate_coordinates_witness :
  ∃ separated,
    separate_coordinates [[0; 0; 0]; [1; 2; 3]]%Q = Ok separated
    ∧ combine_coordinates separated
      = Ok (map (take 3) [[0; 0; 0]; [1; 2; 3]]%Q)
    ∧ Forall (λ row, length row = length [[0; 0; 0]; [1; 2; 3]]%Q) separated.
Proof.
  apply combine_separate_coordinates. repeat constructor.
Defined.

(** X3: A coordinate with fewer than three entries makes
    [separate_coordinates] raise [IndexError]. *)
Theorem separate_coordinates_short (coordinates : list (list Q)) :
  Exists (λ c, length c < 3)%nat coordinates →
  separate_coordinates coordinates = Raise IndexError.
Proof.
  intros H. unfold separate_coordinates.
  assert (H2 : coordinate_column 2 coordinates = Raise IndexError).
  { apply coordinate_column_short. eapply Exists_impl; [exact H|].
    simpl. lia. }
  destruct (coordinate_column_raises 0 coordinates) as [[xs ->] | ->];
    [|done].
  destruct (coordinate_column_raises 1 coordinates) as [[ys ->] | ->];
    [|done].
  by rewrite H2.
Qed.

Lemma separate_coordinates_short_witness :
  separate_coordinates [[0; 0; 0]; [1; 2]]%Q = Raise IndexError.
Proof.
  apply separate_coordinates_short.
  apply Exists_cons_tl, Exists_cons_hd. simpl. lia.
Defined.

(** ** The mesh invariant in the feature code *)

Lemma index_range_in_range (n : nat) :
  forallb (λ i, Z.leb 0 i && Z.ltb i (Z.of_nat n)) (index_range n) = true.
Proof.
  apply forallb_forall. intros i Hi. unfold index_range in Hi.
  apply in_map_iff in Hi as (k & <- & Hk). apply in_seq in Hk.
  apply andb_true_iff. split; [apply Z.leb_le | apply Z.ltb_lt]; lia.
Qed.

Lemma fill_mesh_invariant (self : nat) (uuid1 : Z) (name : string)
  (vertices colors : array) :
  length colors = length vertices →
  same_row_count
    (_vertex_attributes
       (fill_mesh self uuid1 name vertices colors
          (index_range (length vertices)))) = true
  ∧ indices_in_range
      (fill_mesh self uuid1 name vertices colors
         (index_range (length vertices))) = true.
Proof.
  intros Hlen. unfold fill_mesh, indices_in_range. simpl.
  rewrite Hlen, Nat.eqb_refl, index_range_in_range. done.
Qed.

Lemma plot2d_segment_exn_ok (x y : list Q) (i : nat) :
  length y = length x → (i + 1 < length x)%nat →
  ∃ xi yi xj yj,
    plot2d_segment_exn x (NdArray y) i
    = Returns [[xi; yi; 0%Q; 1%Q]; [xj; yj; 0%Q; 1%Q]].
Proof.
  intros Hy Hi. unfold plot2d_segment_exn, subscript.
  destruct (py_index_lt x i) as [xi ->]; [lia|].
  destruct (py_index_lt y i) as [yi ->]; [lia|].
  destruct (py_index_lt x (i + 1)) as [xj ->]; [lia|].
  destruct (py_index_lt y (i + 1)) as [yj ->]; [lia|].
  by exists xi, yi, xj, yj.
Qed.

Lemma plot2d_loop_exn_ok (x y : list Q) (idx : list nat) (acc : array) :
  length y = length x → Forall (λ i, i + 1 < length x)%nat idx →
  ∃ segs,
    plot2d_loop_exn x (NdArray y) idx acc = Returns (acc ++ segs)
    ∧ length segs = (2 * length idx)%nat.
Proof.
  intros Hy H. revert acc. induction H as [|i idx Hi _ IH]; intros acc.
  - exists []. by rewrite app_nil_r.
  - destruct (plot2d_segment_exn_ok x y i Hy Hi) as (xi & yi & xj & yj & E).
    cbn [plot2d_loop_exn]. rewrite E. cbn [obind].
    destruct (IH (acc ++ [[xi; yi; 0%Q; 1%Q]; [xj; yj; 0%Q; 1%Q]]))
      as (segs & -> & Hlen).
    exists ([[xi; yi; 0%Q; 1%Q]; [xj; yj; 0%Q; 1%Q]] ++ segs).
    rewrite app_assoc. split; [done|]. simpl. lia.
Qed.

Lemma generate_plot2d_data_exn_total (plot_boundaries : Q * Q * Q * Q)
  (func_detail : Z) (f_x : list Q → pyvalue) :
  (∀ x, ∃ y, f_x x = NdArray y ∧ length y = length x) →
  0 ≤ func_detail →
  ∃ vertices,
    generate_plot2d_data_exn plot_boundaries func_detail f_x
    = Returns (vertices,
               constant_colors [(5 # 10)%Q; 0%Q; 1%Q; 1%Q] (length vertices),
               index_range (length vertices))
    ∧ length vertices = (2 * (Z.to_nat func_detail - 2))%nat.
Proof.
  intros Hf Hn. destruct plot_boundaries as [[[b0 b1] b2] b3].
  unfold generate_plot2d_data_exn, np_linspace.
  rewrite (proj2 (Z.ltb_ge func_detail 0)) by lia. cbn [obind].
  set (x := linspace b0 b1 (Z.to_nat func_detail)).
  assert (Hx : length x = Z.to_nat func_detail)
    by (unfold x, linspace; by rewrite length_map, length_seq).
  destruct (Hf x) as (y & -> & Hy).
  destruct (plot2d_loop_exn_ok x y (seq 0 (length x - 2)) [] Hy)
    as (segs & -> & Hlen).
  { apply Forall_forall. intros i Hi. apply elem_of_seq in Hi. lia. }
  cbn [obind app]. exists segs. split; [reflexivity|].
  by rewrite Hlen, length_seq, Hx.
Qed.

(** X7: The mesh that [render_2d_plot] fills, for an expression whose value
    is an array with one entry per sample, and every integer
    [func_detail = n]: a negative [n] makes [np.linspace] raise
    [ValueError]; for every [n >= 0], also below the 4 the GUI clamps to,
    the function returns normally with [2 * (n-2)] vertex rows (none for
    n <= 2), vertices and colors have the same number of rows and every
    index refers to a vertex row. *)
Theorem render_2d_plot_mesh_invariant (self : nat) (uuid1 : Z)
  (plot_boundaries : Q * Q * Q * Q) (func_detail : Z)
  (f_x : list Q → pyvalue) :
  (∀ x, ∃ y, f_x x = NdArray y ∧ length y = length x) →
  if Z.ltb func_detail 0
  then render_2d_plot_mesh self uuid1 plot_boundaries func_detail f_x
       = Raises ValueError
  else
    ∃ mesh vertices colors,
      render_2d_plot_mesh self uuid1 plot_boundaries func_detail f_x
      = Returns mesh
      ∧ _vertex_attributes mesh = [vertices; colors]
      ∧ length vertices = (2 * (Z.to_nat func_detail - 2))%nat
      ∧ same_row_count (_vertex_attributes mesh) = true
      ∧ indices_in_range mesh = true.
Proof.
  intros Hf. destruct (Z.ltb func_detail 0) eqn:Hn.
  - destruct plot_boundaries as [[[b0 b1] b2] b3].
    unfold render_2d_plot_mesh, generate_plot2d_data_exn, np_linspace.
    by rewrite Hn.
  - apply Z.ltb_ge in Hn. unfold render_2d_plot_mesh.
    destruct (generate_plot2d_data_exn_total plot_boundaries func_detail f_x
                Hf Hn) as (vertices & -> & Hlen).
    cbn [obind fst snd]. eexists _, _, _. split; [reflexivity|].
    split; [reflexivity|]. split; [exact Hlen|].
    apply (fill_mesh_invariant self uuid1 "plotting2d_mesh" vertices).
    apply repeat_length.
Qed.

Lemma render_2d_plot_mesh_invariant_witness :
  ∃ mesh vertices colors,
    render_2d_plot_mesh 4 104 (-1, 1, -1, 1)%Q 6
      (λ x, NdArray (map (λ v, v * v)%Q x))
    = Returns mesh
    ∧ _vertex_attributes mesh = [vertices; colors]
    ∧ length vertices = 8%nat
    ∧ same_row_count (_vertex_attributes mesh) = true
    ∧ indices_in_range mesh = true.
Proof.
  apply (render_2d_plot_mesh_invariant 4 104 (-1, 1, -1, 1)%Q 6
           (λ x, NdArray (map (λ v, v * v)%Q x))).
  intros x. exists (map (λ v, v * v)%Q x). split; [reflexivity|].
  apply length_map.
Defined.

(** ** The bezier curve data *)

Lemma separate_coordinates_ok (coordinates : list (list Q)) :
  Forall (λ c, 3 ≤ length c)%nat coordinates →
  ∃ xs ys zs,
    separate_coordinates coordinates = Ok [xs; ys; zs]
    ∧ length xs = length coordinates
    ∧ length ys = length coordinates
    ∧ length zs = length coordinates.
Proof.
  intros H. unfold separate_coordinates.
  assert (∀ k, (k < 3)%nat →
            ∃ col, coordinate_column k coordinates = Ok col
                   ∧ length col = length coordinates) as Hcol.
  { intros k Hk. induction H as [|c cs Hc _ IH]; [by exists []|].
    destruct IH as (col & E & Hl). simpl. unfold py_index.
    destruct (lookup_lt_is_Some_2 c k ltac:(lia)) as [v ->]. simpl.
    rewrite E. simpl. exists (v :: col). simpl. by rewrite Hl. }
  destruct (Hcol 0%nat ltac:(lia)) as (xs & -> & Hx).
  destruct (Hcol 1%nat ltac:(lia)) as (ys & -> & Hy).
  destruct (Hcol 2%nat ltac:(lia)) as (zs & -> & Hz).
  exists xs, ys, zs. done.
Qed.

Lemma length_zip3 {A} (a b c : list A) :
  length b = length a → length c = length a →
  length (zip3 a b c) = length a.
Proof.
  revert b c. induction a as [|x a IH]; intros [|y b] [|z c]; simpl;
    try done. intros [= Hb] [= Hc]. by rewrite IH.
Qed.

Lemma xyz_to_vertices_rows (coords : list (list Q)) :
  Forall (λ c, length c = 3%nat) coords →
  Forall (λ v, length v = 4%nat ∧ v !! 3%nat = Some 1%Q)
    (xyz_to_vertices coords).
Proof.
  intros H. unfold xyz_to_vertices. apply List.Forall_map.
  eapply Forall_impl; [exact H|]. simpl. intros c Hc.
  destruct c as [|a [|b [|d [|e rest]]]]; simpl in Hc; try lia. done.
Qed.

Lemma Forall_line_vertices {A} (P : A → Prop) (coordinates : list A) :
  Forall P coordinates →
  Forall P (flat_map (λ p, [p.1; p.2])
              (zip coordinates (drop 1 coordinates))).
Proof.
  intros H. rewrite Forall_forall in H. apply Forall_forall. intros v Hv.
  apply list_elem_of_In, in_flat_map in Hv as ([x y] & Hxy & Hv).
  apply list_elem_of_In in Hxy.
  pose proof (elem_of_zip_l _ _ _ _ Hxy) as Hx.
  pose proof (elem_of_zip_r _ _ _ _ Hxy) as Hy.
  apply list_elem_of_In in Hv. simpl in Hv.
  apply elem_of_cons in Hv as [-> | Hv]; [by apply H|].
  apply elem_of_cons in Hv as [-> | Hv]; [|by apply elem_of_nil in Hv].
  apply H. eapply subseteq_drop, Hy.
Qed.

Section BezierFacts.

Variable evaluate_multi : list (list Q) → list Q → list (list Q).

(** what the [bezier] package documents: a curve of three dimensions
    evaluated at [len(s_vals)] parameters is an array of three rows of
    that length *)
Hypothesis evaluate_multi_shape : ∀ x y z s_vals,
  x ≠ [] → length y = length x → length z = length x →
  ∃ r0 r1 r2, evaluate_multi [x; y; z] s_vals = [r0; r1; r2]
              ∧ length r0 = length s_vals ∧ length r1 = length s_vals
              ∧ length r2 = length s_vals.

Lemma bezier_points_xyz_ok (bezier_control_nodes : list (list Q))
  (num_points : nat) :
  bezier_control_nodes ≠ [] →
  Forall (λ c, 3 ≤ length c)%nat bezier_control_nodes →
  ∃ nodes xyz,
    separate_coordinates bezier_control_nodes = Ok nodes
    ∧ combine_coordinates
        (evaluate_multi nodes (linspace 0 1 num_points)) = Ok xyz
    ∧ length xyz = num_points
    ∧ Forall (λ c, length c = 3%nat) xyz.
Proof.
  intros Hne Hall.
  destruct (separate_coordinates_ok _ Hall) as (xs & ys & zs & -> & Hx & Hy & Hz).
  destruct (evaluate_multi_shape xs ys zs (linspace 0 1 num_points))
    as (r0 & r1 & r2 & E & H0 & H1 & H2);
    [by destruct bezier_control_nodes, xs | congruence | congruence |].
  exists [xs; ys; zs]. eexists. split; [reflexivity|]. rewrite E.
  split; [reflexivity|]. split.
  - rewrite length_map, length_zip3 by congruence.
    rewrite H0. unfold linspace. by rewrite length_map, length_seq.
  - apply List.Forall_map, Forall_forall. done.
Qed.

(** X4: With at least two sample points [generate_bezier_data] returns the
    polyline through the samples: [2 * (num_points - 1)] vertices, each of
    four entries with a trailing 1, and as many colors and indices. *)
Theorem generate_bezier_data_shape (bezier_control_nodes : list (list Q))
  (num_points : nat) :
  bezier_control_nodes ≠ [] →
  Forall (λ c, 3 ≤ length c)%nat bezier_control_nodes →
  (2 ≤ num_points)%nat →
  ∃ vertices colors indices,
    generate_bezier_data evaluate_multi bezier_control_nodes num_points
    = Ok (vertices, colors, indices)
    ∧ length vertices = (2 * (num_points - 1))%nat
    ∧ Forall (λ v, length v = 4%nat ∧ v !! 3%nat = Some 1%Q) vertices
    ∧ length colors = length vertices
    ∧ indices = map Z.of_nat (seq 0 (length vertices)).
Proof.
  intros Hne Hall Hn. unfold generate_bezier_data.
  destruct (bezier_points_xyz_ok _ num_points Hne Hall)
    as (nodes & xyz & -> & Hc & Hlen & Hrows).
  cbn [rbind]. rewrite Hc. cbn [rbind].
  rewrite vertices_to_line_vertices_zip
    by (unfold xyz_to_vertices; rewrite length_map; lia).
  cbn [rbind]. eexists _, _, _. split; [reflexivity|].
  split; [|split; [|split]].
  - rewrite length_flat_map_pairs, length_zip, length_drop.
    unfold xyz_to_vertices. rewrite length_map. lia.
  - by apply Forall_line_vertices, xyz_to_vertices_rows.
  - apply repeat_length.
  - done.
Qed.

(** X5: The bezier feature does not clamp the render detail: with no sample
    point [generate_bezier_data] raises [IndexError], and with a single one
    it returns one segment of length zero (the sample twice). *)
Theorem generate_bezier_data_few_points
  (bezier_control_nodes : list (list Q)) :
  bezier_control_nodes ≠ [] →
  Forall (λ c, 3 ≤ length c)%nat bezier_control_nodes →
  generate_bezier_data evaluate_multi bezier_control_nodes 0
  = Raise IndexError
  ∧ ∃ v, generate_bezier_data evaluate_multi bezier_control_nodes 1
         = Ok ([v; v], constant_colors [(5 # 10)%Q; 0%Q; 1%Q; 1%Q] 2,
               [0; 1]).
Proof.
  intros Hne Hall. unfold generate_bezier_data. split.
  - destruct (bezier_points_xyz_ok _ 0 Hne Hall)
      as (nodes & xyz & -> & Hc & Hlen & _).
    cbn [rbind]. rewrite Hc. cbn [rbind]. by destruct xyz.
  - destruct (bezier_points_xyz_ok _ 1 Hne Hall)
      as (nodes & xyz & -> & Hc & Hlen & _).
    cbn [rbind]. rewrite Hc. cbn [rbind].
    destruct xyz as [|c [|c' xyz]]; try done. by eexists.
Qed.

(** X6: Both meshes that [render_curve] fills satisfy the mesh invariant
    whenever there is at least one sample point: vertices and colors have
    the same number of rows and every index refers to a vertex row. *)
Theorem render_curve_meshes_invariant (self1 self2 : nat) (uuid1 uuid2 : Z)
  (bezier_control_nodes : list (list Q)) (render_detail : nat) :
  bezier_control_nodes ≠ [] →
  Forall (λ c, 3 ≤ length c)%nat bezier_control_nodes →
  (1 ≤ render_detail)%nat →
  ∃ bezier_mesh control_nodes_mesh,
    render_curve_meshes evaluate_multi self1 self2 uuid1 uuid2
      bezier_control_nodes render_detail
    = Ok (bezier_mesh, control_nodes_mesh)
    ∧ same_row_count (_vertex_attributes bezier_mesh) = true
    ∧ indices_in_range bezier_mesh = true
    ∧ same_row_count (_vertex_attributes control_nodes_mesh) = true
    ∧ indices_in_range control_nodes_mesh = true.
Proof.
  intros Hne Hall Hn. unfold render_curve_meshes.
  assert (∃ vertices,
            generate_bezier_data evaluate_multi bezier_control_nodes
              render_detail
            = Ok (vertices,
                  constant_colors [(5 # 10)%Q; 0%Q; 1%Q; 1%Q] (length vertices),
                  index_range (length vertices))) as [vertices ->].
  { unfold generate_bezier_data.
    destruct (bezier_points_xyz_ok _ render_detail Hne Hall)
      as (nodes & xyz & -> & Hc & Hlen & _).
    cbn [rbind]. rewrite Hc. cbn [rbind].
    destruct xyz as [|c xyz]; [simpl in Hlen; lia|].
    unfold vertices_to_line_vertices, py_last.
    change (py_index (xyz_to_vertices (c :: xyz)) 0) with (Ok (c ++ [1%Q])).
    cbn [rbind].
    destruct (last (xyz_to_vertices (c :: xyz))) as [b|] eqn:Eb;
      [|by apply last_None in Eb].
    cbn [rbind]. by eexists. }
  cbn [rbind fst snd]. eexists _, _. split; [reflexivity|].
  destruct (fill_mesh_invariant self1 uuid1 "bezier_mesh" vertices
              (constant_colors [(5 # 10)%Q; 0%Q; 1%Q; 1%Q] (length vertices)))
    as [-> ->]; [apply repeat_length|].
  destruct (fill_mesh_invariant self2 uuid2 "control_nodes_mesh"
              (xyz_to_vertices bezier_control_nodes)
              (constant_colors [(5 # 10)%Q; (5 # 10)%Q; 1%Q; 1%Q]
                 (length (xyz_to_vertices bezier_control_nodes))))
    as [-> ->]; [apply repeat_length|].
  done.
Qed.

End BezierFacts.

Lemma stub_evaluate_multi_shape (x y z s_vals : list Q) :
  x ≠ [] → length y = length x → length z = length x →
  ∃ r0 r1 r2, stub_evaluate_multi [x; y; z] s_vals = [r0; r1; r2]
              ∧ length r0 = length s_vals ∧ length r1 = length s_vals
              ∧ length r2 = length s_vals.
Proof.
  intros _ _ _. eexists _, _, _. split; [reflexivity|].
  by rewrite !length_map.
Qed.

Lemma generate_bezier_data_shape_witness :
  ∃ vertices colors indices,
    generate_bezier_data stub_evaluate_multi
      [[0; 0; 0]; [(5 # 10); (2 # 10); (8 # 10)]]%Q 4
    = Ok (vertices, colors, indices)
    ∧ length vertices = (2 * (4 - 1))%nat
    ∧ Forall (λ v, length v = 4%nat ∧ v !! 3%nat = Some 1%Q) vertices
    ∧ length colors = length vertices
    ∧ indices = map Z.of_nat (seq 0 (length vertices)).
Proof.
  apply (generate_bezier_data_shape stub_evaluate_multi
           stub_evaluate_multi_shape);
    [done | repeat constructor | lia].
Defined.

Lemma generate_bezier_data_few_points_witness :
  generate_bezier_data stub_evaluate_multi
    [[0; 0; 0]; [(5 # 10); (2 # 10); (8 # 10)]]%Q 0
  = Raise IndexError
  ∧ ∃ v, generate_bezier_data stub_evaluate_multi
           [[0; 0; 0]; [(5 # 10); (2 # 10); (8 # 10)]]%Q 1
         = Ok ([v; v], constant_colors [(5 # 10)%Q; 0%Q; 1%Q; 1%Q] 2,
               [0; 1]).
Proof.
  apply (generate_bezier_data_few_points stub_evaluate_multi
           stub_evaluate_multi_shape); [done | repeat constructor].
Defined.

Lemma render_curve_meshes_invariant_witness :
  ∃ bezier_mesh control_nodes_mesh,
    render_curve_meshes stub_evaluate_multi 5 6 105 106
      [[0; 0; 0]; [(5 # 10); (2 # 10); (8 # 10)]]%Q 4
    = Ok (bezier_mesh, control_nodes_mesh)
    ∧ same_row_count (_vertex_attributes bezier_mesh) = true
    ∧ indices_in_range bezier_mesh = true
    ∧ same_row_count (_vertex_attributes control_nodes_mesh) = true
    ∧ indices_in_range control_nodes_mesh = true.
Proof.
  apply (render_curve_meshes_invariant stub_evaluate_multi
           stub_evaluate_multi_shape);
    [done | repeat constructor | lia].
Defined.

(** ** The triangles of the 3D plot *)

Lemma plot3d_cell_ok (f_x_y : Q → Q → Q) (x z : list Q) (q l : nat) :
  (1 ≤ l < length x)%nat → (1 ≤ q < length z)%nat →
  ∃ cell, plot3d_cell f_x_y x z q l = Ok cell
          ∧ length cell = 6%nat
          ∧ Forall (λ v, ∃ a c, v = plot3d_point f_x_y a c) cell.
Proof.
  intros Hl Hq. unfold plot3d_cell.
  destruct (py_index_lt x (l - 1)) as [a ->]; [lia|].
  destruct (py_index_lt z (q - 1)) as [c ->]; [lia|].
  destruct (py_index_lt x l) as [a' ->]; [lia|].
  destruct (py_index_lt z q) as [c' ->]; [lia|].
  cbn [rbind]. eexists. split; [reflexivity|]. split; [done|].
  repeat constructor; by eexists _, _.
Qed.

Lemma plot3d_inner_ok (f_x_y : Q → Q → Q) (x z : list Q) (q l : nat)
  (triangles_vertices : array) :
  (1 ≤ q < length z)%nat →
  ∃ cells, plot3d_inner f_x_y x z q l triangles_vertices
           = Ok (triangles_vertices ++ cells)
           ∧ length cells = (6 * (length x - 1 - l))%nat
           ∧ Forall (λ v, ∃ a c, v = plot3d_point f_x_y a c) cells.
Proof.
  intros Hq. funelim (plot3d_inner f_x_y x z q l triangles_vertices).
  - exists []. rewrite app_nil_r. split; [done|].
    match goal with E : (_ <? _) = false |- _ =>
      pose proof (proj1 (Z.ltb_ge _ _) E) end.
    split; [simpl; lia | constructor].
  - match goal with E : (_ <? _) = true |- _ =>
      pose proof (proj1 (Z.ltb_lt _ _) E) end.
    destruct (plot3d_cell_ok f_x_y x z q (S l)) as (cell' & Ec & Hlen & Hsurf);
      [lia | done |].
    match goal with E : plot3d_cell _ _ _ _ _ = Ok _ |- _ =>
      rewrite Ec in E; injection E as <- end.
    match goal with IH : _ → ∃ cells, _ |- _ =>
      destruct (IH Hq) as (cells & -> & Hl & Hs) end.
    exists (cell' ++ cells). rewrite app_assoc. split; [done|].
    split; [rewrite length_app; lia | by apply Forall_app].
  - match goal with E : (_ <? _) = true |- _ =>
      pose proof (proj1 (Z.ltb_lt _ _) E) end.
    destruct (plot3d_cell_ok f_x_y x z q (S l)) as (cell' & Ec & _);
      [lia | done |].
    match goal with E : plot3d_cell _ _ _ _ _ = Raise _ |- _ =>
      rewrite Ec in E; discriminate E end.
Qed.

Lemma plot3d_outer_ok (f_x_y : Q → Q → Q) (x z : list Q) (q : nat)
  (triangles_vertices : array) :
  ∃ cells, plot3d_outer f_x_y x z q triangles_vertices
           = Ok (triangles_vertices ++ cells)
           ∧ length cells
             = (6 * (length x - 1) * (length z - 1 - q))%nat
           ∧ Forall (λ v, ∃ a c, v = plot3d_point f_x_y a c) cells.
Proof.
  funelim (plot3d_outer f_x_y x z q triangles_vertices).
  - exists []. rewrite app_nil_r. split; [done|].
    match goal with E : (_ <? _) = false |- _ =>
      pose proof (proj1 (Z.ltb_ge _ _) E) end.
    split; [simpl; nia | constructor].
  - match goal with E : (_ <? _) = true |- _ =>
      pose proof (proj1 (Z.ltb_lt _ _) E) end.
    destruct (plot3d_inner_ok f_x_y x z (S q) 0 triangles_vertices)
      as (row & Er & Hlen & Hsurf); [lia|].
    match goal with E : plot3d_inner _ _ _ _ _ _ = Ok _ |- _ =>
      rewrite Er in E; injection E as <- end.
    match goal with IH : ∃ cells, _ |- _ =>
      destruct IH as (cells & -> & Hl & Hs) end.
    exists (row ++ cells). rewrite app_assoc. split; [done|].
    split; [rewrite length_app; nia | by apply Forall_app].
  - match goal with E : (_ <? _) = true |- _ =>
      pose proof (proj1 (Z.ltb_lt _ _) E) end.
    destruct (plot3d_inner_ok f_x_y x z (S q) 0 triangles_vertices)
      as (row & Er & _); [lia|].
    match goal with E : plot3d_inner _ _ _ _ _ _ = Raise _ |- _ =>
      rewrite Er in E; discriminate E end.
Qed.

(** X8: The vertex loops of [generate_plot3d_data] for every integer
    [func_detail = n]: a negative [n] makes [np.linspace] raise
    [ValueError]; for every [n >= 0] the loops end normally with two
    triangles per cell of the n x n grid of samples, that is
    [6 * (n-1) * (n-1)] vertices (none for n <= 1); every vertex is a
    point [(a, f(a, c), c, 1)] of the plotted surface; there are as many
    colors, and the indices are [0 .. len(vertices) - 1]. *)
Theorem generate_plot3d_triangles_count (plot_boundaries : Q * Q * Q * Q)
  (func_detail : Z) (f_x_y : Q → Q → Q) :
  if Z.ltb func_detail 0
  then generate_plot3d_triangles plot_boundaries func_detail f_x_y
       = Raises ValueError
  else
    ∃ vertices colors indices,
      generate_plot3d_triangles plot_boundaries func_detail f_x_y
      = Returns (vertices, colors, indices)
      ∧ length vertices
        = (6 * (Z.to_nat func_detail - 1) * (Z.to_nat func_detail - 1))%nat
      ∧ Forall (λ v, ∃ a c, v = [a; f_x_y a c; c; 1%Q]) vertices
      ∧ length colors = length vertices
      ∧ indices = map Z.of_nat (seq 0 (length vertices)).
Proof.
  destruct plot_boundaries as [[[b0 b1] b2] b3].
  unfold generate_plot3d_triangles, np_linspace.
  destruct (Z.ltb func_detail 0); [reflexivity|]. cbn [obind].
  set (n := Z.to_nat func_detail).
  destruct (plot3d_outer_ok f_x_y (linspace b0 b1 n) (linspace b2 b3 n) 0 [])
    as (cells & -> & Hlen & Hsurf).
  cbn [lift obind]. eexists _, _, _. split; [reflexivity|].
  unfold linspace in Hlen. rewrite !length_map, !length_seq in Hlen.
  simpl app. split; [rewrite Hlen; lia|]. split; [exact Hsurf|].
  split; [apply repeat_length | done].
Qed.

(** ** The boundaries of the fitting nodes *)

Lemma py_min_spec (a b : Q) :
  (py_min a b <= a ∧ py_min a b <= b)%Q ∧ (py_min a b = a ∨ py_min a b = b).
Proof.
  unfold py_min. destruct (Qlt_le_dec b a) as [H|H].
  - split; [split; [by apply Qlt_le_weak | apply Qle_refl] | by right].
  - split; [split; [apply Qle_refl | done] | by left].
Qed.

Lemma py_max_spec (a b : Q) :
  (a <= py_max a b ∧ b <= py_max a b)%Q ∧ (py_max a b = a ∨ py_max a b = b).
Proof.
  unfold py_max. destruct (Qlt_le_dec a b) as [H|H].
  - split; [split; [by apply Qlt_le_weak | apply Qle_refl] | by right].
  - split; [split; [apply Qle_refl | done] | by left].
Qed.

Lemma fold_py_min_spec (l : list Q) (a : Q) :
  Forall (λ x, fold_left py_min l a <= x)%Q (a :: l)
  ∧ fold_left py_min l a ∈ a :: l.
Proof.
  revert a. induction l as [|b l IH]; intros a; simpl.
  - split; [repeat constructor; apply Qle_refl | apply list_elem_of_here].
  - destruct (IH (py_min a b)) as [Hle Hin].
    destruct (py_min_spec a b) as [[Ha Hb] Hc].
    apply Forall_cons in Hle as [H0 Hl]. split.
    + constructor; [by eapply Qle_trans | constructor; [by eapply Qle_trans|done]].
    + apply elem_of_cons in Hin as [-> | Hin].
      * destruct Hc as [-> | ->]; [apply list_elem_of_here|].
        apply list_elem_of_further, list_elem_of_here.
      * by do 2 apply list_elem_of_further.
Qed.

Lemma fold_py_max_spec (l : list Q) (a : Q) :
  Forall (λ x, x <= fold_left py_max l a)%Q (a :: l)
  ∧ fold_left py_max l a ∈ a :: l.
Proof.
  revert a. induction l as [|b l IH]; intros a; simpl.
  - split; [repeat constructor; apply Qle_refl | apply list_elem_of_here].
  - destruct (IH (py_max a b)) as [Hle Hin].
    destruct (py_max_spec a b) as [[Ha Hb] Hc].
    apply Forall_cons in Hle as [H0 Hl]. split.
    + constructor; [by eapply Qle_trans | constructor; [by eapply Qle_trans|done]].
    + apply elem_of_cons in Hin as [-> | Hin].
      * destruct Hc as [-> | ->]; [apply list_elem_of_here|].
        apply list_elem_of_further, list_elem_of_here.
      * by do 2 apply list_elem_of_further.
Qed.

Lemma coordinate_column_lookup (k : nat) (coordinates : list (list Q))
  (col : list Q) :
  coordinate_column k coordinates = Ok col →
  (∀ c v, c ∈ coordinates → c !! k = Some v → v ∈ col)
  ∧ (∀ v, v ∈ col → ∃ c, c ∈ coordinates ∧ c !! k = Some v).
Proof.
  revert col. induction coordinates as [|c cs IH]; intros col; simpl.
  - intros [= <-]. split; [intros c v Hc; by apply elem_of_nil in Hc|].
    intros v Hv. by apply elem_of_nil in Hv.
  - unfold py_index. destruct (c !! k) as [v0|] eqn:E; simpl; [|done].
    destruct (coordinate_column k cs) as [vs|]; simpl; [|done].
    intros [= <-]. destruct (IH vs eq_refl) as [IH1 IH2]. split.
    + intros c' v Hc' Hv. apply elem_of_cons in Hc' as [-> | Hc'].
      * rewrite E in Hv. injection Hv as ->. apply list_elem_of_here.
      * apply list_elem_of_further. by eapply IH1.
    + intros v Hv. apply elem_of_cons in Hv as [-> | Hv].
      * exists c. split; [apply list_elem_of_here | done].
      * destruct (IH2 v Hv) as (c' & Hc' & Hv').
        exists c'. split; [by apply list_elem_of_further | done].
Qed.

Lemma find_boundaries_loop_columns (rest : list (list Q))
  (bounds : Q * Q * Q * Q * Q * Q) :
  Forall (λ c, 3 ≤ length c)%nat rest →
  ∃ xs ys zs,
    coordinate_column 0 rest = Ok xs
    ∧ coordinate_column 1 rest = Ok ys
    ∧ coordinate_column 2 rest = Ok zs
    ∧ find_boundaries_loop rest bounds
      = Ok (fold_left py_min xs bounds.1.1.1.1.1,
            fold_left py_max xs bounds.1.1.1.1.2,
            fold_left py_min ys bounds.1.1.1.2,
            fold_left py_max ys bounds.1.1.2,
            fold_left py_min zs bounds.1.2,
            fold_left py_max zs bounds.2).
Proof.
  intros H. revert bounds. induction H as [|c cs Hc _ IH]; intros bounds.
  - exists [], [], []. by destruct bounds as [[[[[? ?] ?] ?] ?] ?].
  - destruct bounds as [[[[[a b] d] e] f] g].
    destruct c as [|s0 [|s1 [|s2 r]]]; simpl in Hc; try lia.
    destruct (IH (py_min a s0, py_max b s0, py_min d s1, py_max e s1,
                  py_min f s2, py_max g s2))
      as (xs & ys & zs & Ex & Ey & Ez & El).
    exists (s0 :: xs), (s1 :: ys), (s2 :: zs). simpl.
    rewrite Ex, Ey, Ez. simpl. rewrite El. done.
Qed.

Lemma find_boundaries_columns (coordinates : list (list Q)) :
  coordinates ≠ [] →
  Forall (λ c, 3 ≤ length c)%nat coordinates →
  ∃ x0 xs y0 ys z0 zs,
    coordinate_column 0 coordinates = Ok (x0 :: xs)
    ∧ coordinate_column 1 coordinates = Ok (y0 :: ys)
    ∧ coordinate_column 2 coordinates = Ok (z0 :: zs)
    ∧ find_boundaries coordinates
      = Ok (fold_left py_min xs x0, fold_left py_max xs x0,
            fold_left py_min ys y0, fold_left py_max ys y0,
            fold_left py_min zs z0, fold_left py_max zs z0).
Proof.
  intros Hne H. destruct coordinates as [|c cs]; [done|].
  apply Forall_cons in H as [Hc Hcs].
  destruct c as [|x0 [|y0 [|z0 r]]]; simpl in Hc; try lia.
  destruct (find_boundaries_loop_columns cs (x0, x0, y0, y0, z0, z0) Hcs)
    as (xs & ys & zs & Ex & Ey & Ez & El).
  exists x0, xs, y0, ys, z0, zs. unfold find_boundaries. simpl.
  rewrite Ex, Ey, Ez. simpl. rewrite drop_0. done.
Qed.

(** X9: [find_boundaries] on a non-empty list of coordinates with at least
    three entries each returns normally; every coordinate lies within the
    six values returned, and each of the six is the entry of some
    coordinate of the list. *)
Theorem find_boundaries_bounds (coordinates : list (list Q)) :
  coordinates ≠ [] →
  Forall (λ c, 3 ≤ length c)%nat coordinates →
  ∃ min_x max_x min_y max_y min_z max_z,
    find_boundaries coordinates
    = Ok (min_x, max_x, min_y, max_y, min_z, max_z)
    ∧ (∀ c x y z, c ∈ coordinates →
         c !! 0%nat = Some x → c !! 1%nat = Some y → c !! 2%nat = Some z →
         (min_x <= x ∧ x <= max_x ∧ min_y <= y ∧ y <= max_y
          ∧ min_z <= z ∧ z <= max_z)%Q)
    ∧ (∃ c, c ∈ coordinates ∧ c !! 0%nat = Some min_x)
    ∧ (∃ c, c ∈ coordinates ∧ c !! 0%nat = Some max_x)
    ∧ (∃ c, c ∈ coordinates ∧ c !! 1%nat = Some min_y)
    ∧ (∃ c, c ∈ coordinates ∧ c !! 1%nat = Some max_y)
    ∧ (∃ c, c ∈ coordinates ∧ c !! 2%nat = Some min_z)
    ∧ (∃ c, c ∈ coordinates ∧ c !! 2%nat = Some max_z).
Proof.
  intros Hne H.
  destruct (find_boundaries_columns coordinates Hne H)
    as (x0 & xs & y0 & ys & z0 & zs & Ex & Ey & Ez & ->).
  destruct (coordinate_column_lookup _ _ _ Ex) as [Hx1 Hx2].
  destruct (coordinate_column_lookup _ _ _ Ey) as [Hy1 Hy2].
  destruct (coordinate_column_lookup _ _ _ Ez) as [Hz1 Hz2].
  destruct (fold_py_min_spec xs x0) as [Hxm Hxmi].
  destruct (fold_py_max_spec xs x0) as [HxM HxMi].
  destruct (fold_py_min_spec ys y0) as [Hym Hymi].
  destruct (fold_py_max_spec ys y0) as [HyM HyMi].
  destruct (fold_py_min_spec zs z0) as [Hzm Hzmi].
  destruct (fold_py_max_spec zs z0) as [HzM HzMi].
  rewrite Forall_forall in Hxm, HxM, Hym, HyM, Hzm, HzM.
  eexists _, _, _, _, _, _. split; [reflexivity|].
  split; [|by repeat split; auto].
  intros c x y z Hc Hx Hy Hz.
  repeat split; eauto.
Qed.

Lemma find_boundaries_bounds_witness :
  ∃ min_x max_x min_y max_y min_z max_z,
    find_boundaries [[0; 0; 0]; [1; 0; (5 # 10)]; [-1; (5 # 10); 1]]%Q
    = Ok (min_x, max_x, min_y, max_y, min_z, max_z)
    ∧ (∀ c x y z,
         c ∈ [[0; 0; 0]; [1; 0; (5 # 10)]; [-1; (5 # 10); 1]]%Q →
         c !! 0%nat = Some x → c !! 1%nat = Some y → c !! 2%nat = Some z →
         (min_x <= x ∧ x <= max_x ∧ min_y <= y ∧ y <= max_y
          ∧ min_z <= z ∧ z <= max_z)%Q)
    ∧ (∃ c, c ∈ [[0; 0; 0]; [1; 0; (5 # 10)]; [-1; (5 # 10); 1]]%Q
            ∧ c !! 0%nat = Some min_x)
    ∧ (∃ c, c ∈ [[0; 0; 0]; [1; 0; (5 # 10)]; [-1; (5 # 10); 1]]%Q
            ∧ c !! 0%nat = Some max_x)
    ∧ (∃ c, c ∈ [[0; 0; 0]; [1; 0; (5 # 10)]; [-1; (5 # 10); 1]]%Q
            ∧ c !! 1%nat = Some min_y)
    ∧ (∃ c, c ∈ [[0; 0; 0]; [1; 0; (5 # 10)]; [-1; (5 # 10); 1]]%Q
            ∧ c !! 1%nat = Some max_y)
    ∧ (∃ c, c ∈ [[0; 0; 0]; [1; 0; (5 # 10)]; [-1; (5 # 10); 1]]%Q
            ∧ c !! 2%nat = Some min_z)
    ∧ (∃ c, c ∈ [[0; 0; 0]; [1; 0; (5 # 10)]; [-1; (5 # 10); 1]]%Q
            ∧ c !! 2%nat = Some max_z).
Proof.
  apply find_boundaries_bounds; [done | repeat constructor].
Defined.

Lemma find_boundaries_loop_short (rest : list (list Q))
  (bounds : Q * Q * Q * Q * Q * Q) :
  Exists (λ c, length c < 3)%nat rest →
  find_boundaries_loop rest bounds = Raise IndexError.
Proof.
  intros H. revert bounds.
  induction H as [c cs Hc | c cs _ IH]; intros [[[[[a b] d] e] f] g].
  - destruct c as [|s0 [|s1 [|s2 r]]]; simpl in Hc; try lia; done.
  - destruct c as [|s0 [|s1 [|s2 r]]]; try done. simpl. apply IH.
Qed.

(** X10: [find_boundaries] raises [IndexError] on the empty list and on a list
    with a coordinate of fewer than three entries. *)
Theorem find_boundaries_raises (coordinates : list (list Q)) :
  coordinates = [] ∨ Exists (λ c, length c < 3)%nat coordinates →
  find_boundaries coordinates = Raise IndexError.
Proof.
  intros [-> | H]; [done|].
  unfold find_boundaries. destruct coordinates as [|c cs].
  - by apply Exists_nil in H.
  - destruct c as [|x0 [|y0 [|z0 r]]]; try done.
    apply Exists_cons in H as [H | H]; [simpl in H; lia|].
    simpl. rewrite drop_0. by apply find_boundaries_loop_short.
Qed.

Lemma find_boundaries_raises_witness :
  find_boundaries [[0; 0; 0]; [1; 0]]%Q = Raise IndexError.
Proof.
  apply find_boundaries_raises. right.
  apply Exists_cons_tl, Exists_cons_hd. simpl. lia.
Defined.

(** ** The quad of the fitted plane *)

Lemma generate_planefitting_data_ok (plane : Plane)
  (fitting_nodes : list (list Q)) :
  fitting_nodes ≠ [] →
  Forall (λ c, 3 ≤ length c)%nat fitting_nodes →
  ∃ diameter,
    let normal := plane_normal plane in
    let point := plane_point plane in
    let plane_x :=
      if Qlt_le_dec (vdot (V3 1 0 0) normal) (99999 # 100000)
      then vcross (V3 1 0 0) normal else vcross (V3 0 1 0) normal in
    let plane_y := vcross plane_x normal in
    generate_planefitting_data plane fitting_nodes
    = Ok ([vsub (vsub point (vscale diameter plane_x)) (vscale diameter plane_y);
           vadd (vsub point (vscale diameter plane_x)) (vscale diameter plane_y);
           vsub (vadd point (vscale diameter plane_x)) (vscale diameter plane_y);
           vadd (vadd point (vscale diameter plane_x)) (vscale diameter plane_y)],
          constant_colors [(5 # 10)%Q; 0%Q; 1%Q; 1%Q] 4,
          [0; 1; 3; 0; 3; 2]).
Proof.
  intros Hne H.
  destruct (find_boundaries_columns fitting_nodes Hne H)
    as (x0 & xs & y0 & ys & z0 & zs & _ & _ & _ & E).
  unfold generate_planefitting_data. rewrite E. cbn [rbind].
  by eexists.
Qed.

(** X11: The four vertices [generate_planefitting_data] returns lie in the
    fitted plane (their difference to the plane's point is orthogonal to
    the normal), and the quad they span is centred at the plane's point;
    the index list names two triangles over these four vertices. *)
Theorem planefitting_quad_in_plane (plane : Plane)
  (fitting_nodes : list (list Q)) :
  fitting_nodes ≠ [] →
  Forall (λ c, 3 ≤ length c)%nat fitting_nodes →
  ∃ bottom_left top_left bottom_right top_right colors,
    generate_planefitting_data plane fitting_nodes
    = Ok ([bottom_left; top_left; bottom_right; top_right], colors,
          [0; 1; 3; 0; 3; 2])
    ∧ length colors = 4%nat
    ∧ Forall (λ v, vdot (plane_normal plane) (vsub v (plane_point plane))
                   == 0)%Q
        [bottom_left; top_left; bottom_right; top_right]
    ∧ veq (vadd bottom_left top_right) (vscale 2 (plane_point plane))
    ∧ veq (vadd top_left bottom_right) (vscale 2 (plane_point plane)).
Proof.
  intros Hne H.
  destruct (generate_planefitting_data_ok plane fitting_nodes Hne H)
    as [d E]. cbv zeta in E. rewrite E. clear E.
  eexists _, _, _, _, _. split; [reflexivity|]. split; [done|].
  destruct plane as [[px py pz] [nx ny nz]].
  destruct (Qlt_le_dec _ _); unfold veq, vdot, vadd, vsub, vscale, vcross;
    simpl;
    (split; [do 4 (constructor; [simpl; ring|]); constructor
           | repeat split; simpl; ring]).
Qed.

Lemma planefitting_quad_in_plane_witness :
  ∃ bottom_left top_left bottom_right top_right colors,
    generate_planefitting_data (mkPlane (V3 0 0 1) (V3 0 1 0))
      [[0; 0; 0]; [1; 0; (5 # 10)]]%Q
    = Ok ([bottom_left; top_left; bottom_right; top_right], colors,
          [0; 1; 3; 0; 3; 2])
    ∧ length colors = 4%nat
    ∧ Forall (λ v, vdot (plane_normal (mkPlane (V3 0 0 1) (V3 0 1 0)))
                     (vsub v (plane_point (mkPlane (V3 0 0 1) (V3 0 1 0))))
                   == 0)%Q
        [bottom_left; top_left; bottom_right; top_right]
    ∧ veq (vadd bottom_left top_right)
        (vscale 2 (plane_point (mkPlane (V3 0 0 1) (V3 0 1 0))))
    ∧ veq (vadd top_left bottom_right)
        (vscale 2 (plane_point (mkPlane (V3 0 0 1) (V3 0 1 0)))).
Proof.
  apply planefitting_quad_in_plane; [done | repeat constructor].
Defined.

(** X12: A plane whose normal points along the negative x axis (more
    generally: is parallel to the x axis with an x entry below 0.99999)
    gets a quad without extent: all four vertices are the plane's point.
    The test that avoids the cross product with a parallel axis handles
    the positive direction only. *)
Theorem planefitting_quad_degenerate (plane : Plane)
  (fitting_nodes : list (list Q)) :
  fitting_nodes ≠ [] →
  Forall (λ c, 3 ≤ length c)%nat fitting_nodes →
  (vx (plane_normal plane) < 99999 # 100000)%Q →
  (vy (plane_normal plane) == 0)%Q →
  (vz (plane_normal plane) == 0)%Q →
  ∃ vertices colors indices,
    generate_planefitting_data plane fitting_nodes
    = Ok (vertices, colors, indices)
    ∧ Forall (λ v, veq v (plane_point plane)) vertices.
Proof.
  intros Hne H Hx Hy Hz.
  destruct (generate_planefitting_data_ok plane fitting_nodes Hne H)
    as [d E]. cbv zeta in E. rewrite E. clear E.
  eexists _, _, _. split; [reflexivity|].
  destruct plane as [[px py pz] [nx ny nz]]. simpl in Hx, Hy, Hz.
  destruct (Qlt_le_dec _ _) as [Hlt | Hge].
  - unfold veq, vadd, vsub, vscale, vcross; simpl.
    do 4 (constructor; [repeat split; simpl; rewrite ?Hy, ?Hz; ring|]).
    constructor.
  - exfalso. unfold vdot in Hge. simpl in Hge.
    assert (E : (1 * nx + 0 * ny + 0 * nz == nx)%Q) by ring.
    rewrite E in Hge. apply (Qlt_irrefl (99999 # 100000)).
    by eapply Qle_lt_trans.
Qed.

Lemma planefitting_quad_degenerate_witness :
  ∃ vertices colors indices,
    generate_planefitting_data (mkPlane (V3 2 3 4) (V3 (-1) 0 0))
      [[0; 0; 0]; [1; 0; (5 # 10)]]%Q
    = Ok (vertices, colors, indices)
    ∧ Forall (λ v, veq v (plane_point (mkPlane (V3 2 3 4) (V3 (-1) 0 0))))
        vertices.
Proof.
  apply planefitting_quad_degenerate;
    [done | repeat constructor | reflexivity | reflexivity | reflexivity].
Defined.

(** ** Projection lines and the meshes of the plane fitting *)

Lemma fold_left_projection {A} (g : A → A) (l acc : list A) :
  fold_left (λ vs node, (vs ++ [node]) ++ [g node]) l acc
  = acc ++ flat_map (λ node, [node; g node]) l.
Proof.
  revert acc. induction l as [|a l IH]; intros acc; simpl.
  - by rewrite app_nil_r.
  - rewrite IH, <- !app_assoc. done.
Qed.

(** X13: [generate_projection_lines] returns one segment per fitting node, from
    the node to its projection, in the order of the nodes: vertex 2i is
    node i and vertex 2i+1 its projection; there are as many colors as
    vertices and the indices are [0 .. 2n-1]. *)
Theorem projection_lines_segments (project_point : list Q → list Q)
  (fitting_nodes : list (list Q)) (i : nat) :
  let '(vertices, colors, indices) :=
    generate_projection_lines project_point fitting_nodes in
  length vertices = (2 * length fitting_nodes)%nat
  ∧ vertices !! (2 * i)%nat = fitting_nodes !! i
  ∧ vertices !! (2 * i + 1)%nat = project_point <$> fitting_nodes !! i
  ∧ length colors = length vertices
  ∧ indices = map Z.of_nat (seq 0 (2 * length fitting_nodes)).
Proof.
  unfold generate_projection_lines. rewrite fold_left_projection.
  cbv beta iota zeta. cbn [app].
  destruct (lookup_flat_map_pairs (λ node : list Q, node) project_point
              fitting_nodes i) as [E1 E2].
  rewrite E1, E2, length_flat_map_pairs.
  unfold constant_colors, index_range. rewrite repeat_length.
  repeat split. by destruct (fitting_nodes !! i).
Qed.

(** X14: The three meshes that [fit_plane] fills (the plane, the projection
    lines, the fitting nodes), for a non-empty list of fitting nodes with
    at least three entries each: when [Plane.best_fit] raises, [fit_plane]
    raises the same exception and fills no mesh; when it returns a plane,
    [fit_plane] returns normally and the three meshes satisfy the mesh
    invariant: vertices and colors have the same number of rows and every
    index refers to a vertex row. *)
Theorem fit_plane_meshes_invariant (self1 self2 self3 : nat)
  (uuid1 uuid2 uuid3 : Z) (best_fit : list (list Q) → outcome Plane)
  (project_point : Plane → list Q → list Q)
  (fitting_nodes : list (list Q)) :
  fitting_nodes ≠ [] →
  Forall (λ c, 3 ≤ length c)%nat fitting_nodes →
  match best_fit fitting_nodes with
  | Raises r =>
      fit_plane_meshes self1 self2 self3 uuid1 uuid2 uuid3 best_fit
        project_point fitting_nodes = Raises r
  | Returns plane =>
      ∃ planefitting_mesh projection_lines_mesh fitting_nodes_mesh,
        fit_plane_meshes self1 self2 self3 uuid1 uuid2 uuid3 best_fit
          project_point fitting_nodes
        = Returns (planefitting_mesh, projection_lines_mesh,
                   fitting_nodes_mesh)
        ∧ Forall (λ mesh, same_row_count (_vertex_attributes mesh) = true
                          ∧ indices_in_range mesh = true)
            [planefitting_mesh; projection_lines_mesh; fitting_nodes_mesh]
  end.
Proof.
  intros Hne H. unfold fit_plane_meshes.
  destruct (best_fit fitting_nodes) as [plane | r]; [|reflexivity].
  cbn [obind].
  destruct (generate_planefitting_data_ok plane fitting_nodes Hne H)
    as [d E]. cbv zeta in E. rewrite E. clear E.
  cbn [lift obind fst snd]. eexists _, _, _. split; [reflexivity|].
  repeat constructor.
  - apply (fill_mesh_invariant self2 uuid2 "projection_lines_mesh"),
      repeat_length.
  - apply (fill_mesh_invariant self2 uuid2 "projection_lines_mesh"),
      repeat_length.
  - apply (fill_mesh_invariant self3 uuid3 "fitting_nodes_mesh"),
      repeat_length.
  - apply (fill_mesh_invariant self3 uuid3 "fitting_nodes_mesh"),
      repeat_length.
Qed.

Lemma fit_plane_meshes_invariant_witness :
  ∃ planefitting_mesh projection_lines_mesh fitting_nodes_mesh,
    fit_plane_meshes 1 2 3 101 102 103 stub_best_fit stub_project_point
      [[0; 0; 0]; [1; 0; 0]; [0; 1; 0]; [1; 1; 0]]%Q
    = Returns (planefitting_mesh, projection_lines_mesh, fitting_nodes_mesh)
    ∧ Forall (λ mesh, same_row_count (_vertex_attributes mesh) = true
                      ∧ indices_in_range mesh = true)
        [planefitting_mesh; projection_lines_mesh; fitting_nodes_mesh].
Proof.
  apply (fit_plane_meshes_invariant 1 2 3 101 102 103 stub_best_fit
           stub_project_point [[0; 0; 0]; [1; 0; 0]; [0; 1; 0]; [1; 1; 0]]%Q);
    [done | repeat constructor].
Defined.

(** ** More of Component.py *)

(** X15: Only a BasicTransform has a list of children: on a freshly constructed
    BasicTransform [getNumberOfChildren] returns 0, on a freshly constructed
    component of any other class it raises [TypeError], because
    [Component.__init__] leaves [_children] at [None]. *)
Theorem getNumberOfChildren_fresh (M : Type) (identity : M)
  (ortho : Q → Q → Q → Q → Q → Q → M) (self : nat) (uuid1 : Z)
  (call : constructor_call M) :
  getNumberOfChildren (construct identity ortho self uuid1 call)
  = match call with
    | NewBasicTransform _ _ _ _ => Some 0%nat
    | _ => None
    end.
Proof. by destruct call. Qed.

Lemma call_method_total {M S} (system : gmap string (handler M S))
  (name : string) (self : object M) (st : S) :
  (∃ h, system !! name = Some h ∧ ∀ o s, ∃ r, h o s = Ok r) →
  ∃ r, call_method system name self st = Ok r.
Proof.
  intros (h & Hh & Htot). unfold call_method. rewrite Hh. apply Htot.
Qed.

(** X16: [accept] raises [AttributeError] for the first method, in call order,
    that the system object does not have, once the methods called before
    it have returned normally; the methods after it are not called. A
    system that handles transforms must therefore define all three of
    [apply2GATransform], [apply2BasicTransform] and
    [applyCamera2BasicTransform]. *)
Theorem accept_raises_at_first_missing_method (M S : Type) (self : object M)
  (system : gmap string (handler M S)) (st : S) (before : list string)
  (name : string) (after : list string) :
  handlers_called self = before ++ name :: after →
  (∀ n, n ∈ before →
        ∃ h, system !! n = Some h ∧ ∀ o s, ∃ r, h o s = Ok r) →
  system !! name = None →
  accept self system st = Raise (AttributeError name).
Proof.
  intros Hc Hbefore Hn.
  assert (Hmiss : ∀ o s, call_method system name o s
                         = Raise (AttributeError name)).
  { intros o s. unfold call_method. by rewrite Hn. }
  assert (Hok : ∀ n o s, n ∈ before → ∃ r, call_method system n o s = Ok r).
  { intros n o s Hin. by apply call_method_total, Hbefore. }
  destruct self; simpl in Hc.
  - destruct before as [|b1 [|b2 [|b3 before]]]; simpl in Hc.
    + injection Hc as <- _. unfold accept. by rewrite Hmiss.
    + injection Hc as <- <- _. unfold accept.
      destruct (Hok "apply2GATransform" (OBasicTransform bt) st) as [r1 ->];
        [apply list_elem_of_here|].
      cbn [rbind]. by rewrite Hmiss.
    + injection Hc as <- <- <- _. unfold accept.
      destruct (Hok "apply2GATransform" (OBasicTransform bt) st) as [r1 ->];
        [apply list_elem_of_here|].
      cbn [rbind].
      destruct (Hok "apply2BasicTransform" r1.1 r1.2) as [r2 ->];
        [apply list_elem_of_further, list_elem_of_here|].
      cbn [rbind]. by rewrite Hmiss.
    + by destruct before.
  - destruct before as [|b1 before]; simpl in Hc.
    + injection Hc as <- _. unfold accept. by rewrite Hmiss.
    + by destruct before.
  - destruct before as [|b1 before]; simpl in Hc.
    + injection Hc as <- _. unfold accept. by rewrite Hmiss.
    + by destruct before.
  - by destruct before.
  - by destruct before.
  - by destruct before.
Qed.

Lemma accept_raises_at_first_missing_method_witness :
  accept (OBasicTransform (BasicTransform__init__ zidentity 3 103 None None
                             None None))
    ({["apply2GATransform" := pass_handler]}
       : gmap string (handler zmat unit)) tt
  = Raise (AttributeError "apply2BasicTransform").
Proof.
  apply (accept_raises_at_first_missing_method zmat unit _ _ tt
           ["apply2GATransform"] "apply2BasicTransform"
           ["applyCamera2BasicTransform"]).
  - reflexivity.
  - intros n Hn. apply list_elem_of_singleton in Hn as ->.
    exists pass_handler. split; [reflexivity|].
    intros o s. by eexists.
  - reflexivity.
Defined.

(** ** More of the animation loop *)

Section AnimationPoses.

Context `{QuaternionModule}.

(** X17: The pose loop on a segment that is not empty: for every bone [i] of
    [k_1], the matrix left in [MM[i]] is the one found there with the
    rotation block and the translation column interpolated between pose
    [i] of [k_1] and pose [i] of [k_2] at the blend factor; the matrices of
    [MM] beyond the bones of [k_1] are left as they are, and no bone reads
    or writes the matrix of another. *)
Theorem animation_for_loop_poses (self : AnimationComponents)
  (k_1 k_2 : list mat4) (t0 t1 : Z) (a : Q) :
  blend_factor (time_add self) t0 t1 = Ok a →
  (length k_1 ≤ length k_2)%nat → (length k_1 ≤ length (MM self))%nat →
  ∃ self',
    animation_for_loop self k_1 k_2 t0 t1 = Ok self'
    ∧ alpha self' = a
    ∧ length (MM self') = length (MM self)
    ∧ (∀ i m1 m2 m,
         k_1 !! i = Some m1 → k_2 !! i = Some m2 → MM self !! i = Some m →
         MM self' !! i = Some (blended_pose (inter self) a m1 m2 m))
    ∧ (∀ i, (length k_1 ≤ i)%nat → MM self' !! i = MM self !! i).
Proof.
  intros Ha H2 Hm. unfold animation_for_loop. rewrite Ha. cbn [rbind].
  destruct (for_range_poses k_1 k_2 (length k_1) 0 (set_alpha self a))
    as (mm & -> & Hlen & Hmm); [simpl; lia | simpl; lia | simpl; lia |].
  eexists. split; [reflexivity|]. simpl. split; [done|].
  split; [exact Hlen|]. split.
  - intros i m1 m2 m E1 E2 Em. rewrite Hmm.
    rewrite bool_decide_eq_true_2
      by (split; [lia | simpl; eapply lookup_lt_Some; eauto]).
    simpl. by rewrite E1, E2, Em.
  - intros i Hi. rewrite Hmm. by rewrite bool_decide_eq_false_2 by (simpl; lia).
Qed.

End AnimationPoses.

Lemma animation_for_loop_poses_witness :
  ∃ self',
    @animation_for_loop stub_quaternion
      (set_MM (set_time_add (AnimationComponents_default 9 109) 40)
         [eye4; eye4]) [eye4] [eye4; eye4] 0 100 = Ok self'
    ∧ alpha self' = (inject_Z 40 / inject_Z 100)%Q
    ∧ length (MM self') = 2%nat
    ∧ (∀ i m1 m2 m,
         [eye4] !! i = Some m1 → [eye4; eye4] !! i = Some m2 →
         [eye4; eye4] !! i = Some m →
         MM self' !! i
         = Some (@blended_pose stub_quaternion "SLERP"
                   (inject_Z 40 / inject_Z 100)%Q m1 m2 m))
    ∧ (∀ i, (length [eye4] ≤ i)%nat → MM self' !! i = [eye4; eye4] !! i).
Proof.
  apply (@animation_for_loop_poses stub_quaternion
           (set_MM (set_time_add (AnimationComponents_default 9 109) 40)
              [eye4; eye4]) [eye4] [eye4; eye4] 0 100);
    [reflexivity | simpl; lia | simpl; lia].
Defined.

Section AnimationLoopFacts.

Context `{QuaternionModule}.

Lemma animation_for_loop_body_shape (self self' : AnimationComponents)
  (keyframe1 keyframe2 : list (list mat4)) (i : nat) :
  animation_for_loop_body self keyframe1 keyframe2 i = Ok self' →
  length (MM self') = length (MM self)
  ∧ (Forall (λ m, w3 m = R4 0 0 0 1) (MM self) →
     Forall (λ m, w3 m = R4 0 0 0 1) (MM self')).
Proof.
  unfold animation_for_loop_body. intros E.
  destruct (py_index (Keyframe_rotate keyframe1) i) as [q1|];
    [cbn [rbind] in E | discriminate].
  destruct (py_index (Keyframe_rotate keyframe2) i) as [q2|];
    [cbn [rbind] in E | discriminate].
  destruct (py_index (MM self) i) as [m|] eqn:Em;
    [cbn [rbind] in E | discriminate].
  destruct (py_index (Keyframe_translate keyframe1) i) as [a|];
    [cbn [rbind] in E | discriminate].
  destruct (py_index (Keyframe_translate keyframe2) i) as [b|];
    [cbn [rbind] in E | discriminate].
  match type of E with
  | rbind (py_index ?l i) _ = _ =>
      destruct (py_index l i) as [m'|] eqn:Em';
        [cbn [rbind] in E | discriminate]
  end.
  injection E as <-. simpl. rewrite !length_insert. split; [done|].
  intros Hall. unfold py_index in Em, Em'. simpl in Em'.
  destruct (MM self !! i) as [m0|] eqn:E0; [|discriminate].
  injection Em as ->.
  assert (Hm : w3 m = R4 0 0 0 1).
  { rewrite Forall_forall in Hall. apply Hall.
    by eapply list_elem_of_lookup_2. }
  rewrite list_lookup_insert_eq in Em' by (eapply lookup_lt_Some; eauto).
  injection Em' as <-.
  apply Forall_insert; [|done]. by apply Forall_insert.
Qed.

Lemma for_range_shape (keyframe1 keyframe2 : list (list mat4))
  (idx : list nat) : ∀ self self' : AnimationComponents,
  for_range (λ s i, animation_for_loop_body s keyframe1 keyframe2 i) idx self
  = Ok self' →
  length (MM self') = length (MM self)
  ∧ (Forall (λ m, w3 m = R4 0 0 0 1) (MM self) →
     Forall (λ m, w3 m = R4 0 0 0 1) (MM self')).
Proof.
  induction idx as [|i idx IH]; intros self self'; simpl.
  - by intros [= ->].
  - destruct (animation_for_loop_body self keyframe1 keyframe2 i)
      as [s1|] eqn:E; [cbn [rbind] | discriminate].
    intros Hr. destruct (animation_for_loop_body_shape _ _ _ _ _ E) as [L1 F1].
    destruct (IH _ _ Hr) as [L2 F2]. split; [congruence | auto].
Qed.

Lemma update_flag_MM (self self' : AnimationComponents) (key3_is_None : bool) :
  update_flag self key3_is_None = Ok self' → MM self' = MM self.
Proof.
  unfold update_flag, py_and. intros E.
  repeat match type of E with
  | context [py_index ?l ?i] =>
      destruct (py_index l i); cbn [rbind] in E; [|discriminate]
  | context [if ?b then _ else _] => destruct b; cbn [rbind] in E
  end; by injection E as <-.
Qed.

(** X18: Whenever [animation_loop] returns, the blended pose has one matrix per
    bone of [key1], each with the bottom row 0 0 0 1 of an affine
    transform, and the returned array is its flattening: one row of 16
    numbers per bone. *)
Theorem animation_loop_output_shape (self self' : AnimationComponents)
  (key1 key2 : list mat4) (key3 : option (list mat4))
  (MM1Data : list (list Q)) :
  animation_loop self key1 key2 key3 = Ok (self', MM1Data) →
  length (MM self') = length key1
  ∧ Forall (λ m, w3 m = R4 0 0 0 1) (MM self')
  ∧ MM1Data = map flatten16 (MM self')
  ∧ length MM1Data = length key1
  ∧ Forall (λ row, length row = 16%nat) MM1Data.
Proof.
  unfold animation_loop. intros E.
  destruct (update_flag _ _) as [s2|] eqn:E2; [cbn [rbind] in E|discriminate].
  apply update_flag_MM in E2. simpl in E2.
  destruct (select_segment s2 key1 key2 key3) as [seg|];
    [cbn [rbind] in E | discriminate].
  assert (Hs3 : ∀ s3, match seg with
                       | Some (ka, kb, t0, t1) =>
                           animation_for_loop s2 ka kb t0 t1
                       | None => Ok s2
                       end = Ok s3 →
                length (MM s3) = length key1
                ∧ Forall (λ m, w3 m = R4 0 0 0 1) (MM s3)).
  { intros s3 E3.
    assert (H0 : length (MM s2) = length key1
                 ∧ Forall (λ m, w3 m = R4 0 0 0 1) (MM s2)).
    { rewrite E2, length_map. split; [done|].
      apply List.Forall_map, Forall_forall. done. }
    destruct seg as [[[[ka kb] t0] t1]|]; [|by injection E3 as <-].
    unfold animation_for_loop in E3.
    destruct (blend_factor _ _ _) as [a|]; [cbn [rbind] in E3|discriminate].
    apply for_range_shape in E3 as [L F]. simpl in L, F.
    destruct H0 as [L0 F0]. split; [congruence | auto]. }
  destruct (match seg with Some _ => _ | None => _ end) as [s3|];
    [cbn [rbind] in E | discriminate].
  destruct (Hs3 s3 eq_refl) as [L F].
  injection E as <- <-.
  assert (HMM : MM (advance s3) = MM s3).
  { unfold advance. by destruct (flag s3), (anition_start s3). }
  rewrite HMM, length_map. repeat split; try done.
  apply List.Forall_map, Forall_forall. done.
Qed.

Lemma for_range_app (body : AnimationComponents → nat → result AnimationComponents)
  (l1 l2 : list nat) (self : AnimationComponents) :
  for_range body (l1 ++ l2) self
  = rbind (for_range body l1 self) (for_range body l2).
Proof.
  revert self. induction l1 as [|i l1 IH]; intros self; simpl; [done|].
  destruct (body self i); simpl; [apply IH | done].
Qed.

(** X19: A second keyframe with fewer bones than the first makes
    [animation_loop] raise [IndexError] as soon as the accumulator is in
    the first segment. *)
Theorem animation_loop_fewer_bones (self : AnimationComponents)
  (key1 key2 : list mat4) (key3 : option (list mat4)) (b0 b1 b2 : Z) :
  time self = [b0; b1; b2] → b0 < b1 → b1 ≤ b2 →
  b0 ≤ time_add self ≤ b1 →
  (length key2 < length key1)%nat →
  animation_loop self key1 key2 key3 = Raise IndexError.
Proof.
  intros Ht H01 H12 [Hlo Hhi] Hlen. unfold animation_loop.
  destruct (update_flag _ _) as [s2|] eqn:E2.
  2:{ exfalso. unfold update_flag, py_and in E2. simpl in E2.
      rewrite Ht in E2. simpl in E2.
      repeat match type of E2 with
      | context [if ?b then _ else _] => destruct b; simpl in E2
      end; discriminate. }
  cbn [rbind].
  assert (Hf : time s2 = time self ∧ time_add s2 = time_add self
               ∧ MM s2 = map (λ _, eye4) key1).
  { unfold update_flag, py_and in E2. simpl in E2. rewrite Ht in E2.
    simpl in E2.
    repeat match type of E2 with
    | context [if ?b then _ else _] => destruct b; simpl in E2
    end; by injection E2 as <-. }
  destruct Hf as (Ht2 & Hta2 & HMM2).
  rewrite (select_segment_cases s2 key1 key2 key3 b0 b1 b2) by congruence.
  rewrite Hta2.
  rewrite (proj2 (Z.leb_le b0 (time_add self)) Hlo),
    (proj2 (Z.leb_le (time_add self) b1) Hhi). cbn [andb rbind].
  unfold animation_for_loop. rewrite Hta2.
  destruct (blend_factor_bounds (time_add self) b0 b1) as (a & -> & _);
    [done | done |].
  cbn [rbind].
  replace (seq 0 (length key1))
    with (seq 0 (length key2)
            ++ seq (length key2) (length key1 - length key2)).
  2:{ rewrite <- seq_app. f_equal. lia. }
  rewrite for_range_app.
  destruct (for_range_poses key1 key2 (length key2) 0 (set_alpha s2 a))
    as (mm' & -> & _); [simpl; lia | simpl; lia | |].
  { simpl. rewrite HMM2, length_map. lia. }
  cbn [rbind].
  destruct (length key1 - length key2)%nat as [|d] eqn:Ed; [lia|].
  cbn [seq for_range]. unfold animation_for_loop_body at 1.
  destruct (py_index_lt (Keyframe_rotate (Keyframe_array_MM_arg (Some [key1])))
              (length key2)) as [q1 ->];
    [by rewrite Keyframe_rotate_single|].
  cbn [rbind]. unfold py_index at 1.
  rewrite lookup_ge_None_2 by (by rewrite Keyframe_rotate_single).
  done.
Qed.

Lemma update_flag_general (self : AnimationComponents) (b0 b1 b2 : Z)
  (key3_is_None : bool) :
  time self = [b0; b1; b2] → b1 ≤ b2 →
  update_flag self key3_is_None
  = Ok (set_flag self
          (snd (accumulator_step b0 (if key3_is_None then b1 else b2)
                  (tempo self) (anition_start self)
                  (time_add self, flag self)))).
Proof.
  intros Ht H12. unfold update_flag, accumulator_step, py_and.
  rewrite Ht. simpl.
  destruct key3_is_None; simpl.
  - destruct (Z.leb_spec b1 (time_add self)); simpl; [reflexivity|].
    destruct (Z.leb_spec b2 (time_add self)); simpl; [lia|].
    destruct (Z.leb_spec (time_add self) b0); simpl; [reflexivity|].
    by destruct self.
  - destruct (Z.leb b1 (time_add self)); simpl;
      (destruct (Z.leb_spec b2 (time_add self)); simpl; [reflexivity|]);
      (destruct (Z.leb_spec (time_add self) b0); simpl; [reflexivity|]);
      by destruct self.
Qed.

(** One call of [animation_loop] with keyframes of as many bones each and
    boundaries [b0 < b1 <= b2], with or without a third keyframe, started
    or not: it returns normally, keeps the configuration, and moves the
    accumulator and the flag as [accumulator_step] says. *)
Lemma animation_loop_step_general (self : AnimationComponents)
  (key1 key2 : list mat4) (key3 : option (list mat4)) (b0 b1 b2 : Z) :
  time self = [b0; b1; b2] → b0 < b1 → b1 ≤ b2 →
  length key2 = length key1 →
  (∀ k3, key3 = Some k3 → length k3 = length key1) →
  ∃ self' data,
    animation_loop self key1 key2 key3 = Ok (self', data)
    ∧ time self' = time self ∧ tempo self' = tempo self
    ∧ anition_start self' = anition_start self
    ∧ (time_add self', flag self')
      = accumulator_step b0 (if key3 is Some _ then b2 else b1) (tempo self)
          (anition_start self) (time_add self, flag self).
Proof.
  intros Ht H01 H12 Hk2 Hk3. unfold animation_loop.
  rewrite (update_flag_general _ b0 b1 b2) by done. cbn [rbind].
  rewrite (select_segment_cases _ _ _ _ b0 b1 b2) by done. cbn [rbind].
  set (fl := snd (accumulator_step _ _ _ _ _)).
  assert (Hfl : fl = snd (accumulator_step b0
                            (if key3 is Some _ then b2 else b1) (tempo self)
                            (anition_start self) (time_add self, flag self))).
  { unfold fl. by destruct key3. }
  clearbody fl.
  set (s2 := set_flag _ fl).
  assert (Hta : time_add s2 = time_add self) by done.
  assert (HMM : length (MM s2) = length key1) by (simpl; by rewrite length_map).
  assert (Hend : ∀ s3 : AnimationComponents,
            time s3 = time self → tempo s3 = tempo self →
            anition_start s3 = anition_start self →
            time_add s3 = time_add self → flag s3 = fl →
            ∃ self' data,
              Ok (advance s3, map flatten16 (MM (advance s3)))
              = Ok (self', data)
              ∧ time self' = time self ∧ tempo self' = tempo self
              ∧ anition_start self' = anition_start self
              ∧ (time_add self', flag self')
                = accumulator_step b0 (if key3 is Some _ then b2 else b1)
                    (tempo self) (anition_start self)
                    (time_add self, flag self)).
  { intros s3 E1 E2 E3 E4 E5. eexists _, _. split; [reflexivity|].
    unfold advance. rewrite E5, E3, E4, E2.
    unfold accumulator_step in *. simpl in Hfl |- *. rewrite <- Hfl.
    destruct fl, (anition_start self); simpl; rewrite ?E1, ?E2, ?E3, ?E5;
      done. }
  destruct (Z.leb b0 (time_add s2) && Z.leb (time_add s2) b1) eqn:Hseg.
  - apply andb_true_iff in Hseg as [Hlo Hhi].
    apply Z.leb_le in Hlo, Hhi.
    destruct (blend_factor_bounds (time_add s2) b0 b1) as (a & Ha & _);
      [done | done |].
    destruct (animation_for_loop_ok s2 key1 key2 b0 b1 a Ha) as (mm & -> & _);
      [lia | lia |].
    cbn [rbind]. by apply Hend.
  - destruct key3 as [k3|]; [|cbn [rbind]; by apply Hend].
    destruct (Z.ltb b1 (time_add s2) && Z.leb (time_add s2) b2) eqn:Hseg2;
      [|cbn [rbind]; by apply Hend].
    apply andb_true_iff in Hseg2 as [Hlo Hhi].
    apply Z.ltb_lt in Hlo. apply Z.leb_le in Hhi.
    destruct (blend_factor_bounds (time_add s2) b1 b2) as (a & Ha & _);
      [lia | lia |].
    destruct (animation_for_loop_ok s2 key2 k3 b1 b2 a Ha) as (mm & -> & _);
      [rewrite (Hk3 k3 eq_refl); lia | lia |].
    cbn [rbind]. by apply Hend.
Qed.

(** X20: With keyframes of as many bones each, boundaries [b0 < b1 <= b2] and a
    tempo that is not negative, every call of [animation_loop] returns
    normally, and an accumulator that starts between [b0 - tempo] and
    [top + tempo] stays there for ever, where [top] is [b1] without a third
    keyframe and [b2] with one; while the animation is not started the
    accumulator does not move at all. *)
Theorem accumulator_stays_in_range (n : nat) (self : AnimationComponents)
  (key1 key2 : list mat4) (key3 : option (list mat4)) (b0 b1 b2 : Z) :
  time self = [b0; b1; b2] → b0 < b1 → b1 ≤ b2 →
  length key2 = length key1 →
  (∀ k3, key3 = Some k3 → length k3 = length key1) →
  0 ≤ tempo self →
  b0 - tempo self ≤ time_add self
    ≤ (if key3 is Some _ then b2 else b1) + tempo self →
  ∃ self',
    ticks n self key1 key2 key3 = Ok self'
    ∧ b0 - tempo self ≤ time_add self'
        ≤ (if key3 is Some _ then b2 else b1) + tempo self
    ∧ (anition_start self = false → time_add self' = time_add self).
Proof.
  intros Ht H01 H12 Hk2 Hk3. revert self Ht.
  induction n as [|n IH]; intros self Ht Htempo Hrange; simpl.
  - by exists self.
  - destruct (animation_loop_step_general self key1 key2 key3 b0 b1 b2)
      as (s1 & data & -> & Ht1 & Htp & Hs1 & Hstep); try done.
    cbn [rbind fst].
    assert (Hr1 : b0 - tempo self ≤ time_add s1
                    ≤ (if key3 is Some _ then b2 else b1) + tempo self
                  ∧ (anition_start self = false
                     → time_add s1 = time_add self)).
    { unfold accumulator_step in Hstep. simpl in Hstep.
      injection Hstep as Hta _. rewrite Hta.
      assert (b0 ≤ (if key3 is Some _ then b2 else b1))
        by (destruct key3; lia).
      destruct (anition_start self); [|lia].
      split; [|done].
      destruct (Z.leb_spec (if key3 is Some _ then b2 else b1) (time_add self));
        [lia|].
      destruct (Z.leb_spec (time_add self) b0); [lia|].
      destruct (flag self); lia. }
    destruct Hr1 as [Hr1 Hp1].
    destruct (IH s1) as (s' & -> & Hr & Hp);
      [congruence | rewrite Htp; lia | rewrite Htp; lia |].
    exists s'. split; [reflexivity|]. rewrite Htp in Hr.
    split; [done|]. intros Hpause. rewrite Hp by congruence. auto.
Qed.

End AnimationLoopFacts.

Lemma animation_loop_output_shape_witness :
  ∃ self' MM1Data,
    @animation_loop stub_quaternion (AnimationComponents_default 9 109)
      [eye4; eye4] [eye4; eye4] None = Ok (self', MM1Data)
    ∧ length (MM self') = length [eye4; eye4]
    ∧ Forall (λ m, w3 m = R4 0 0 0 1) (MM self')
    ∧ MM1Data = map flatten16 (MM self')
    ∧ length MM1Data = length [eye4; eye4]
    ∧ Forall (λ row, length row = 16%nat) MM1Data.
Proof.
  eexists _, _. split; [reflexivity|].
  apply (@animation_loop_output_shape stub_quaternion
           (AnimationComponents_default 9 109) _ [eye4; eye4] [eye4; eye4]
           None _).
  reflexivity.
Defined.

Lemma animation_loop_fewer_bones_witness :
  @animation_loop stub_quaternion (AnimationComponents_default 9 109)
    [eye4; eye4] [eye4] None = Raise IndexError.
Proof.
  apply (@animation_loop_fewer_bones stub_quaternion
           (AnimationComponents_default 9 109) [eye4; eye4] [eye4] None
           0 100 200);
    [reflexivity | lia | lia | simpl; lia | simpl; lia].
Defined.

Lemma accumulator_stays_in_range_witness :
  ∃ self',
    @ticks stub_quaternion 7 (AnimationComponents_default 9 109)
      [eye4] [eye4] (Some [eye4]) = Ok self'
    ∧ 0 - tempo (AnimationComponents_default 9 109) ≤ time_add self'
        ≤ 200 + tempo (AnimationComponents_default 9 109)
    ∧ (anition_start (AnimationComponents_default 9 109) = false →
       time_add self' = time_add (AnimationComponents_default 9 109)).
Proof.
  apply (@accumulator_stays_in_range stub_quaternion 7
           (AnimationComponents_default 9 109) [eye4] [eye4] (Some [eye4])
           0 100 200);
    [reflexivity | lia | lia | reflexivity | by intros k3 [= <-]
     | simpl; lia | simpl; lia].
Defined.
